(** * TelloWSBridge: a shallow embedding of the bridge and its properties

    The development follows the layout of the repository:

    - [Py]               the interpreter primitives the sources rely on
                         ([str.strip], [str.split], [int], [float], [dict],
                         exceptions, [str.encode]);
    - [StateProtocol]    [tello_bridge/protocols/state_protocol.py];
    - [CommandProtocol]  [tello_bridge/protocols/base_protocol.py] and
                         [tello_bridge/protocols/command_protocol.py];
    - [WebSocket]        [tello_bridge/websocket/__init__.py];
    - [Bridge]           [tello_bridge/__init__.py].

    Text is a sequence of 8-bit code points (the Latin-1 range of [str]);
    instants and delays are exact rationals. What the outside answers to
    a call (the socket to a [sendto], the loop to the opening of an
    endpoint, a client's connection to a [send]) is an argument of the
    function that makes the call. *)

From Stdlib Require Import ZArith QArith Qminmax Ascii String List Bool Lia.
From stdpp Require Import base option list strings gmap.

Local Open Scope Z_scope.

(* ===================================================================== *)
(** * Interpreter primitives *)
(* ===================================================================== *)

Module Py.

(** ** Exceptions *)

Inductive exn : Type :=
| ValueError
| KeyError
| UnicodeDecodeError
| ConnectionClosed
| OSError.

Inductive result (A : Type) : Type :=
| Ok (a : A)
| Raise (e : exn).
Arguments Ok {A} a.
Arguments Raise {A} e.

Definition bind {A B} (m : result A) (k : A -> result B) : result B :=
  match m with
  | Ok a => k a
  | Raise e => Raise e
  end.

(** [try: body  except ValueError: handler] *)
Definition try_except_ValueError {A} (body handler : result A) : result A :=
  match body with
  | Raise ValueError => handler
  | r => r
  end.

(** ** [str] methods *)

Definition code (c : ascii) : nat := nat_of_ascii c.

Definition in_range (lo hi : nat) (c : ascii) : bool :=
  (Nat.leb lo (code c)) && (Nat.leb (code c) hi).

(** [str.isspace] on one character: TAB..CR, FS..US, SPACE, NEL, NBSP. *)
Definition isspace (c : ascii) : bool :=
  in_range 9 13 c || in_range 28 31 c
  || Nat.eqb (code c) 32 || Nat.eqb (code c) 133 || Nat.eqb (code c) 160.

Definition is_empty (s : string) : bool :=
  match s with
  | EmptyString => true
  | String _ _ => false
  end.

Fixpoint lstrip_by (sp : ascii -> bool) (s : string) : string :=
  match s with
  | EmptyString => EmptyString
  | String c r => if sp c then lstrip_by sp r else s
  end.

Fixpoint rstrip_by (sp : ascii -> bool) (s : string) : string :=
  match s with
  | EmptyString => EmptyString
  | String c r =>
      let r' := rstrip_by sp r in
      if sp c && is_empty r' then EmptyString else String c r'
  end.

Definition strip_by (sp : ascii -> bool) (s : string) : string :=
  rstrip_by sp (lstrip_by sp s).

(** [s.strip()] *)
Definition strip (s : string) : string := strip_by isspace s.

(** [c in s] for a one-character [c] *)
Fixpoint contains (c : ascii) (s : string) : bool :=
  match s with
  | EmptyString => false
  | String a r => if Ascii.eqb a c then true else contains c r
  end.

(** [s.split(sep)] for a one-character separator: never the empty list. *)
Fixpoint split (sep : ascii) (s : string) : list string :=
  match s with
  | EmptyString => [EmptyString]
  | String a r =>
      if Ascii.eqb a sep then EmptyString :: split sep r
      else match split sep r with
           | [] => [String a EmptyString]
           | seg :: segs => String a seg :: segs
           end
  end.

(** [s.split(sep, 1)]: at most one cut, at the first separator. *)
Fixpoint split1 (sep : ascii) (s : string) : list string :=
  match s with
  | EmptyString => [EmptyString]
  | String a r =>
      if Ascii.eqb a sep then [EmptyString; r]
      else match split1 sep r with
           | seg :: segs => String a seg :: segs
           | [] => [String a EmptyString]
           end
  end.

(** [a, b = parts]: unpacking raises [ValueError] unless there are
    exactly two parts. *)
Definition unpack2 (parts : list string) : result (string * string) :=
  match parts with
  | [a; b] => Ok (a, b)
  | _ => Raise ValueError
  end.

(** [sep.join(parts)] *)
Fixpoint join (sep : ascii) (parts : list string) : string :=
  match parts with
  | [] => EmptyString
  | [p] => p
  | p :: ps => p +:+ String sep (join sep ps)
  end.

(** ** [dict]: keys in insertion order, assignment overwrites in place *)

Definition dict (V : Type) : Type := list (string * V).

Fixpoint dict_get {V} (k : string) (d : dict V) : option V :=
  match d with
  | [] => None
  | (k', v) :: d' => if String.eqb k' k then Some v else dict_get k d'
  end.

(** [k in d] *)
Definition dict_contains {V} (k : string) (d : dict V) : bool :=
  match dict_get k d with
  | Some _ => true
  | None => false
  end.

(** [d[k] = v] *)
Fixpoint dict_set {V} (k : string) (v : V) (d : dict V) : dict V :=
  match d with
  | [] => [(k, v)]
  | (k', v') :: d' =>
      if String.eqb k' k then (k', v) :: d' else (k', v') :: dict_set k v d'
  end.

(** [d[k]] *)
Definition dict_item {V} (k : string) (d : dict V) : result V :=
  match dict_get k d with
  | Some v => Ok v
  | None => Raise KeyError
  end.

(** [d.get(k, default)] *)
Definition dict_get_default {V} (k : string) (default : V) (d : dict V) : V :=
  match dict_get k d with
  | Some v => v
  | None => default
  end.

Definition dict_keys {V} (d : dict V) : list string := map fst d.

(** ** Numeric conversions

    [int(s)] and [float(s)] first trim the blanks of the numeric
    parsers (TAB..CR, SPACE, NEL, NBSP; unlike [str.strip] not FS..US),
    then read an optional sign and groups of decimal digits separated
    by single underscores. *)

Definition isspace_num (c : ascii) : bool :=
  in_range 9 13 c
  || Nat.eqb (code c) 32 || Nat.eqb (code c) 133 || Nat.eqb (code c) 160.

Definition isdigit (c : ascii) : bool := in_range 48 57 c.

Definition digit_value (c : ascii) : Z := Z.of_nat (code c) - 48.

(** The value and the number of digits of [digit (["_"] digit)*];
    [prev] tells whether the previous character was a digit. *)
Fixpoint digitpart_go (acc : Z) (n : nat) (prev : bool) (s : string)
  : option (Z * nat) :=
  match s with
  | EmptyString => if prev then Some (acc, n) else None
  | String c r =>
      if isdigit c then
        digitpart_go (10 * acc + digit_value c) (S n) true r
      else if Ascii.eqb c "_" && prev then digitpart_go acc n false r
      else None
  end.

Definition digitpart (s : string) : option (Z * nat) :=
  digitpart_go 0 0%nat false s.

(** An optional sign: [(negative, rest)]. *)
Definition split_sign (s : string) : bool * string :=
  match s with
  | String "-" r => (true, r)
  | String "+" r => (false, r)
  | _ => (false, s)
  end.

(** [sys.get_int_max_str_digits()], at the interpreter's default; the
    sources never change it. *)
Definition int_max_str_digits : nat := 4300.

(** [int(s)] for a [str] argument, base 10. A numeral with more digits
    than the limit (underscores and the sign are not counted, leading
    zeros are) raises [ValueError] like a malformed one. *)
Definition int (s : string) : result Z :=
  let '(neg, body) := split_sign (strip_by isspace_num s) in
  match digitpart body with
  | Some (n, digits) =>
      if Nat.leb digits int_max_str_digits
      then Ok (if neg then - n else n)
      else Raise ValueError
  | None => Raise ValueError
  end.

(** A [float] is kept as the exact decimal that was read: the sign,
    the digits and the power of ten; the rounding to binary64 is left
    to the interpreter. *)
Inductive float_value : Type :=
| FDec (negative : bool) (digits : Z) (exp10 : Z)
| FInf (negative : bool)
| FNan.

Definition lower (c : ascii) : ascii :=
  if in_range 65 90 c then ascii_of_nat (code c + 32) else c.

Fixpoint lower_str (s : string) : string :=
  match s with
  | EmptyString => EmptyString
  | String c r => String (lower c) (lower_str r)
  end.

(** Cut at the first character satisfying [p]. *)
Fixpoint cut_at (p : ascii -> bool) (s : string) : option (string * string) :=
  match s with
  | EmptyString => None
  | String c r =>
      if p c then Some (EmptyString, r)
      else match cut_at p r with
           | Some (a, b) => Some (String c a, b)
           | None => None
           end
  end.

Definition is_dot (c : ascii) : bool := Ascii.eqb c ".".
Definition is_exp (c : ascii) : bool := Ascii.eqb c "e" || Ascii.eqb c "E".

(** [[digitpart] "." digitpart | digitpart ["."]]: digits and the
    number of digits after the point. *)
Definition mantissa (s : string) : option (Z * nat) :=
  match cut_at is_dot s with
  | None => match digitpart s with
            | Some (n, _) => Some (n, 0%nat)
            | None => None
            end
  | Some (ip, fp) =>
      match is_empty ip, is_empty fp with
      | true, true => None
      | false, true =>
          match digitpart ip with
          | Some (n, _) => Some (n, 0%nat)
          | None => None
          end
      | true, false => digitpart fp
      | false, false =>
          match digitpart ip, digitpart fp with
          | Some (n, _), Some (m, k) => Some (n * 10 ^ Z.of_nat k + m, k)
          | _, _ => None
          end
      end
  end.

(** [[sign] digitpart] after the exponent marker. *)
Definition exponent (s : string) : option Z :=
  let '(neg, body) := split_sign s in
  match digitpart body with
  | Some (n, _) => Some (if neg then - n else n)
  | None => None
  end.

Definition floatnumber (s : string) : option (Z * Z) :=
  match cut_at is_exp s with
  | None =>
      match mantissa s with
      | Some (m, k) => Some (m, - Z.of_nat k)
      | None => None
      end
  | Some (ms, es) =>
      match mantissa ms, exponent es with
      | Some (m, k), Some e => Some (m, e - Z.of_nat k)
      | _, _ => None
      end
  end.

(** [float(s)] for a [str] argument. *)
Definition float (s : string) : result float_value :=
  let '(neg, body) := split_sign (strip_by isspace_num s) in
  let l := lower_str body in
  if String.eqb l "inf" || String.eqb l "infinity" then Ok (FInf neg)
  else if String.eqb l "nan" then Ok FNan
  else match floatnumber body with
       | Some (m, e) => Ok (FDec neg m e)
       | None => Raise ValueError
       end.

(** ** [str.encode('utf-8')] on the 8-bit range *)

Definition encode_char (c : ascii) : list Byte.byte :=
  if Nat.ltb (code c) 128 then [byte_of_ascii c]
  else [byte_of_ascii (ascii_of_nat (192 + Nat.div (code c) 64));
        byte_of_ascii (ascii_of_nat (128 + Nat.modulo (code c) 64))].

Fixpoint encode_utf8 (s : string) : list Byte.byte :=
  match s with
  | EmptyString => []
  | String c r => encode_char c ++ encode_utf8 r
  end.

End Py.

#[global] Instance result_ret : MRet Py.result := @Py.Ok.
#[global] Instance result_bind : MBind Py.result := fun A B k m => Py.bind m k.

(* ===================================================================== *)
(** * Numerals, as the language reference writes them *)
(* ===================================================================== *)

Module Grammar.
Import Py.

Fixpoint all_chars (p : ascii -> bool) (s : string) : bool :=
  match s with
  | EmptyString => true
  | String c r => p c && all_chars p r
  end.

Definition blank (s : string) : Prop := all_chars isspace_num s = true.

(** [digitpart ::= digit (["_"] digit)*] *)
Inductive digitpart_lit : string -> Prop :=
| dp_last c : isdigit c = true -> digitpart_lit (String c EmptyString)
| dp_next c r : isdigit c = true -> digitpart_lit r -> digitpart_lit (String c r)
| dp_under c r :
    isdigit c = true -> digitpart_lit r ->
    digitpart_lit (String c (String "_" r)).

(** [[sign]] with [sign ::= "+" | "-"] *)
Inductive sign_lit : string -> Prop :=
| sign_none : sign_lit ""
| sign_plus : sign_lit "+"
| sign_minus : sign_lit "-".

(** What [int] accepts: blanks, [[sign] digitpart], blanks. *)
Inductive int_numeral : string -> Prop :=
| int_numeral_intro lead sg d trail :
    blank lead -> sign_lit sg -> digitpart_lit d -> blank trail ->
    int_numeral (lead +:+ sg +:+ d +:+ trail).

(** [number ::= [digitpart] "." digitpart | digitpart ["."]] *)
Inductive number_lit : string -> Prop :=
| num_int d : digitpart_lit d -> number_lit d
| num_int_dot d : digitpart_lit d -> number_lit (d +:+ ".")
| num_frac f : digitpart_lit f -> number_lit (String "." f)
| num_int_frac d f :
    digitpart_lit d -> digitpart_lit f -> number_lit (d +:+ String "." f).

(** [exponent ::= ("e" | "E") [sign] digitpart] *)
Inductive exponent_lit : string -> Prop :=
| exp_intro m sg d :
    is_exp m = true -> sign_lit sg -> digitpart_lit d ->
    exponent_lit (String m (sg +:+ d)).

(** [floatnumber ::= number [exponent]] *)
Inductive floatnumber_lit : string -> Prop :=
| fn_plain n : number_lit n -> floatnumber_lit n
| fn_exp n e : number_lit n -> exponent_lit e -> floatnumber_lit (n +:+ e).

(** [absfloatvalue ::= floatnumber | infinity | nan], the last two in
    any letter case. *)
Inductive absfloat_lit : string -> Prop :=
| af_number x : floatnumber_lit x -> absfloat_lit x
| af_inf x : lower_str x = "inf" -> absfloat_lit x
| af_infinity x : lower_str x = "infinity" -> absfloat_lit x
| af_nan x : lower_str x = "nan" -> absfloat_lit x.

(** What [float] accepts: blanks, [[sign] absfloatvalue], blanks. *)
Inductive float_numeral : string -> Prop :=
| float_numeral_intro lead sg x trail :
    blank lead -> sign_lit sg -> absfloat_lit x -> blank trail ->
    float_numeral (lead +:+ sg +:+ x +:+ trail).

(** The first, respectively last, character of [s] satisfies [p]. *)
Definition starts_with (p : ascii -> bool) (s : string) : Prop :=
  match s with
  | EmptyString => False
  | String c _ => p c = true
  end.

Fixpoint ends_with (p : ascii -> bool) (s : string) : Prop :=
  match s with
  | EmptyString => False
  | String c EmptyString => p c = true
  | String _ r => ends_with p r
  end.

(** Characters that are neither trimmed nor read as a sign. *)
Definition solid (c : ascii) : bool := negb (isspace_num c).

Definition unsigned (c : ascii) : bool :=
  negb (isspace_num c) && negb (Ascii.eqb c "-") && negb (Ascii.eqb c "+").

(** The characters of a [digitpart] and of a [number]. *)
Definition digit_or_underscore (c : ascii) : bool :=
  isdigit c || Ascii.eqb c "_".

Definition number_char (c : ascii) : bool :=
  isdigit c || Ascii.eqb c "_" || is_dot c.

Definition digit_or_dot (c : ascii) : bool := isdigit c || is_dot c.

(** The number of decimal digits written in [s]. *)
Fixpoint digit_count (s : string) : nat :=
  match s with
  | EmptyString => 0%nat
  | String c r => ((if isdigit c then 1 else 0) + digit_count r)%nat
  end.

End Grammar.

(* ===================================================================== *)
(** * Values on the wire and effects of the event loop *)
(* ===================================================================== *)

Module Json.

(** What a parsed telemetry field holds: the sources keep an [int], a
    [float] or the unconverted [str] in the same slot. *)
Inductive value : Type :=
| VInt (z : Z)
| VFloat (f : Py.float_value)
| VStr (s : string).

Record field_entry : Type := {
  entry_value : value;
  entry_description : string
}.

(** The two shapes handed to [json.dumps] before a broadcast. *)
Inductive envelope : Type :=
| CommandEnvelope (data : string)
| StateEnvelope (raw : string) (parsed : Py.dict value) (timestamp : Q)
                (fields : Py.dict field_entry).

Definition origin (e : envelope) : string :=
  match e with
  | CommandEnvelope _ => "command"
  | StateEnvelope _ _ _ _ => "state"
  end.

Definition envelope_fields (e : envelope) : Py.dict field_entry :=
  match e with
  | CommandEnvelope _ => []
  | StateEnvelope _ _ _ fields => fields
  end.

End Json.

Module Asyncio.

Definition transport : Type := nat.
Definition address : Type := string * Z.

Inductive level : Type := DEBUG | INFO | WARNING | ERROR.

(** What a callback or one resumption of a coroutine does to the outside:
    log records, datagrams handed to a transport, tasks handed to the
    loop, the timer it suspends on. *)
Inductive effect : Type :=
| Log (l : level) (text : string)
| Sendto (t : transport) (data : list Byte.byte) (addr : address)
| Close (t : transport)
| CreateEndpoint (t : transport)
| SpawnBroadcast (msg : Json.envelope)
| SpawnReconnect
| Sleep (delay : Q).

(** How a call of [transport.sendto] ends for the protocol. The datagram
    transport tries the socket at once: either the call just returns
    (the datagram is sent, or buffered for later), or the socket raises
    [OSError] and the transport calls the protocol's [error_received]
    before [sendto] returns. (Where the transport drops an empty
    datagram without trying the socket, only [Taken] occurs for it.) *)
Inductive sendto_outcome : Type :=
| Taken
| Refused.

Definition is_sendto (e : effect) : bool :=
  match e with Sendto _ _ _ => true | _ => false end.

Definition is_sleep (e : effect) : bool :=
  match e with Sleep _ => true | _ => false end.

(** Closing a transport or opening a new endpoint. *)
Definition rebuilds (e : effect) : bool :=
  match e with Close _ | CreateEndpoint _ => true | _ => false end.

(** The datagrams of a run, in order. *)
Definition datagrams (es : list effect) : list (list Byte.byte) :=
  flat_map (fun e => match e with Sendto _ d _ => [d] | _ => [] end) es.

(** The timers of a run, in order. *)
Definition sleeps (es : list effect) : list Q :=
  flat_map (fun e => match e with Sleep d => [d] | _ => [] end) es.

End Asyncio.

(* ===================================================================== *)
(** * [protocols/state_protocol.py] *)
(* ===================================================================== *)

Module StateProtocol.
Import Py Json Asyncio.

Inductive py_type : Type := Tint | Tfloat.

(** [ty(s)] for the two constructors stored in [state_types]. *)
Definition call (ty : py_type) (s : string) : result value :=
  match ty with
  | Tint => z ← int s; mret (VInt z)
  | Tfloat => f ← float s; mret (VFloat f)
  end.

Definition state_descriptions : dict string :=
  [ ("mid", "Mission Pad ID (-1 if not detected)");
    ("x", "X coordinate on Mission Pad (0 if not detected)");
    ("y", "Y coordinate on Mission Pad (0 if not detected)");
    ("z", "Z coordinate on Mission Pad (0 if not detected)");
    ("pitch", "Attitude pitch in degrees");
    ("roll", "Attitude roll in degrees");
    ("yaw", "Attitude yaw in degrees");
    ("vgx", "Speed on X axis");
    ("vgy", "Speed on Y axis");
    ("vgz", "Speed on Z axis");
    ("templ", "Lowest temperature in " +:+ String "176" "C");
    ("temph", "Highest temperature in " +:+ String "176" "C");
    ("tof", "Time of flight distance in cm");
    ("h", "Height in cm");
    ("bat", "Battery percentage");
    ("baro", "Barometer measurement in cm");
    ("time", "Motor time in seconds");
    ("agx", "Acceleration on X axis");
    ("agy", "Acceleration on Y axis");
    ("agz", "Acceleration on Z axis") ].

Definition state_types : dict py_type :=
  [ ("mid", Tint); ("x", Tint); ("y", Tint); ("z", Tint);
    ("pitch", Tfloat); ("roll", Tfloat); ("yaw", Tfloat);
    ("vgx", Tfloat); ("vgy", Tfloat); ("vgz", Tfloat);
    ("templ", Tfloat); ("temph", Tfloat); ("tof", Tfloat);
    ("h", Tfloat); ("bat", Tfloat); ("baro", Tfloat);
    ("time", Tfloat); ("agx", Tfloat); ("agy", Tfloat);
    ("agz", Tfloat) ].

(** The [try] block of the loop body: convert when the key is known,
    keep the text when the conversion raises [ValueError]. *)
Definition convert (key value : string) : result Json.value :=
  try_except_ValueError
    (if dict_contains key state_types then
       ty ← dict_item key state_types; call ty value
     else mret (VStr value))
    (mret (VStr value)).

(** The [for pair in pairs] loop, threading [state_data]; [item] is the
    loop variable [pair]. *)
Fixpoint parse_pairs (pairs : list string) (state_data : dict Json.value)
  : result (dict Json.value) :=
  match pairs with
  | [] => mret state_data
  | item :: rest =>
      if is_empty item then parse_pairs rest state_data
      else if contains ":" item then
        '(key, value) ← unpack2 (split1 ":" item);
        value' ← convert key value;
        parse_pairs rest (dict_set key value' state_data)
      else parse_pairs rest state_data
  end.

Definition parse_state_data (state_string : string)
  : result (dict Json.value) :=
  let state_string := strip state_string in
  let pairs := split ";" state_string in
  parse_pairs pairs [].

(** The [for key, value in state_data.items()] loop filling
    [enhanced_state["fields"]]. *)
Fixpoint fill_fields (items : list (string * Json.value))
    (fields : dict field_entry) : dict field_entry :=
  match items with
  | [] => fields
  | (key, value) :: rest =>
      fill_fields rest
        (dict_set key
           {| entry_value := value;
              entry_description :=
                dict_get_default key "Unknown parameter" state_descriptions |}
           fields)
  end.

Definition enhanced_state (message : string) (state_data : dict Json.value)
    (wall_clock : Q) : envelope :=
  StateEnvelope message state_data wall_clock (fill_fields state_data []).

(** The module-level [broadcast_to_websockets] of [state_protocol.py]. *)
Record globals : Type := {
  broadcast_to_websockets : bool
}.

(** The instance attributes inherited from [BaseProtocol]. *)
Record TelloStateProtocol : Type := {
  transport : option Asyncio.transport;
  connected : bool;
  last_response_time : Q
}.

(** [decoded] is the outcome of [data.decode('utf-8')], [None] when it
    raises [UnicodeDecodeError]; [now] is the loop's clock and
    [wall_clock] is [time.time()]. *)
Definition datagram_received (g : globals) (decoded : option string)
    (now wall_clock : Q) (self : TelloStateProtocol)
  : result (TelloStateProtocol * list effect) :=
  let self' := {| transport := transport self; connected := connected self;
                  last_response_time := now |} in
  match decoded with
  | Some message =>
      state_data ← parse_state_data message;
      mret (self',
            Log DEBUG "Tello state received"
              :: (if broadcast_to_websockets g
                  then [SpawnBroadcast (enhanced_state message state_data wall_clock)]
                  else []))
  | None => mret (self', [Log DEBUG "Binary state data received"])
  end.

(** The kind a value has. *)
Definition has_type (ty : py_type) (v : Json.value) : Prop :=
  match ty, v with
  | Tint, VInt _ => True
  | Tfloat, VFloat _ => True
  | _, _ => False
  end.

(** A well-formed numeral of the kind [ty]. *)
Definition numeral (ty : py_type) (s : string) : Prop :=
  match ty with
  | Tint => Grammar.int_numeral s
  | Tfloat => Grammar.float_numeral s
  end.

(** A numeral short enough for the constructor [ty]: [int] has a limit
    on the number of digits, [float] has none. *)
Definition within_limit (ty : py_type) (s : string) : Prop :=
  match ty with
  | Tint => (Grammar.digit_count s <= int_max_str_digits)%nat
  | Tfloat => True
  end.

End StateProtocol.

(* ===================================================================== *)
(** * [protocols/base_protocol.py] and [protocols/command_protocol.py] *)
(* ===================================================================== *)

Module CommandProtocol.
Import Py Json Asyncio.

(** The module-level variables of [command_protocol.py]. *)
Record globals : Type := {
  broadcast_to_websockets : bool;  (* bound to a function, or [None] *)
  need_reconnect : bool
}.

Definition module_init : globals :=
  {| broadcast_to_websockets := false; need_reconnect := false |}.

(** What [send_to_tello] is given: the text of a WebSocket text frame or
    a literal of the sources, or the bytes of a binary frame. *)
Inductive message : Type :=
| Text (s : string)
| Binary (b : list Byte.byte).

(** [if isinstance(message, str): message = message.encode('utf-8')] *)
Definition encode (m : message) : list Byte.byte :=
  match m with
  | Text s => encode_utf8 s
  | Binary b => b
  end.

(** Where the coroutine [_reconnect] is suspended. *)
Inductive reconnect_pc : Type :=
| AtStart
| Sleeping (retries : nat) (retry_delay : Q).

(** The datagram [send_to_tello] hands to the transport for [m]. *)
Definition sendto_of (t : Asyncio.transport) (addr : address) (m : message)
  : effect := Sendto t (encode m) addr.

(** [self.reconnect_task] *)
Inductive task : Type :=
| NoTask
| Running (pc : reconnect_pc)
| Done.

Record TelloProtocol : Type := {
  transport : option Asyncio.transport;
  connected : bool;
  last_response_time : Q;
  tello_addr : address;
  command_queue : list message;
  reconnect_task : task
}.

Definition method : Type := TelloProtocol -> TelloProtocol * list effect.

(** Sequencing of two methods on the same object. *)
Definition and_then (f g : method) : method :=
  fun self =>
    let '(self1, es1) := f self in
    let '(self2, es2) := g self1 in
    (self2, es1 ++ es2).

(** [TelloProtocol(tello_addr, broadcast_function)]: the constructor
    also rebinds the module-level [broadcast_to_websockets]. *)
Definition init (addr : address) (broadcast_function : bool) (g : globals)
  : globals * TelloProtocol :=
  ({| broadcast_to_websockets := broadcast_function;
      need_reconnect := need_reconnect g |},
   {| transport := None; connected := false; last_response_time := 0%Q;
      tello_addr := addr; command_queue := []; reconnect_task := NoTask |}).

Definition set_connected (b : bool) : method :=
  fun self =>
    ({| transport := transport self; connected := b;
        last_response_time := last_response_time self;
        tello_addr := tello_addr self;
        command_queue := command_queue self;
        reconnect_task := reconnect_task self |}, []).

Definition set_reconnect_task (t : task) : method :=
  fun self =>
    ({| transport := transport self; connected := connected self;
        last_response_time := last_response_time self;
        tello_addr := tello_addr self;
        command_queue := command_queue self;
        reconnect_task := t |}, []).

Definition _schedule_reconnect : method :=
  fun self =>
    match reconnect_task self with
    | Running _ => (self, [])
    | NoTask | Done =>
        and_then (set_reconnect_task (Running AtStart))
          (fun s => (s, [SpawnReconnect])) self
    end.

Definition connection_lost : method :=
  and_then (fun s => (s, [Log INFO "UDP socket closed"]))
    (and_then (set_connected false) _schedule_reconnect).

Definition error_received : method :=
  and_then (fun s => (s, [Log ERROR "UDP socket error"]))
    (and_then (set_connected false) _schedule_reconnect).

(** What happens to the protocol inside [self.transport.sendto(...)],
    before it returns. *)
Definition within_sendto (outcome : sendto_outcome) : method :=
  match outcome with
  | Taken => fun self => (self, [])
  | Refused => error_received
  end.

(** [send_to_tello(message)]; [outcome] is how the transport takes the
    datagram, should the call get as far as [sendto]. *)
Definition send_to_tello (outcome : sendto_outcome) (m : message) : method :=
  fun self =>
    if negb (connected self) then
      ({| transport := transport self; connected := connected self;
          last_response_time := last_response_time self;
          tello_addr := tello_addr self;
          command_queue := command_queue self ++ [m];
          reconnect_task := reconnect_task self |},
       [Log WARNING "Not connected to Tello, queuing message"])
    else
      match transport self with
      | None => (self, [Log WARNING "Cannot send message: Transport not ready"])
      | Some t =>
          and_then
            (fun s => (s, [Log DEBUG "Sending to Tello";
                           Sendto t (encode m) (tello_addr self)]))
            (within_sendto outcome) self
      end.

(** [for cmd in self.command_queue: self.send_to_tello(cmd)]. The
    iterator holds an index into the list object itself, and
    [send_to_tello] appends to that list once the channel is no longer
    connected, so the loop is driven by the queue as it is at each step.
    [outcomes i] is how the transport takes the datagram of the step at
    index [i]; the result is [None] when [fuel] steps do not reach the
    end of the list. *)
Fixpoint for_each_queued (fuel : nat) (outcomes : nat -> sendto_outcome)
    (i : nat) (self : TelloProtocol) {struct fuel}
  : option (TelloProtocol * list effect) :=
  match command_queue self !! i with
  | None => Some (self, [])
  | Some cmd =>
      match fuel with
      | O => None
      | S fuel' =>
          let '(self1, es1) := send_to_tello (outcomes i) cmd self in
          match for_each_queued fuel' outcomes (S i) self1 with
          | Some (self2, es2) => Some (self2, es1 ++ es2)
          | None => None
          end
      end
  end.

Definition clear_queue : method :=
  fun self =>
    ({| transport := transport self; connected := connected self;
        last_response_time := last_response_time self;
        tello_addr := tello_addr self;
        command_queue := [];
        reconnect_task := reconnect_task self |}, []).

Definition _process_command_queue (fuel : nat)
    (outcomes : nat -> sendto_outcome) (self : TelloProtocol)
  : option (TelloProtocol * list effect) :=
  match command_queue self with
  | [] => Some (self, [])
  | _ :: _ =>
      match for_each_queued fuel outcomes 0 self with
      | Some (self1, es1) =>
          Some (fst (clear_queue self1),
                Log INFO "Processing queued commands" :: es1)
      | None => None
      end
  end.

(** [BaseProtocol.connection_made] *)
Definition base_connection_made (t : Asyncio.transport) : method :=
  fun self =>
    ({| transport := Some t; connected := true;
        last_response_time := last_response_time self;
        tello_addr := tello_addr self;
        command_queue := command_queue self;
        reconnect_task := reconnect_task self |}, []).

(** [connection_made(transport)]; [outcomes] are the transport's answers
    during the flush of the queue and [probe] its answer to the final
    ["command"]. [None]: the flush does not end within [fuel] steps. *)
Definition connection_made (t : Asyncio.transport) (fuel : nat)
    (outcomes : nat -> sendto_outcome) (probe : sendto_outcome)
    (self : TelloProtocol) : option (TelloProtocol * list effect) :=
  let self1 := fst (base_connection_made t self) in
  match _process_command_queue fuel outcomes self1 with
  | Some (self2, es2) =>
      let '(self3, es3) := send_to_tello probe (Text "command") self2 in
      Some (self3,
            Log INFO "UDP socket ready, sending to Tello" :: es2 ++ es3)
  | None => None
  end.

Definition set_last_response_time (now : Q) : method :=
  fun self =>
    ({| transport := transport self; connected := connected self;
        last_response_time := now;
        tello_addr := tello_addr self;
        command_queue := command_queue self;
        reconnect_task := reconnect_task self |}, []).

(** [decoded] is the outcome of [data.decode('utf-8')], [None] when it
    raises [UnicodeDecodeError]; [now] is the loop's clock. *)
Definition datagram_received (g : globals) (decoded : option string)
    (now : Q) : method :=
  match decoded with
  | Some text =>
      and_then (fun s => (s, [Log DEBUG "UDP message received"]))
        (and_then (set_last_response_time now)
           (fun s =>
              (s, if broadcast_to_websockets g
                  then [SpawnBroadcast (CommandEnvelope text)]
                  else [])))
  | None =>
      and_then (fun s => (s, [Log DEBUG "Binary data received"]))
        (set_last_response_time now)
  end.

Definition max_retries : nat := 10.

(** The [while] test of [_reconnect] and what follows it up to the next
    suspension: either one more attempt (log, raise the module-level
    flag, sleep) or the exit of the loop and the final report. *)
Definition loop_test (retries : nat) (retry_delay : Q) (g : globals)
    (self : TelloProtocol) : globals * TelloProtocol * list effect :=
  if negb (connected self) && Nat.ltb retries max_retries then
    ({| broadcast_to_websockets := broadcast_to_websockets g;
        need_reconnect := true |},
     fst (set_reconnect_task (Running (Sleeping retries retry_delay)) self),
     [Log INFO "Reconnection attempt"; Sleep retry_delay])
  else
    (g, fst (set_reconnect_task Done self),
     if negb (connected self)
     then [Log ERROR "Failed to reconnect to Tello after maximum retries"]
     else []).

(** One resumption of [_reconnect] by the loop. *)
Definition _reconnect (g : globals) (self : TelloProtocol)
  : globals * TelloProtocol * list effect :=
  match reconnect_task self with
  | Running AtStart =>
      let '(g', self', es) := loop_test 0 5%Q g self in
      (g', self', Log INFO "Starting reconnection attempts to Tello" :: es)
  | Running (Sleeping retries retry_delay) =>
      loop_test (S retries) (Qmin 30 (retry_delay * (3 # 2))) g self
  | NoTask | Done => (g, self, [])
  end.

(** A reconnection episode seen from the task: the loop resumes
    [_reconnect] [n] times; before the [k]-th resumption the rest of
    the program has left [self.connected] at [others k]. *)
Fixpoint episode (n : nat) (k : nat) (others : nat -> bool) (g : globals)
    (self : TelloProtocol) : globals * TelloProtocol * list effect :=
  match n with
  | O => (g, self, [])
  | S n' =>
      let '(g1, self1, es1) :=
        _reconnect g (fst (set_connected (others k) self)) in
      let '(g2, self2, es2) := episode n' (S k) others g1 self1 in
      (g2, self2, es1 ++ es2)
  end.

End CommandProtocol.

(* ===================================================================== *)
(** * [websocket/__init__.py] *)
(* ===================================================================== *)

Module WebSocket.
Import Py Json Asyncio.

(** A client is known by its connection handle only. *)
Definition client : Type := nat.

(** [connected_websockets: Set = set()] *)
Definition connected_websockets : gset client := ∅.

(** [connected_websockets.add(websocket)] *)
Definition add (websocket : client) (s : gset client) : gset client :=
  {[websocket]} ∪ s.

(** [connected_websockets.remove(websocket)]: [KeyError] when absent. *)
Definition remove (websocket : client) (s : gset client)
  : result (gset client) :=
  if decide (websocket ∈ s) then Ok (s ∖ {[websocket]}) else Raise KeyError.

(** The body of [async for message in websocket], for a handler acting
    on a state [S]. *)
Definition on_message {S M : Type}
    (tello_command_handler : option (M -> S -> S * list effect))
    (m : M) (st : S) : S * list effect :=
  match tello_command_handler with
  | Some handler =>
      let '(st', es) := handler m st in
      (st', Log DEBUG "WebSocket message received" :: es)
  | None =>
      (st, [Log DEBUG "WebSocket message received";
            Log WARNING "Tello command handler not ready, message discarded"])
  end.

(** How awaiting [ws.send(message)] ends for one client. *)
Inductive send_outcome : Type :=
| Sent
| Fails (e : exn)
| Hangs.

(** How awaiting a coroutine ends for the awaiting task. *)
Inductive awaited (A : Type) : Type :=
| Returned (a : A)
| Raised (e : exn)
| Pending.
Arguments Returned {A} a.
Arguments Raised {A} e.
Arguments Pending {A}.

(** A coroutine object, as the call of an [async def] returns it: nothing
    of it has run. Once the loop drives it, it has the effects
    [co_effects] and ends as [co_result] says. *)
Record coroutine (E A : Type) : Type := {
  co_effects : list E;
  co_result : awaited A
}.
Arguments co_effects {E A} c.
Arguments co_result {E A} c.

(** [ws.send(message)]: the frame reaches the client when the send
    completes. *)
Definition send_coroutine {M : Type} (send : client -> send_outcome)
    (message : M) (ws : client) : coroutine (client * M) unit :=
  match send ws with
  | Sent => {| co_effects := [(ws, message)]; co_result := Returned tt |}
  | Fails e => {| co_effects := []; co_result := Raised e |}
  | Hangs => {| co_effects := []; co_result := Pending |}
  end.

Definition is_pending {A : Type} (r : awaited A) : bool :=
  match r with Pending => true | _ => false end.

(** What a finished awaitable contributes to the result list of
    [gather]: its value, or its exception as a value. *)
Definition settled {A : Type} (r : awaited A) : option (result A) :=
  match r with
  | Returned a => Some (Ok a)
  | Raised e => Some (Raise e)
  | Pending => None
  end.

(** [await asyncio.gather] over the awaitables [aws], called with
    [return_exceptions=True]: every awaitable
    is wrapped in a task of its own and the loop drives each of them; an
    exception is an element of the result list; the gather completes
    when all of them have. The pair is what the tasks did and how the
    [await] ends. *)
Definition gather_return_exceptions {E A : Type} (aws : list (coroutine E A))
  : list E * awaited (list (result A)) :=
  (flat_map co_effects aws,
   if existsb is_pending (map co_result aws) then Pending
   else Returned (omap settled (map co_result aws))).

(** [broadcast_to_websockets(message)], for the registry [s] and the
    behaviour [send] of the clients' connections: how the coroutine
    ends, and the frames delivered. *)
Definition broadcast_to_websockets {M : Type} (s : gset client)
    (send : client -> send_outcome) (message : M)
  : awaited unit * list (client * M) :=
  if decide (s = ∅) then (Returned tt, [])
  else
    let tasks := map (send_coroutine send message) (elements s) in
    let '(frames, ended) := gather_return_exceptions tasks in
    (match ended with
     | Returned _ => Returned tt
     | Raised e => Raised e
     | Pending => Pending
     end,
     frames).

End WebSocket.

(* ===================================================================== *)
(** * [tello_bridge/__init__.py] *)
(* ===================================================================== *)

Module Bridge.
Import Py Json Asyncio.

(** The module-level names of [tello_bridge/__init__.py] that the
    methods declare [global]. *)
Record globals : Type := {
  need_reconnect : bool
}.

(** [from .protocols.command_protocol import TelloProtocol, need_reconnect]:
    the name is bound, in this module, to the value the other module's
    variable has when the import runs. *)
Definition import_from (cp : CommandProtocol.globals) : globals :=
  {| need_reconnect := CommandProtocol.need_reconnect cp |}.

(** Where [_main_loop] is suspended. *)
Inductive main_pc : Type :=
| LoopTop       (* in [asyncio.sleep(1)], or not started *)
| Settling      (* in [asyncio.sleep(2)] after a rebuild *)
| Stopped.      (* left through the [except] clause *)

(** The bridge object, the protocol objects it or the WebSocket handler
    refer to, and the two modules' variables. *)
Record world : Type := {
  cp_globals : CommandProtocol.globals;
  br_globals : globals;
  objects : list CommandProtocol.TelloProtocol;
  tello_protocol : option nat;                 (* [self.tello_protocol] *)
  cmd_transport : option Asyncio.transport;    (* [self.cmd_transport] *)
  tello_command_handler : option nat;          (* bound [send_to_tello] *)
  socket_addr : address;
  main : main_pc
}.

Definition set_cp_globals (g : CommandProtocol.globals) (w : world) : world :=
  {| cp_globals := g; br_globals := br_globals w; objects := objects w;
     tello_protocol := tello_protocol w; cmd_transport := cmd_transport w;
     tello_command_handler := tello_command_handler w;
     socket_addr := socket_addr w; main := main w |}.

Definition set_br_need_reconnect (b : bool) (w : world) : world :=
  {| cp_globals := cp_globals w; br_globals := {| need_reconnect := b |};
     objects := objects w;
     tello_protocol := tello_protocol w; cmd_transport := cmd_transport w;
     tello_command_handler := tello_command_handler w;
     socket_addr := socket_addr w; main := main w |}.

Definition set_objects (os : list CommandProtocol.TelloProtocol) (w : world)
  : world :=
  {| cp_globals := cp_globals w; br_globals := br_globals w; objects := os;
     tello_protocol := tello_protocol w; cmd_transport := cmd_transport w;
     tello_command_handler := tello_command_handler w;
     socket_addr := socket_addr w; main := main w |}.

Definition set_endpoint (t : Asyncio.transport) (ref : nat) (w : world)
  : world :=
  {| cp_globals := cp_globals w; br_globals := br_globals w;
     objects := objects w;
     tello_protocol := Some ref; cmd_transport := Some t;
     tello_command_handler := tello_command_handler w;
     socket_addr := socket_addr w; main := main w |}.

Definition set_handler (h : option nat) (w : world) : world :=
  {| cp_globals := cp_globals w; br_globals := br_globals w;
     objects := objects w;
     tello_protocol := tello_protocol w; cmd_transport := cmd_transport w;
     tello_command_handler := h;
     socket_addr := socket_addr w; main := main w |}.

Definition set_main (pc : main_pc) (w : world) : world :=
  {| cp_globals := cp_globals w; br_globals := br_globals w;
     objects := objects w;
     tello_protocol := tello_protocol w; cmd_transport := cmd_transport w;
     tello_command_handler := tello_command_handler w;
     socket_addr := socket_addr w; main := pc |}.

(** A method call on the protocol object behind a reference. *)
Definition call (ref : nat) (m : CommandProtocol.method) (w : world)
  : world * list effect :=
  match objects w !! ref with
  | Some self =>
      let '(self', es) := m self in
      (set_objects (<[ref := self']> (objects w)) w, es)
  | None => (w, [])
  end.

(** The state after both modules are imported and [TelloBridge(...)] is
    constructed. *)
Definition imported (addr : address) : world :=
  {| cp_globals := CommandProtocol.module_init;
     br_globals := import_from CommandProtocol.module_init;
     objects := [];
     tello_protocol := None; cmd_transport := None;
     tello_command_handler := None;
     socket_addr := addr; main := LoopTop |}.

(** [_create_udp_socket]: the loop builds the protocol object, opens the
    endpoint [t] and calls [connection_made] on the new object; [probe]
    is how the new transport takes the first ["command"]. The queue of an
    object just built is empty, so the flush of [connection_made] returns
    at its first test and needs no fuel. *)
Definition _create_udp_socket (t : Asyncio.transport)
    (probe : sendto_outcome) (w : world) : world * list effect :=
  let '(g, self) := CommandProtocol.init (socket_addr w) true (cp_globals w) in
  let ref := length (objects w) in
  let '(self', es) :=
    default (self, [])
      (CommandProtocol.connection_made t 0 (fun _ => probe) probe self) in
  (set_endpoint t ref
     (set_objects (objects w ++ [self']) (set_cp_globals g w)),
   CreateEndpoint t :: es).

(** [start], up to the entry into [_main_loop], as far as the command
    channel goes: its socket is set up and the WebSocket server is given
    the bound method [self.tello_protocol.send_to_tello]. *)
Definition start (t : Asyncio.transport) (probe : sendto_outcome) (w : world)
  : world * list effect :=
  let '(w1, es) := _create_udp_socket t probe w in
  (set_handler (tello_protocol w1) w1,
   Log INFO "Starting Tello WebSocket Bridge" :: es).

Definition Qgt_bool (a b : Q) : bool := negb (Qle_bool a b).

Definition check_interval : Q := 10%Q.

(** The first half of a [_health_monitor] iteration: the silence check;
    [outcome] is how the transport takes the probe, if one is sent. *)
Definition health_check (now : Q) (outcome : sendto_outcome) (w : world)
  : world * list effect :=
  match tello_protocol w with
  | None => (w, [])
  | Some ref =>
      match objects w !! ref with
      | None => (w, [])
      | Some self =>
          if CommandProtocol.connected self then
            let current_time := now in
            let time_since_last_response :=
              (current_time - CommandProtocol.last_response_time self)%Q in
            if Qgt_bool (CommandProtocol.last_response_time self) 0
               && Qgt_bool time_since_last_response 15
            then
              let '(w', es) :=
                call ref (CommandProtocol.send_to_tello outcome
                            (CommandProtocol.Text "command")) w in
              (w', Log WARNING "No response from Tello, checking connection..."
                     :: es)
            else (w, [])
          else (w, [])
      end
  end.

(** The second half: the module's own [need_reconnect]. *)
Definition health_flag (w : world) : world * list effect :=
  if need_reconnect (br_globals w) then
    (set_br_need_reconnect false w, [Log INFO "Reconnection request detected"])
  else (w, []).

(** One iteration of [_health_monitor]: resumed from
    [asyncio.sleep(check_interval)] at instant [now], it runs the body
    and suspends on the next sleep. *)
Definition _health_monitor (now : Q) (outcome : sendto_outcome) (w : world)
  : world * list effect :=
  let '(w1, es1) := health_check now outcome w in
  let '(w2, es2) := health_flag w1 in
  (w2, es1 ++ es2 ++ [Sleep check_interval]).

(** One resumption of [_main_loop]. [endpoint] is how opening a new
    datagram endpoint would end at this point, [outcome] how the
    transport takes the probe this resumption sends, if any. *)
Definition _main_loop (endpoint : result Asyncio.transport)
    (outcome : sendto_outcome) (w : world) : world * list effect :=
  match main w with
  | Stopped => (w, [])
  | LoopTop =>
      if need_reconnect (br_globals w) then
        let closing :=
          match cmd_transport w with
          | Some t => [Close t]
          | None => []
          end in
        match endpoint with
        | Ok t =>
            let '(w1, es) := _create_udp_socket t outcome w in
            (set_main Settling (set_br_need_reconnect false w1),
             Log INFO "Recreating UDP socket connection"
               :: closing ++ es ++ [Sleep 2])
        | Raise _ =>
            (set_main Stopped w,
             Log INFO "Recreating UDP socket connection"
               :: closing ++ [Log ERROR "Error in main loop"])
        end
      else (w, [Sleep 1])
  | Settling =>
      match tello_protocol w with
      | Some ref =>
          let '(w1, es) :=
            call ref (CommandProtocol.send_to_tello outcome
                        (CommandProtocol.Text "command")) w in
          (set_main LoopTop w1, es ++ [Sleep 1])
      | None => (set_main Stopped w, [Log ERROR "Error in main loop"])
      end
  end.

(** What the event loop can run next; an event that may reach
    [transport.sendto] comes with the transport's answer. *)
Inductive event : Type :=
| Datagram (ref : nat) (decoded : option string) (now : Q)
| ErrorReceived (ref : nat)
| ConnectionLost (ref : nat)
| ResumeReconnect (ref : nat)
| HealthTick (now : Q) (outcome : sendto_outcome)
| MainLoop (endpoint : result Asyncio.transport) (outcome : sendto_outcome)
| ClientMessage (m : CommandProtocol.message) (outcome : sendto_outcome).

Definition step (ev : event) (w : world) : world * list effect :=
  match ev with
  | Datagram ref decoded now =>
      call ref (CommandProtocol.datagram_received (cp_globals w) decoded now) w
  | ErrorReceived ref => call ref CommandProtocol.error_received w
  | ConnectionLost ref => call ref CommandProtocol.connection_lost w
  | ResumeReconnect ref =>
      match objects w !! ref with
      | Some self =>
          let '(g, self', es) := CommandProtocol._reconnect (cp_globals w) self in
          (set_objects (<[ref := self']> (objects w)) (set_cp_globals g w), es)
      | None => (w, [])
      end
  | HealthTick now outcome => _health_monitor now outcome w
  | MainLoop endpoint outcome => _main_loop endpoint outcome w
  | ClientMessage m outcome =>
      WebSocket.on_message
        (option_map
           (fun ref m => call ref (CommandProtocol.send_to_tello outcome m))
           (tello_command_handler w))
        m w
  end.

Fixpoint run (evs : list event) (w : world) : world * list effect :=
  match evs with
  | [] => (w, [])
  | ev :: rest =>
      let '(w1, es1) := step ev w in
      let '(w2, es2) := run rest w1 in
      (w2, es1 ++ es2)
  end.

End Bridge.

(* ===================================================================== *)
(** * Notions used to state the properties *)
(* ===================================================================== *)

Module Spec.
Import Py Json StateProtocol.

(** [k] occurs in [s]. *)
Definition substring_of (k s : string) : Prop :=
  exists pre post, s = pre +:+ k +:+ post.

(** The segments between semicolons of the trimmed line. *)
Definition segments (line : string) : list string :=
  split ";" (strip line).

(** The segment [seg] reads [key:value], cut at its first colon. *)
Definition is_field (seg key value : string) : Prop :=
  seg = key +:+ String ":" value /\ contains ":" key = false.

(** [key] is the key of some segment of the line. *)
Definition key_present (line key : string) : Prop :=
  exists seg value, In seg (segments line) /\ is_field seg key value.

(** [value] is what the last segment with key [key] carries. *)
Definition last_field (line key value : string) : Prop :=
  exists pre seg post,
    segments line = pre ++ seg :: post
    /\ is_field seg key value
    /\ forall seg' value', In seg' post -> ~ is_field seg' key value'.

(** The key and value of a segment, when it has a colon. *)
Definition field_of (seg : string) : list (string * string) :=
  match cut_at (fun c => Ascii.eqb c ":") seg with
  | Some (k, v) => [(k, v)]
  | None => []
  end.

Definition fields_of (segs : list string) : list (string * string) :=
  flat_map field_of segs.

(** What a field holds after conversion. *)
Definition typed_value (key value : string) : Json.value :=
  match dict_get key state_types with
  | Some Tint =>
      match int value with Ok z => VInt z | Raise _ => VStr value end
  | Some Tfloat =>
      match float value with Ok f => VFloat f | Raise _ => VStr value end
  | None => VStr value
  end.

Definition store (d : dict Json.value) (kv : string * string)
  : dict Json.value :=
  dict_set (fst kv) (typed_value (fst kv) (snd kv)) d.

(** The entry the envelope gives to one parsed field. *)
Definition entry_of (key : string) (v : Json.value) : field_entry :=
  {| entry_value := v;
     entry_description :=
       dict_get_default key "Unknown parameter" state_descriptions |}.

(** The delay before attempt [n] of an episode, counted from 0: it
    starts at 5 and each next one is [min(30, previous * 1.5)]. *)
Fixpoint delay_before (n : nat) : Q :=
  match n with
  | O => 5%Q
  | S n' => Qmin 30 (delay_before n' * (3 # 2))
  end.

(** The supervising loop is idle and its module's flag is down. *)
Definition idle (w : Bridge.world) : Prop :=
  Bridge.need_reconnect (Bridge.br_globals w) = false
  /\ Bridge.main w = Bridge.LoopTop.

(** A transport error on the first protocol object, the first
    resumption of its reconnect task, then the supervising loop and the
    health monitor taking their turns. *)
Definition lost_signal_schedule : list Bridge.event :=
  [Bridge.ErrorReceived 0; Bridge.ResumeReconnect 0;
   Bridge.MainLoop (Py.Ok 1%nat) Asyncio.Taken;
   Bridge.HealthTick 30 Asyncio.Taken;
   Bridge.MainLoop (Py.Ok 1%nat) Asyncio.Taken].

(** The report that closes an exhausted episode. *)
Definition failed : Asyncio.effect :=
  Asyncio.Log Asyncio.ERROR
    "Failed to reconnect to Tello after maximum retries".

(** The world once [start] has set up the sockets on transport 0, which
    took the first probe, and the protocol object of that world once its
    transport has reported an error. *)
Definition started : Bridge.world :=
  fst (Bridge.start 0%nat Asyncio.Taken
         (Bridge.imported ("192.168.10.1", 8889))).

Definition lost_protocol : CommandProtocol.TelloProtocol :=
  {| CommandProtocol.transport := Some 0%nat;
     CommandProtocol.connected := false;
     CommandProtocol.last_response_time := 0;
     CommandProtocol.tello_addr := ("192.168.10.1", 8889);
     CommandProtocol.command_queue := [];
     CommandProtocol.reconnect_task :=
       CommandProtocol.Running CommandProtocol.AtStart |}.

(** The started bridge after one datagram from the device at instant 3,
    and its protocol object. *)
Definition heard : Bridge.world :=
  fst (Bridge.step (Bridge.Datagram 0 (Some "ok") 3) started).

Definition heard_protocol : CommandProtocol.TelloProtocol :=
  {| CommandProtocol.transport := Some 0%nat;
     CommandProtocol.connected := true;
     CommandProtocol.last_response_time := 3;
     CommandProtocol.tello_addr := ("192.168.10.1", 8889);
     CommandProtocol.command_queue := [];
     CommandProtocol.reconnect_task := CommandProtocol.NoTask |}.

(** A numeral of one digit more than [int] converts, and a line that
    gives it to an integer field. *)
Fixpoint ones (n : nat) : string :=
  match n with
  | O => ""
  | S n' => String "1" (ones n')
  end.

Definition long_numeral : string := ones (S int_max_str_digits).

Definition long_line : string := "mid:" +:+ long_numeral.

(** Sample objects: the default device address, a protocol object as
    its constructor leaves it, and one flagged connected although it
    has no transport. *)
Definition device : Asyncio.address := ("192.168.10.1", 8889).


Definition stalled_protocol : CommandProtocol.TelloProtocol :=
  {| CommandProtocol.transport := None;
     CommandProtocol.connected := true;
     CommandProtocol.last_response_time := 0;
     CommandProtocol.tello_addr := device;
     CommandProtocol.command_queue := [];
     CommandProtocol.reconnect_task := CommandProtocol.NoTask |}.

End Spec.

(* ===================================================================== *)
(** * Sessions of WebSocket clients *)
(* ===================================================================== *)

Module Session.
Import Py Asyncio.

(** What the sessions of [handle_websocket] do to the registry: the
    [add] on entry and the [remove] of the [finally] clause. *)
Inductive registry_op : Type :=
| Enter (websocket : WebSocket.client)
| Leave (websocket : WebSocket.client).

Definition handle_of (op : registry_op) : WebSocket.client :=
  match op with
  | Enter ws => ws
  | Leave ws => ws
  end.

Definition apply_op (op : registry_op) (s : gset WebSocket.client)
  : result (gset WebSocket.client) :=
  match op with
  | Enter ws => Ok (WebSocket.add ws s)
  | Leave ws => WebSocket.remove ws s
  end.

(** The registry after a sequence of entries and exits; the first
    [KeyError] ends the run. *)
Fixpoint apply_ops (ops : list registry_op) (s : gset WebSocket.client)
  : result (gset WebSocket.client) :=
  match ops with
  | [] => Ok s
  | op :: rest =>
      match apply_op op s with
      | Ok s' => apply_ops rest s'
      | Raise e => Raise e
      end
  end.

(** The [async for] loop of one session: every message goes through
    [on_message], in the order received. *)
Fixpoint forward {S M : Type}
    (tello_command_handler : option (M -> S -> S * list effect))
    (messages : list M) (st : S) : S * list effect :=
  match messages with
  | [] => (st, [])
  | m :: rest =>
      let '(st1, es1) := WebSocket.on_message tello_command_handler m st in
      let '(st2, es2) := forward tello_command_handler rest st1 in
      (st2, es1 ++ es2)
  end.

End Session.

(* ===================================================================== *)
(** * [main.py] and the life cycle of [TelloBridge] *)
(* ===================================================================== *)

Module Lifecycle.
Import Py Asyncio.

Definition server : Type := nat.

(** What [start] and [stop] do besides the effects of the protocols. *)
Inductive action : Type :=
| Do (e : effect)
| CreateHealthTask
| CancelHealthTask
| Serve (srv : server) (handler : option nat)
| ServerClose (srv : server)
| ServerWaitClosed (srv : server).

(** The attributes of [TelloBridge] that [stop] looks at; the command
    transport and the protocol object live in the [world]. *)
Record TelloBridge : Type := {
  world : Bridge.world;
  state_transport : option Asyncio.transport;
  websocket_server : option server;
  health_task : bool
}.

Definition set_world (w : Bridge.world) (b : TelloBridge) : TelloBridge :=
  {| world := w; state_transport := state_transport b;
     websocket_server := websocket_server b; health_task := health_task b |}.

Definition set_state_transport (t : Asyncio.transport) (b : TelloBridge)
  : TelloBridge :=
  {| world := world b; state_transport := Some t;
     websocket_server := websocket_server b; health_task := health_task b |}.

Definition set_websocket_server (srv : server) (b : TelloBridge)
  : TelloBridge :=
  {| world := world b; state_transport := state_transport b;
     websocket_server := Some srv; health_task := health_task b |}.

Definition set_health_task (b : TelloBridge) : TelloBridge :=
  {| world := world b; state_transport := state_transport b;
     websocket_server := websocket_server b; health_task := true |}.

(** [TelloBridge(...)] *)
Definition init (addr : address) : TelloBridge :=
  {| world := Bridge.imported addr; state_transport := None;
     websocket_server := None; health_task := false |}.

(** How the three awaits of [start] go: what the event loop runs while
    each is pending, and how it ends: the command endpoint (and how its
    transport takes the first probe), the state endpoint on port 8890,
    the WebSocket server. *)
Record environment : Type := {
  during_cmd : list Bridge.event;
  cmd_endpoint : result Asyncio.transport;
  cmd_probe : sendto_outcome;
  during_state : list Bridge.event;
  state_endpoint : result Asyncio.transport;
  during_serve : list Bridge.event;
  serve : result server
}.

Definition banner : list action :=
  [Do (Log INFO "Starting Tello WebSocket Bridge");
   Do (Log INFO "Tello address");
   Do (Log INFO "Local UDP port");
   Do (Log INFO "WebSocket")].

(** The event loop running [evs] while the bridge is suspended. *)
Definition running (evs : list Bridge.event) (b : TelloBridge)
  : TelloBridge * list action :=
  let '(w, es) := Bridge.run evs (world b) in
  (set_world w b, map Do es).

(** [start], up to the entry into [_main_loop]: the bridge, what was
    done, and the exception that ended it early, if any. The handler
    passed to [start_websocket_server] is evaluated before the server
    is awaited; of the state endpoint's [connection_made] the bridge
    sees the log line only. *)
Definition start (env : environment) (b : TelloBridge)
  : TelloBridge * list action * option exn :=
  let acts0 := banner ++ [CreateHealthTask] in
  let '(b1, acts1) := running (during_cmd env) (set_health_task b) in
  match cmd_endpoint env with
  | Raise e => (b1, acts0 ++ acts1, Some e)
  | Ok t =>
      let '(w2, es2) :=
        Bridge._create_udp_socket t (cmd_probe env) (world b1) in
      let '(b3, acts3) := running (during_state env) (set_world w2 b1) in
      let acts := ((acts0 ++ acts1) ++ map Do es2) ++ acts3 in
      match state_endpoint env with
      | Raise e => (b3, acts, Some e)
      | Ok t' =>
          let handler := Bridge.tello_protocol (world b3) in
          let '(b4, acts4) :=
            running (during_serve env) (set_state_transport t' b3) in
          let acts' :=
            (acts ++ [Do (CreateEndpoint t');
                      Do (Log INFO "UDP state server ready on port 8890")])
              ++ acts4 in
          match serve env with
          | Raise e => (b4, acts', Some e)
          | Ok srv =>
              (set_websocket_server srv
                 (set_world (Bridge.set_handler handler (world b4)) b4),
               acts' ++ [Serve srv handler;
                         Do (Log INFO "WebSocket server started")],
               None)
          end
      end
  end.

(** [stop] *)
Definition stop (b : TelloBridge) : list action :=
  [Do (Log INFO "Stopping Tello Bridge...")]
  ++ (if health_task b then [CancelHealthTask] else [])
  ++ match websocket_server b with
     | Some srv => [ServerClose srv; ServerWaitClosed srv]
     | None => []
     end
  ++ match Bridge.cmd_transport (world b) with
     | Some t => [Do (Close t)]
     | None => []
     end
  ++ match state_transport b with
     | Some t => [Do (Close t)]
     | None => []
     end
  ++ [Do (Log INFO "Bridge stopped")].

(** [main]: [start] fails during start-up, or [_main_loop] is entered
    and the event loop runs [evs] until the task is cancelled; the
    [except] clauses log, the [finally] clause runs [stop]. *)
Definition main (addr : address) (env : environment)
    (evs : list Bridge.event) : list action :=
  let '(b1, acts1, raised) := start env (init addr) in
  match raised with
  | Some e => acts1 ++ [Do (Log ERROR "Error in main function")] ++ stop b1
  | None =>
      let '(b2, acts2) := running evs b1 in
      (acts1 ++ acts2)
        ++ [Do (Log INFO "Main loop cancelled, shutting down")] ++ stop b2
  end.

(** The transports opened, the transports closed, the servers started
    and the servers closed, in order. *)
Definition opened (acts : list action) : list Asyncio.transport :=
  flat_map (fun a => match a with Do (CreateEndpoint t) => [t] | _ => [] end)
           acts.

Definition closed (acts : list action) : list Asyncio.transport :=
  flat_map (fun a => match a with Do (Close t) => [t] | _ => [] end) acts.

Definition served (acts : list action) : list server :=
  flat_map (fun a => match a with Serve srv _ => [srv] | _ => [] end) acts.

Definition servers_closed (acts : list action) : list server :=
  flat_map (fun a => match a with ServerClose srv => [srv] | _ => [] end) acts.

Definition cancellations (acts : list action) : nat :=
  length (List.filter (fun a => match a with
                                | CancelHealthTask => true
                                | _ => false
                                end) acts).

(** Everything the actions so far have acquired: nothing is released
    yet, the bridge holds exactly what was opened, the health task
    exists and the supervising loop is idle. *)
Definition holding (b : TelloBridge) (acts : list action) : Prop :=
  Spec.idle (world b)
  /\ health_task b = true
  /\ opened acts
     = option_list (Bridge.cmd_transport (world b))
       ++ option_list (state_transport b)
  /\ served acts = option_list (websocket_server b)
  /\ closed acts = []
  /\ servers_closed acts = []
  /\ cancellations acts = 0%nat.

End Lifecycle.

(* ===================================================================== *)
(** * Further notions *)
(* ===================================================================== *)

Module Notions.
Import Py Json StateProtocol.

(** The keys of a list in the order of their first occurrence. *)
Definition first_occurrences (ks : list string) : list string :=
  fold_left (fun acc k => if existsb (String.eqb k) acc then acc
                          else acc ++ [k]) ks [].

(** A field written the way the device writes it. *)
Definition render (kv : string * string) : string :=
  fst kv +:+ String ":" (snd kv).

(** A key and a value that can be written as one field of a line. *)
Definition plain (kv : string * string) : Prop :=
  contains ":" (fst kv) = false /\ contains ";" (fst kv) = false
  /\ contains ";" (snd kv) = false.

Definition typed (kv : string * string) : string * Json.value :=
  (fst kv, Spec.typed_value (fst kv) (snd kv)).

(** The messages the clients sent during a run, in order. *)
Definition client_messages (evs : list Bridge.event)
  : list CommandProtocol.message :=
  flat_map (fun ev => match ev with
                      | Bridge.ClientMessage m _ => [m]
                      | _ => []
                      end) evs.

(** Calls of [send_to_tello] made one after the other, each message
    with the answer of the transport to the [sendto] it may lead to. *)
Fixpoint send_each
    (calls : list (CommandProtocol.message * Asyncio.sendto_outcome))
  : CommandProtocol.method :=
  match calls with
  | [] => fun self => (self, [])
  | (m, outcome) :: rest =>
      CommandProtocol.and_then (CommandProtocol.send_to_tello outcome m)
                               (send_each rest)
  end.

(** What one step of the flush does while the transport takes the
    datagrams. *)
Definition sent (t : Asyncio.transport) (addr : Asyncio.address)
    (m : CommandProtocol.message) : list Asyncio.effect :=
  [Asyncio.Log Asyncio.DEBUG "Sending to Tello";
   CommandProtocol.sendto_of t addr m].

(** The record [handle_websocket] logs for every message it receives. *)
Definition arrival_record : Asyncio.effect :=
  Asyncio.Log Asyncio.DEBUG "WebSocket message received".

Definition is_arrival_record (e : Asyncio.effect) : bool :=
  match e with
  | Asyncio.Log Asyncio.DEBUG text =>
      String.eqb text "WebSocket message received"
  | _ => false
  end.

(** The handler a session holds when it was given the bound method
    [send_to_tello] of the object behind [ref]; a message comes with
    the transport's answer to the [sendto] it may lead to. *)
Definition bound_handler (ref : nat)
  : option (CommandProtocol.message * Asyncio.sendto_outcome ->
            Bridge.world -> Bridge.world * list Asyncio.effect) :=
  Some (fun arrival =>
          Bridge.call ref
            (CommandProtocol.send_to_tello (snd arrival) (fst arrival))).

(** A protocol object just built, once [BaseProtocol.connection_made]
    has run on it. *)
Definition new_object (t : Asyncio.transport) (addr : Asyncio.address)
  : CommandProtocol.TelloProtocol :=
  {| CommandProtocol.transport := Some t;
     CommandProtocol.connected := true;
     CommandProtocol.last_response_time := 0;
     CommandProtocol.tello_addr := addr;
     CommandProtocol.command_queue := [];
     CommandProtocol.reconnect_task := CommandProtocol.NoTask |}.


(** The transport callbacks that report a loss. *)
Inductive loss : Type := Lost | Errored.

Definition on_loss (l : loss) : CommandProtocol.method :=
  match l with
  | Lost => CommandProtocol.connection_lost
  | Errored => CommandProtocol.error_received
  end.

Fixpoint on_losses (ls : list loss) : CommandProtocol.method :=
  match ls with
  | [] => fun self => (self, [])
  | l :: rest => CommandProtocol.and_then (on_loss l) (on_losses rest)
  end.

Definition is_spawn_reconnect (e : Asyncio.effect) : bool :=
  match e with Asyncio.SpawnReconnect => true | _ => false end.

Definition is_spawn_broadcast (e : Asyncio.effect) : bool :=
  match e with Asyncio.SpawnBroadcast _ => true | _ => false end.

(** The bridge with its only protocol object disconnected and holding
    [queue], the supervising loop idle, and the bridge and the WebSocket
    handler both referring to that object. *)
Definition stranded (w : Bridge.world) (queue : list CommandProtocol.message)
  : Prop :=
  Spec.idle w
  /\ Bridge.tello_protocol w = Some 0%nat
  /\ Bridge.tello_command_handler w = Some 0%nat
  /\ exists self,
       Bridge.objects w = [self]
       /\ CommandProtocol.connected self = false
       /\ CommandProtocol.command_queue self = queue.

(** A method that keeps a disconnected object disconnected, turns the
    queue [q] into [q'] and transmits nothing. *)
Definition quiet (m : CommandProtocol.method)
    (q q' : list CommandProtocol.message) : Prop :=
  forall self,
    CommandProtocol.connected self = false ->
    CommandProtocol.command_queue self = q ->
    CommandProtocol.connected (fst (m self)) = false
    /\ CommandProtocol.command_queue (fst (m self)) = q'
    /\ List.filter Asyncio.is_sendto (snd (m self)) = [].

(** The started bridge with the flag of its own module raised by hand. *)
Definition flagged : Bridge.world :=
  Bridge.set_br_need_reconnect true Spec.started.

End Notions.

(* ===================================================================== *)
(** * Strings *)
(* ===================================================================== *)

#[local] Arguments String.append !_ _ / : simpl nomatch.
#[local] Arguments Py.dict_keys : simpl never.

Section Strings.
Import Py Spec.

Lemma str_app_cons (c : ascii) (a b : string) :
  String c a +:+ b = String c (a +:+ b).
Proof. reflexivity. Qed.

Lemma str_app_nil_l (s : string) : "" +:+ s = s.
Proof. reflexivity. Qed.

Lemma str_app_nil_r (s : string) : s +:+ "" = s.
Proof.
  induction s as [|c s IH]; [done|]. by rewrite str_app_cons, IH.
Qed.

Lemma str_app_assoc (a b c : string) : (a +:+ b) +:+ c = a +:+ b +:+ c.
Proof.
  induction a as [|x a IH]; [done|]. by rewrite !str_app_cons, IH.
Qed.

Lemma is_empty_true (s : string) : is_empty s = true <-> s = "".
Proof. destruct s; cbn; split; intros; congruence. Qed.

Lemma ascii_eqb_true (a b : ascii) : Ascii.eqb a b = true <-> a = b.
Proof. apply Ascii.eqb_eq. Qed.

(** *** [contains] *)

Lemma contains_app (c : ascii) (a b : string) :
  contains c (a +:+ b) = contains c a || contains c b.
Proof.
  induction a as [|x a IH]; [reflexivity|].
  rewrite str_app_cons. cbn.
  destruct (Ascii.eqb x c); [reflexivity|]. apply IH.
Qed.

Lemma contains_cons_self (c : ascii) (s : string) :
  contains c (String c s) = true.
Proof. cbn. by rewrite Ascii.eqb_refl. Qed.

(** *** [split] and [join] *)

Lemma split_not_nil (sep : ascii) (s : string) : split sep s <> [].
Proof.
  destruct s as [|a r]; cbn; [done|].
  destruct (Ascii.eqb a sep); [done|]. by destruct (split sep r).
Qed.

Lemma join_cons (sep : ascii) (p : string) (ps : list string) :
  ps <> [] -> join sep (p :: ps) = p +:+ String sep (join sep ps).
Proof. destruct ps; [done|]. reflexivity. Qed.

Lemma join_split (sep : ascii) (s : string) : join sep (split sep s) = s.
Proof.
  induction s as [|a r IH]; [done|]. cbn [split].
  destruct (Ascii.eqb a sep) eqn:E.
  - apply ascii_eqb_true in E as ->.
    rewrite join_cons by apply split_not_nil. by rewrite IH.
  - destruct (split sep r) as [|seg segs] eqn:Hs.
    + by destruct (split_not_nil sep r).
    + destruct segs as [|seg' segs'].
      * cbn in *. by rewrite IH.
      * rewrite join_cons by done. rewrite join_cons in IH by done.
        rewrite str_app_cons. by rewrite IH.
Qed.

Lemma split_no_sep (sep : ascii) (s : string) :
  Forall (fun seg => contains sep seg = false) (split sep s).
Proof.
  induction s as [|a r IH]; cbn [split].
  - by repeat constructor.
  - destruct (Ascii.eqb a sep) eqn:E.
    + by constructor.
    + destruct (split sep r) as [|seg segs] eqn:Hs;
        [by destruct (split_not_nil sep r)|].
      inversion IH; subst. constructor; [|done]. cbn. by rewrite E.
Qed.

Lemma split_join (sep : ascii) (segs : list string) :
  segs <> [] -> Forall (fun seg => contains sep seg = false) segs ->
  split sep (join sep segs) = segs.
Proof.
  induction segs as [|p ps IH]; [done|]. intros _ Hall.
  inversion Hall as [|? ? Hp Hps]; subst.
  destruct ps as [|q qs].
  - clear IH Hall Hps. cbn [join].
    induction p as [|a p IHp]; [done|]. cbn in Hp. cbn [split].
    destruct (Ascii.eqb a sep); [done|]. by rewrite (IHp Hp).
  - rewrite join_cons by done. specialize (IH ltac:(done) Hps).
    clear Hall Hps. induction p as [|a p IHp].
    + rewrite str_app_nil_l. cbn [split].
      rewrite Ascii.eqb_refl. by rewrite IH.
    + cbn in Hp. rewrite str_app_cons. cbn [split].
      destruct (Ascii.eqb a sep); [done|]. by rewrite (IHp Hp).
Qed.

(** *** [split1] and [cut_at] *)

Lemma cut_at_app (p : ascii -> bool) (a b : string) (c : ascii) :
  Grammar.all_chars (fun x => negb (p x)) a = true -> p c = true ->
  cut_at p (a +:+ String c b) = Some (a, b).
Proof.
  intros Ha Hc. induction a as [|x a IH]; cbn.
  - by rewrite Hc.
  - cbn in Ha. apply andb_true_iff in Ha as [Hx Ha].
    apply negb_true_iff in Hx. rewrite Hx. fold String.append.
    by rewrite (IH Ha).
Qed.

Lemma cut_at_none (p : ascii -> bool) (a : string) :
  cut_at p a = None <-> Grammar.all_chars (fun x => negb (p x)) a = true.
Proof.
  induction a as [|x a IH]; cbn; [done|].
  destruct (p x); cbn; [done|].
  destruct (cut_at p a) as [[u v]|]; [|tauto].
  split; [done|]. intros H. apply IH in H. done.
Qed.

Lemma cut_at_some (p : ascii -> bool) (s a b : string) :
  cut_at p s = Some (a, b) ->
  exists c, p c = true /\ s = a +:+ String c b
            /\ Grammar.all_chars (fun x => negb (p x)) a = true.
Proof.
  revert a b. induction s as [|x s IH]; intros a b; cbn; [done|].
  destruct (p x) eqn:Hx.
  - intros [= <- <-]. by exists x.
  - destruct (cut_at p s) as [[u v]|]; [|done]. intros [= <- <-].
    destruct (IH u v eq_refl) as (c & Hc & -> & Hall).
    exists c. cbn. by rewrite Hx.
Qed.

Lemma contains_all_chars (c : ascii) (s : string) :
  contains c s = false <->
  Grammar.all_chars (fun x => negb (Ascii.eqb x c)) s = true.
Proof.
  induction s as [|x s IH]; cbn; [done|].
  destruct (Ascii.eqb x c); cbn; [done|]. apply IH.
Qed.

Lemma split1_cut (sep : ascii) (s : string) :
  split1 sep s = match cut_at (fun c => Ascii.eqb c sep) s with
                 | Some (k, v) => [k; v]
                 | None => [s]
                 end.
Proof.
  induction s as [|x s IH]; cbn; [done|].
  destruct (Ascii.eqb x sep); [done|]. rewrite IH.
  by destruct (cut_at _ s) as [[u v]|].
Qed.

Lemma contains_cut (sep : ascii) (s : string) :
  contains sep s = true <->
  exists k v, cut_at (fun c => Ascii.eqb c sep) s = Some (k, v).
Proof.
  induction s as [|x s IH]; cbn.
  - split; [done|]. by intros (? & ? & ?).
  - destruct (Ascii.eqb x sep).
    + split; [eauto|done].
    + rewrite IH. split.
      * intros (k & v & ->). eauto.
      * intros (k & v & H).
        destruct (cut_at _ s) as [[u w]|]; [eauto|done].
Qed.

End Strings.

Section Strip.
Import Py Spec.
Variable sp : ascii -> bool.

Lemma lstrip_decomp (s : string) :
  exists lead, Grammar.all_chars sp lead = true /\ s = lead +:+ lstrip_by sp s.
Proof.
  induction s as [|c s (lead & Hl & Hs)]; [by exists ""|]. cbn.
  destruct (sp c) eqn:Hc.
  - exists (String c lead). cbn. rewrite Hc, Hl. split; [done|]. by f_equal.
  - by exists "".
Qed.

Lemma rstrip_decomp (s : string) :
  exists trail,
    Grammar.all_chars sp trail = true /\ s = rstrip_by sp s +:+ trail.
Proof.
  induction s as [|c s (trail & Ht & Hs)]; [by exists ""|]. cbn.
  destruct (sp c) eqn:Hc; cbn.
  - destruct (rstrip_by sp s) eqn:Hr; cbn.
    + exists (String c trail). cbn in *. rewrite Hc, Ht. split; [done|].
      by f_equal.
    + exists trail. split; [done|]. by f_equal.
  - exists trail. split; [done|]. by f_equal.
Qed.

Lemma lstrip_app_blank (lead x : string) :
  Grammar.all_chars sp lead = true ->
  lstrip_by sp (lead +:+ x) = lstrip_by sp x.
Proof.
  induction lead as [|c lead IH]; cbn; [done|].
  intros [Hc Hl]%andb_true_iff. rewrite Hc. by apply IH.
Qed.

Lemma rstrip_blank (trail : string) :
  Grammar.all_chars sp trail = true -> rstrip_by sp trail = "".
Proof.
  induction trail as [|c trail IH]; cbn; [done|].
  intros [Hc Hl]%andb_true_iff. by rewrite (IH Hl), Hc.
Qed.

Lemma rstrip_app_blank (x trail : string) :
  Grammar.all_chars sp trail = true ->
  rstrip_by sp (x +:+ trail) = rstrip_by sp x.
Proof.
  intros Ht. induction x as [|c x IH]; cbn.
  - by apply rstrip_blank.
  - by rewrite IH.
Qed.

Lemma rstrip_id (y : string) (c : ascii) :
  sp c = false ->
  rstrip_by sp (y +:+ String c "") = y +:+ String c "".
Proof.
  intros Hc. induction y as [|a y IH]; cbn.
  - by rewrite Hc.
  - rewrite IH. destruct (y +:+ String c "") eqn:E.
    + by destruct y.
    + by rewrite andb_false_r.
Qed.

(** Trimming gives back a core that starts and ends with characters
    that are not trimmed. *)
Lemma strip_core (lead body trail y r : string) (c0 c1 : ascii) :
  Grammar.all_chars sp lead = true -> Grammar.all_chars sp trail = true ->
  body = String c0 r -> sp c0 = false ->
  body = y +:+ String c1 "" -> sp c1 = false ->
  strip_by sp (lead +:+ body +:+ trail) = body.
Proof.
  intros Hl Ht Hb0 Hc0 Hb1 Hc1. unfold strip_by.
  rewrite lstrip_app_blank by done.
  assert (lstrip_by sp (body +:+ trail) = body +:+ trail) as ->.
  { rewrite Hb0. cbn. by rewrite Hc0. }
  rewrite rstrip_app_blank by done. rewrite Hb1. by apply rstrip_id.
Qed.

Lemma strip_decomp (s : string) :
  exists lead trail,
    Grammar.all_chars sp lead = true /\ Grammar.all_chars sp trail = true
    /\ s = lead +:+ strip_by sp s +:+ trail.
Proof.
  destruct (lstrip_decomp s) as (lead & Hl & Hs).
  destruct (rstrip_decomp (lstrip_by sp s)) as (trail & Ht & Hr).
  exists lead, trail. repeat split; [done..|].
  unfold strip_by. by rewrite <- Hr.
Qed.

Lemma lstrip_starts (s : string) :
  lstrip_by sp s = ""
  \/ Grammar.starts_with (fun c => negb (sp c)) (lstrip_by sp s).
Proof.
  induction s as [|c s IH]; cbn; [by left|].
  destruct (sp c) eqn:Hc; [done|]. right. cbn. by rewrite Hc.
Qed.

Lemma rstrip_ends (s : string) :
  rstrip_by sp s = ""
  \/ Grammar.ends_with (fun c => negb (sp c)) (rstrip_by sp s).
Proof.
  induction s as [|c s IH]; cbn; [by left|].
  destruct (rstrip_by sp s) as [|b r] eqn:Hr; cbn.
  - destruct (sp c) eqn:Hc; cbn; [by left|]. right. cbn. by rewrite Hc.
  - rewrite andb_false_r. right. by destruct IH.
Qed.

Lemma rstrip_keeps_start (s : string) :
  Grammar.starts_with (fun c => negb (sp c)) s ->
  Grammar.starts_with (fun c => negb (sp c)) (rstrip_by sp s).
Proof.
  destruct s as [|c s]; cbn; [done|]. intros Hc.
  apply negb_true_iff in Hc. rewrite Hc. cbn. by rewrite Hc.
Qed.

(** A trimmed string is empty or starts and ends with characters that
    are not trimmed. *)
Lemma strip_trimmed (s : string) :
  strip_by sp s = ""
  \/ (Grammar.starts_with (fun c => negb (sp c)) (strip_by sp s)
      /\ Grammar.ends_with (fun c => negb (sp c)) (strip_by sp s)).
Proof.
  unfold strip_by. destruct (lstrip_starts s) as [->|Hs]; [by left|].
  apply rstrip_keeps_start in Hs.
  destruct (rstrip_ends (lstrip_by sp s)) as [Hr|He]; [|by right].
  rewrite Hr in Hs. done.
Qed.

End Strip.

Section Substrings.
Import Py Spec.

Lemma substring_of_refl (s : string) : substring_of s s.
Proof. exists "", "". by rewrite str_app_nil_r. Qed.

Lemma substring_of_trans (a b c : string) :
  substring_of a b -> substring_of b c -> substring_of a c.
Proof.
  intros (p1 & q1 & ->) (p2 & q2 & ->).
  exists (p2 +:+ p1), (q1 +:+ q2). by rewrite !str_app_assoc.
Qed.

Lemma substring_of_strip (s : string) : substring_of (strip s) s.
Proof.
  destruct (strip_decomp isspace s) as (lead & trail & _ & _ & H).
  by exists lead, trail.
Qed.

Lemma substring_of_join (sep : ascii) (seg : string) (segs : list string) :
  In seg segs -> substring_of seg (join sep segs).
Proof.
  induction segs as [|p ps IH]; [done|]. intros [->|Hin].
  - destruct ps as [|q qs]; [apply substring_of_refl|].
    rewrite join_cons by done. by exists "", (String sep (join sep (q :: qs))).
  - specialize (IH Hin). destruct ps as [|q qs]; [done|].
    rewrite join_cons by done.
    destruct IH as (pre & post & ->).
    exists (p +:+ String sep pre), post.
    by rewrite str_app_assoc.
Qed.

Lemma substring_of_segment (sep : ascii) (seg s : string) :
  In seg (split sep s) -> substring_of seg s.
Proof.
  intros H. rewrite <- (join_split sep s). by apply substring_of_join.
Qed.

Lemma substring_of_key (seg key value : string) :
  is_field seg key value -> substring_of key seg.
Proof. intros [-> _]. by exists "", (String ":" value). Qed.

End Substrings.

(* ===================================================================== *)
(** * Dictionaries *)
(* ===================================================================== *)

Section Dicts.
Import Py Spec.
Context {V : Type}.
Implicit Types (d : dict V) (k : string) (v : V).

Lemma dict_get_set k k' v d :
  dict_get k' (dict_set k v d)
  = if String.eqb k k' then Some v else dict_get k' d.
Proof.
  induction d as [|[k0 v0] d IH]; cbn; [done|].
  destruct (String.eqb k0 k) eqn:E0; cbn.
  - apply String.eqb_eq in E0 as ->. by destruct (String.eqb k k').
  - rewrite IH. destruct (String.eqb k0 k') eqn:E1; [|done].
    apply String.eqb_eq in E1 as ->. by rewrite String.eqb_sym, E0.
Qed.

Lemma dict_get_set_eq k v d : dict_get k (dict_set k v d) = Some v.
Proof. by rewrite dict_get_set, String.eqb_refl. Qed.

Lemma dict_get_set_ne k k' v d :
  k <> k' -> dict_get k' (dict_set k v d) = dict_get k' d.
Proof.
  intros Hne. rewrite dict_get_set.
  by destruct (String.eqb_spec k k').
Qed.

Lemma dict_keys_get k d : In k (dict_keys d) <-> is_Some (dict_get k d).
Proof.
  unfold dict_keys. induction d as [|[k0 v0] d IH]; cbn.
  - split; [done|]. by intros [? ?].
  - destruct (String.eqb_spec k0 k) as [->|Hne].
    + split; [by eauto|]. by left.
    + rewrite <- IH. split; [|by right]. by intros [?|?].
Qed.

Lemma dict_keys_set k v d :
  dict_keys (dict_set k v d)
  = if dict_contains k d then dict_keys d else dict_keys d ++ [k].
Proof.
  unfold dict_contains, dict_keys.
  induction d as [|[k0 v0] d IH]; cbn; [done|].
  destruct (String.eqb k0 k) eqn:E0; cbn; [done|].
  rewrite IH. by destruct (dict_get k d).
Qed.

Lemma dict_keys_set_in k k' v d :
  In k' (dict_keys (dict_set k v d)) <-> k' = k \/ In k' (dict_keys d).
Proof.
  rewrite !dict_keys_get, dict_get_set.
  destruct (String.eqb_spec k k') as [->|Hne].
  - split; [by left|by eauto].
  - split; [by right|]. by intros [?|?].
Qed.

Lemma dict_keys_set_NoDup k v d :
  NoDup (dict_keys d) -> NoDup (dict_keys (dict_set k v d)).
Proof.
  intros Hnd. rewrite dict_keys_set. unfold dict_contains.
  destruct (dict_get k d) eqn:Hg; [done|].
  apply NoDup_app. repeat split; [done| |apply NoDup_singleton].
  intros x Hx ->%list_elem_of_singleton.
  apply list_elem_of_In, dict_keys_get in Hx as [? ?]. congruence.
Qed.

End Dicts.

(* ===================================================================== *)
(** * The telemetry parser *)
(* ===================================================================== *)

Section Parser.
Import Py Json StateProtocol Spec.

Lemma int_raises_ValueError (s : string) (e : exn) :
  int s = Raise e -> e = ValueError.
Proof.
  unfold int. destruct (split_sign _) as [neg body].
  destruct (digitpart body) as [[n k]|]; [|congruence].
  destruct (Nat.leb k int_max_str_digits); congruence.
Qed.

Lemma float_raises_ValueError (s : string) (e : exn) :
  float s = Raise e -> e = ValueError.
Proof.
  unfold float. destruct (split_sign _) as [neg body].
  destruct (_ || _); [done|]. destruct (String.eqb _ _); [done|].
  destruct (floatnumber body) as [[m x]|]; congruence.
Qed.

(** The guarded conversion never raises. *)
Lemma convert_typed (key value : string) :
  convert key value = Ok (typed_value key value).
Proof.
  unfold convert, typed_value, dict_contains, dict_item.
  destruct (dict_get key state_types) as [[]|]; cbn; [| |done].
  - destruct (int value) as [z|e] eqn:E; cbn; [done|].
    by rewrite (int_raises_ValueError _ _ E).
  - destruct (float value) as [f|e] eqn:E; cbn; [done|].
    by rewrite (float_raises_ValueError _ _ E).
Qed.

Lemma parse_pairs_fold (segs : list string) (d : dict Json.value) :
  parse_pairs segs d = Ok (fold_left store (fields_of segs) d).
Proof.
  revert d. induction segs as [|seg segs IH]; intros d; [done|].
  cbn [parse_pairs fields_of flat_map]. fold (fields_of segs).
  rewrite fold_left_app. unfold field_of.
  destruct (is_empty seg) eqn:Hemp.
  { apply is_empty_true in Hemp as ->. cbn. apply IH. }
  destruct (contains ":" seg) eqn:Hc.
  - apply contains_cut in Hc as (k & v & Hcut).
    rewrite split1_cut, Hcut. cbn. rewrite convert_typed. cbn. apply IH.
  - destruct (cut_at _ seg) as [[k v]|] eqn:Hcut; [|apply IH].
    assert (contains ":" seg = true) by (apply contains_cut; eauto).
    congruence.
Qed.

Lemma parse_state_data_fold (line : string) :
  parse_state_data line
  = Ok (fold_left store (fields_of (segments line)) []).
Proof. apply parse_pairs_fold. Qed.

Lemma field_of_is_field (seg key value : string) :
  In (key, value) (field_of seg) <-> is_field seg key value.
Proof.
  unfold field_of, is_field. split.
  - destruct (cut_at _ seg) as [[k v]|] eqn:Hcut; [|done].
    intros [[= <- <-]|[]].
    apply cut_at_some in Hcut as (c & Hc & -> & Hall).
    apply Ascii.eqb_eq in Hc as ->. split; [done|].
    by apply contains_all_chars.
  - intros [-> Hk]. rewrite cut_at_app; [by left| |apply Ascii.eqb_refl].
    by apply contains_all_chars.
Qed.

Lemma is_field_field_of (seg key value : string) :
  is_field seg key value -> field_of seg = [(key, value)].
Proof.
  intros [-> Hk]. unfold field_of.
  rewrite cut_at_app; [done| |apply Ascii.eqb_refl].
  by apply contains_all_chars.
Qed.

Lemma fields_of_in (segs : list string) (key value : string) :
  In (key, value) (fields_of segs)
  <-> exists seg, In seg segs /\ is_field seg key value.
Proof.
  unfold fields_of. rewrite in_flat_map.
  by setoid_rewrite field_of_is_field.
Qed.

Lemma fields_of_key (segs : list string) (key : string) :
  In key (map fst (fields_of segs))
  <-> exists seg value, In seg segs /\ is_field seg key value.
Proof.
  rewrite in_map_iff. split.
  - intros ([k v] & <- & Hin). apply fields_of_in in Hin as (seg & ? & ?).
    by exists seg, v.
  - intros (seg & value & ? & ?). exists (key, value). split; [done|].
    apply fields_of_in. eauto.
Qed.

(** *** Folding the stores *)

Lemma fold_store_keys (fs : list (string * string)) (d : dict Json.value)
    (k : string) :
  In k (dict_keys (fold_left store fs d))
  <-> In k (dict_keys d) \/ In k (map fst fs).
Proof.
  revert d. induction fs as [|[k0 v0] fs IH]; intros d; cbn.
  - tauto.
  - rewrite IH. unfold store. cbn. rewrite dict_keys_set_in.
    split; [intros [[->|?]|?]|intros [?|[->|?]]]; eauto.
Qed.

Lemma fold_store_NoDup (fs : list (string * string)) (d : dict Json.value) :
  NoDup (dict_keys d) -> NoDup (dict_keys (fold_left store fs d)).
Proof.
  revert d. induction fs as [|[k0 v0] fs IH]; intros d Hd; [done|].
  cbn. apply IH. by apply dict_keys_set_NoDup.
Qed.

Lemma fold_store_get_other (fs : list (string * string))
    (d : dict Json.value) (k : string) :
  ~ In k (map fst fs) ->
  dict_get k (fold_left store fs d) = dict_get k d.
Proof.
  revert d. induction fs as [|[k0 v0] fs IH]; intros d Hk; [done|].
  cbn in *. rewrite IH by tauto. unfold store. cbn.
  apply dict_get_set_ne. intros ->. tauto.
Qed.

Lemma fold_store_get_last (pre post : list (string * string))
    (d : dict Json.value) (k v : string) :
  ~ In k (map fst post) ->
  dict_get k (fold_left store (pre ++ (k, v) :: post) d)
  = Some (typed_value k v).
Proof.
  intros Hk. rewrite fold_left_app. cbn.
  rewrite fold_store_get_other by done.
  unfold store at 1. cbn. apply dict_get_set_eq.
Qed.

(** *** The line's last field for a key *)

Lemma last_field_fields (line key value : string) :
  last_field line key value ->
  exists pre post,
    fields_of (segments line) = pre ++ (key, value) :: post
    /\ ~ In key (map fst post).
Proof.
  intros (pre & seg & post & Hsegs & Hf & Hlast).
  exists (fields_of pre), (fields_of post). split.
  - rewrite Hsegs. unfold fields_of. rewrite flat_map_app. cbn.
    by rewrite (is_field_field_of _ _ _ Hf).
  - intros (seg' & value' & Hin & Hf')%fields_of_key.
    by apply (Hlast seg' value').
Qed.

Lemma parse_last_field (line key value : string) :
  last_field line key value ->
  exists fields,
    parse_state_data line = Ok fields
    /\ dict_get key fields = Some (typed_value key value).
Proof.
  intros (pre & post & Hfs & Hk)%last_field_fields.
  eexists. split; [apply parse_state_data_fold|].
  rewrite Hfs. by apply fold_store_get_last.
Qed.

Lemma parse_keys (line key : string) (fields : dict Json.value) :
  parse_state_data line = Ok fields ->
  In key (dict_keys fields) <-> key_present line key.
Proof.
  rewrite parse_state_data_fold. intros [= <-].
  rewrite fold_store_keys, fields_of_key. unfold key_present.
  split; [intros [[]|?]|intros ?; right]; done.
Qed.

Lemma key_present_substring (line key : string) :
  key_present line key -> substring_of key line.
Proof.
  intros (seg & value & Hin & Hf).
  eapply substring_of_trans; [by eapply substring_of_key|].
  eapply substring_of_trans; [by eapply substring_of_segment|].
  apply substring_of_strip.
Qed.

(** The segments are determined by the line: joined by semicolons they
    give the line without its leading and trailing white space, and none
    of them contains a semicolon. *)
Lemma segments_spec (line : string) :
  (exists lead trail,
     Grammar.all_chars isspace lead = true
     /\ Grammar.all_chars isspace trail = true
     /\ line = lead +:+ join ";" (segments line) +:+ trail)
  /\ (join ";" (segments line) = ""
      \/ (Grammar.starts_with (fun c => negb (isspace c))
            (join ";" (segments line))
          /\ Grammar.ends_with (fun c => negb (isspace c))
               (join ";" (segments line))))
  /\ Forall (fun seg => contains ";" seg = false) (segments line).
Proof.
  unfold segments. rewrite join_split. split; [|split].
  - apply (strip_decomp isspace).
  - apply (strip_trimmed isspace).
  - apply split_no_sep.
Qed.

End Parser.

(* ===================================================================== *)
(** * The numeric conversions accept exactly the numerals *)
(* ===================================================================== *)

Section Numerals.
Import Py Grammar.

Ltac each_char c := destruct c as [[] [] [] [] [] [] [] []].

Lemma digit_class (c : ascii) :
  isdigit c = true ->
  unsigned c = true /\ is_dot c = false /\ is_exp c = false
  /\ Ascii.eqb c "_" = false.
Proof. each_char c; vm_compute; intros; try discriminate; auto. Qed.

Lemma dot_class (c : ascii) :
  is_dot c = true ->
  c = "."%char /\ unsigned c = true /\ is_exp c = false.
Proof. each_char c; vm_compute; intros; try discriminate; auto. Qed.

Lemma underscore_class (c : ascii) :
  Ascii.eqb c "_" = true -> is_dot c = false /\ is_exp c = false.
Proof. each_char c; vm_compute; intros; try discriminate; auto. Qed.

Lemma letter_class (c : ascii) :
  in_range 97 122 (lower c) = true -> unsigned c = true.
Proof. each_char c; vm_compute; intros; try discriminate; auto. Qed.

Lemma unsigned_solid (c : ascii) : unsigned c = true -> solid c = true.
Proof.
  unfold unsigned, solid. by intros [[? ?]%andb_true_iff ?]%andb_true_iff.
Qed.

(** *** First and last characters *)

Lemma all_chars_app (p : ascii -> bool) (a b : string) :
  all_chars p (a +:+ b) = all_chars p a && all_chars p b.
Proof.
  induction a as [|c a IH]; cbn; [done|]. by rewrite IH, andb_assoc.
Qed.

Lemma all_chars_impl (p q : ascii -> bool) (s : string) :
  (forall c, p c = true -> q c = true) ->
  all_chars p s = true -> all_chars q s = true.
Proof.
  intros Hpq. induction s as [|c s IH]; cbn; [done|].
  intros [Hc Hs]%andb_true_iff. by rewrite (Hpq c Hc), (IH Hs).
Qed.

Lemma starts_with_app (p : ascii -> bool) (a b : string) :
  starts_with p a -> starts_with p (a +:+ b).
Proof. by destruct a. Qed.

Lemma ends_with_app (p : ascii -> bool) (a b : string) :
  ends_with p b -> ends_with p (a +:+ b).
Proof.
  intros Hb. induction a as [|c a IH]; cbn; [done|].
  destruct (a +:+ b) eqn:E; [|done]. by destruct a, b.
Qed.

Lemma ends_with_last (p : ascii -> bool) (s : string) :
  ends_with p s -> exists y c, s = y +:+ String c "" /\ p c = true.
Proof.
  induction s as [|a s IH]; cbn; [done|]. destruct s as [|b s].
  - intros Ha. by exists "", a.
  - intros (y & c & -> & Hc)%IH. by exists (String a y), c.
Qed.

Lemma ends_with_impl (p q : ascii -> bool) (s : string) :
  (forall c, p c = true -> q c = true) -> ends_with p s -> ends_with q s.
Proof.
  intros Hpq. induction s as [|a s IH]; cbn; [done|].
  destruct s; [apply Hpq|apply IH].
Qed.

Lemma starts_with_impl (p q : ascii -> bool) (s : string) :
  (forall c, p c = true -> q c = true) -> starts_with p s -> starts_with q s.
Proof. intros Hpq. destruct s; cbn; [done|apply Hpq]. Qed.

Lemma strip_solid (lead body trail : string) :
  blank lead -> blank trail ->
  starts_with solid body -> ends_with solid body ->
  strip_by isspace_num (lead +:+ body +:+ trail) = body.
Proof.
  intros Hl Ht Hs (y & c & Hy & Hc)%ends_with_last.
  destruct body as [|c0 r]; [done|]. cbn in Hs.
  eapply strip_core; try done.
  - by apply negb_true_iff.
  - by apply negb_true_iff.
Qed.

Lemma split_sign_sound (t body : string) (neg : bool) :
  split_sign t = (neg, body) -> exists sg, sign_lit sg /\ t = sg +:+ body.
Proof.
  unfold split_sign. destruct t as [|c t].
  - intros [= <- <-]. exists "". split; [constructor|done].
  - each_char c; intros [= <- <-];
      first [ by exists "-"; split; [constructor|]
            | by exists "+"; split; [constructor|]
            | by exists ""; split; [constructor|] ].
Qed.

Lemma split_sign_unsigned (sg body : string) :
  sign_lit sg -> starts_with unsigned body ->
  snd (split_sign (sg +:+ body)) = body.
Proof.
  intros Hsg Hb. destruct Hsg; cbn; [|done..].
  destruct body as [|c r]; [done|]. cbn in Hb.
  revert Hb. each_char c; vm_compute; intros; try discriminate; auto.
Qed.

Lemma signed_starts_solid (sg body : string) :
  sign_lit sg -> starts_with unsigned body ->
  starts_with solid (sg +:+ body).
Proof.
  intros Hsg Hb. destruct Hsg; cbn; [|done..].
  by eapply starts_with_impl; [apply unsigned_solid|].
Qed.

(** *** Groups of digits *)

Lemma digitpart_go_complete (s : string) :
  digitpart_lit s ->
  forall acc n prev, is_Some (digitpart_go acc n prev s).
Proof.
  induction 1 as [c Hc|c r Hc _ IH|c r Hc _ IH]; intros acc n prev; cbn;
    rewrite Hc.
  - by eexists.
  - apply IH.
  - destruct (digit_class _ Hc) as (_ & _ & _ & Hu).
    change (isdigit "_") with false. cbn. apply IH.
Qed.

Lemma digitpart_go_sound (s : string) :
  forall acc n prev res,
    digitpart_go acc n prev s = Some res ->
    if prev
    then s = "" \/ digitpart_lit s
         \/ exists r, s = String "_" r /\ digitpart_lit r
    else digitpart_lit s.
Proof.
  induction s as [|c r IH]; intros acc n prev res; cbn.
  - destruct prev; [auto|done].
  - destruct (isdigit c) eqn:Hc.
    + intros H. apply IH in H. cbn in H.
      assert (digitpart_lit (String c r)) as Hlit.
      { destruct H as [->|[H|(r' & -> & H)]];
          [by apply dp_last|by apply dp_next|by apply dp_under]. }
      destruct prev; auto.
    + destruct (Ascii.eqb c "_") eqn:Hu; cbn; [|done].
      destruct prev; cbn; [|done].
      intros H. apply IH in H. cbn in H.
      apply Ascii.eqb_eq in Hu as ->. right. right. eauto.
Qed.

Lemma digitpart_iff (s : string) : is_Some (digitpart s) <-> digitpart_lit s.
Proof.
  unfold digitpart. split.
  - intros [res H]. by apply digitpart_go_sound in H.
  - intros H. by apply digitpart_go_complete.
Qed.

Lemma digitpart_starts (s : string) :
  digitpart_lit s -> starts_with isdigit s.
Proof. by destruct 1. Qed.

Lemma digitpart_ends (s : string) : digitpart_lit s -> ends_with isdigit s.
Proof.
  induction 1 as [c Hc|c r Hc Hr IH|c r Hc Hr IH]; cbn; [done|..].
  - destruct r; [inversion Hr|done].
  - destruct r; [inversion Hr|done].
Qed.

Lemma digitpart_chars (s : string) :
  digitpart_lit s -> all_chars digit_or_underscore s = true.
Proof.
  unfold digit_or_underscore.
  induction 1 as [c Hc|c r Hc Hr IH|c r Hc Hr IH]; cbn; rewrite Hc; cbn;
    done.
Qed.

Lemma digitpart_not_empty (s : string) :
  digitpart_lit s -> is_empty s = false.
Proof. by destruct 1. Qed.

Lemma digit_unsigned (c : ascii) : isdigit c = true -> unsigned c = true.
Proof. intros H. by destruct (digit_class c H). Qed.

Lemma digit_solid (c : ascii) : isdigit c = true -> solid c = true.
Proof. intros H. by apply unsigned_solid, digit_unsigned. Qed.

Lemma digit_count_app (a b : string) :
  digit_count (a +:+ b) = (digit_count a + digit_count b)%nat.
Proof.
  induction a as [|c a IH]; [done|]. cbn. rewrite IH. lia.
Qed.

Lemma blank_no_digits (s : string) : blank s -> digit_count s = 0%nat.
Proof.
  unfold blank. induction s as [|c s IH]; [done|]. cbn.
  intros [Hc Hs]%andb_true_iff. rewrite (IH Hs).
  destruct (isdigit c) eqn:Hd; [|done].
  apply digit_solid in Hd. unfold solid in Hd. by rewrite Hc in Hd.
Qed.

Lemma sign_no_digits (sg : string) : sign_lit sg -> digit_count sg = 0%nat.
Proof. by destruct 1. Qed.

Lemma digitpart_go_count (s : string) :
  forall acc n prev z d,
    digitpart_go acc n prev s = Some (z, d) ->
    d = (n + digit_count s)%nat.
Proof.
  induction s as [|c r IH]; intros acc n prev z d; cbn.
  - destruct prev; [|done]. intros [= _ <-]. lia.
  - destruct (isdigit c) eqn:Hc.
    + intros H. apply IH in H. lia.
    + destruct (Ascii.eqb c "_" && prev); [|done].
      intros H. apply IH in H. lia.
Qed.

Lemma numeral_digit_count (lead sg d trail : string) :
  blank lead -> sign_lit sg -> blank trail ->
  digit_count (lead +:+ sg +:+ d +:+ trail) = digit_count d.
Proof.
  intros Hl Hsg Ht. rewrite !digit_count_app.
  rewrite (blank_no_digits _ Hl), (blank_no_digits _ Ht),
    (sign_no_digits _ Hsg). lia.
Qed.

(** *** [int] *)

Theorem int_accepts_numerals (s : string) :
  (exists z, int s = Ok z)
  <-> int_numeral s /\ (digit_count s <= int_max_str_digits)%nat.
Proof.
  split.
  - intros [z Hz]. unfold int in Hz.
    destruct (split_sign _) as [neg body] eqn:Hsign.
    destruct (digitpart body) as [[n k]|] eqn:Hd; [|done].
    destruct (Nat.leb k int_max_str_digits) eqn:Hk; [|done].
    apply Nat.leb_le in Hk.
    apply split_sign_sound in Hsign as (sg & Hsg & Ht).
    destruct (strip_decomp isspace_num s) as (lead & trail & Hl & Htr & Hs).
    rewrite Hs, Ht, str_app_assoc. split.
    + constructor; [done..| |done]. apply digitpart_iff. by eexists.
    + rewrite numeral_digit_count by done.
      apply digitpart_go_count in Hd. cbn in Hd. by rewrite <- Hd.
  - intros [[lead sg d trail Hl Hsg Hd Ht] Hk]. unfold int.
    rewrite numeral_digit_count in Hk by done.
    rewrite <- (str_app_assoc sg d trail).
    rewrite strip_solid; [|done..| |].
    + pose proof (split_sign_unsigned sg d Hsg) as Hsnd.
      destruct (split_sign (sg +:+ d)) as [neg body]. cbn in Hsnd.
      rewrite Hsnd.
      * apply digitpart_iff in Hd as [[n k] Hdp]. rewrite Hdp.
        apply digitpart_go_count in Hdp. cbn in Hdp. subst k.
        apply Nat.leb_le in Hk. rewrite Hk. by eexists.
      * eapply starts_with_impl; [apply digit_unsigned|].
        by apply digitpart_starts.
    + apply signed_starts_solid; [done|].
      eapply starts_with_impl; [apply digit_unsigned|].
      by apply digitpart_starts.
    + apply ends_with_app. eapply ends_with_impl; [apply digit_solid|].
      by apply digitpart_ends.
Qed.

(** A numeral over the limit is refused. *)
Lemma int_refuses_long_numerals (s : string) :
  (int_max_str_digits < digit_count s)%nat -> int s = Raise ValueError.
Proof.
  intros Hk. destruct (int s) as [z|e] eqn:E.
  - assert (exists z, int s = Ok z) as H by by eexists.
    apply int_accepts_numerals in H as [_ H]. lia.
  - unfold int in E. destruct (split_sign _) as [neg body].
    destruct (digitpart body) as [[n k]|]; [|congruence].
    destruct (Nat.leb k int_max_str_digits); congruence.
Qed.

(** *** Mantissa, exponent and [float] *)

Lemma digits_no_dot (d : string) :
  digitpart_lit d -> all_chars (fun x => negb (is_dot x)) d = true.
Proof.
  intros H. eapply all_chars_impl; [|by apply digitpart_chars].
  intros c [Hc|Hc]%orb_true_iff; apply negb_true_iff.
  - by destruct (digit_class c Hc) as (_ & ? & _).
  - by destruct (underscore_class c Hc).
Qed.

Lemma number_chars (n : string) :
  number_lit n -> all_chars number_char n = true.
Proof.
  assert (forall d, digitpart_lit d -> all_chars number_char d = true) as Hd.
  { intros d H. eapply all_chars_impl; [|by apply digitpart_chars].
    intros c Hc. unfold number_char. fold (digit_or_underscore c).
    by rewrite Hc. }
  destruct 1; rewrite ?all_chars_app; cbn; rewrite ?Hd by done; done.
Qed.

Lemma number_no_exp (n : string) :
  number_lit n -> all_chars (fun x => negb (is_exp x)) n = true.
Proof.
  intros H. eapply all_chars_impl; [|by apply number_chars].
  intros c [[Hc|Hc]%orb_true_iff|Hc]%orb_true_iff; apply negb_true_iff.
  - by destruct (digit_class c Hc) as (_ & _ & ? & _).
  - by destruct (underscore_class c Hc).
  - by destruct (dot_class c Hc) as (_ & _ & ?).
Qed.

Lemma mantissa_iff (s : string) : is_Some (mantissa s) <-> number_lit s.
Proof.
  unfold mantissa. split.
  - destruct (cut_at is_dot s) as [[ip fp]|] eqn:Hcut.
    + apply cut_at_some in Hcut as (c & Hc & -> & _).
      destruct (dot_class c Hc) as (-> & _).
      destruct (is_empty ip) eqn:Hi, (is_empty fp) eqn:Hf.
      * by intros [? ?].
      * apply is_empty_true in Hi as ->. intros H.
        apply num_frac, digitpart_iff. by destruct H.
      * apply is_empty_true in Hf as ->.
        destruct (digitpart ip) as [[n k]|] eqn:Hd; [|by intros [? ?]].
        intros _. apply num_int_dot, digitpart_iff. by eexists.
      * destruct (digitpart ip) as [[n k]|] eqn:Hd; [|by intros [? ?]].
        destruct (digitpart fp) as [[m j]|] eqn:Hd'; [|by intros [? ?]].
        intros _. apply num_int_frac; apply digitpart_iff; by eexists.
    + destruct (digitpart s) as [[n k]|] eqn:Hd; [|by intros [? ?]].
      intros _. apply num_int, digitpart_iff. by eexists.
  - destruct 1 as [d Hd|d Hd|f Hf|d f Hd Hf].
    + pose proof (digits_no_dot d Hd) as Hno.
      apply cut_at_none in Hno as ->.
      apply digitpart_iff in Hd as [[n k] ->]. by eexists.
    + rewrite cut_at_app by (by apply digits_no_dot || done).
      rewrite (digitpart_not_empty d Hd). cbn.
      apply digitpart_iff in Hd as [[n k] ->]. by eexists.
    + cbn. rewrite (digitpart_not_empty f Hf).
      by apply digitpart_iff.
    + rewrite cut_at_app by (by apply digits_no_dot || done).
      rewrite (digitpart_not_empty d Hd), (digitpart_not_empty f Hf).
      apply digitpart_iff in Hd as [[n k] ->].
      apply digitpart_iff in Hf as [[m j] ->]. by eexists.
Qed.

Lemma exponent_iff (s : string) :
  is_Some (exponent s)
  <-> exists sg d, s = sg +:+ d /\ sign_lit sg /\ digitpart_lit d.
Proof.
  unfold exponent. split.
  - destruct (split_sign s) as [neg body] eqn:Hsign.
    apply split_sign_sound in Hsign as (sg & Hsg & ->).
    destruct (digitpart body) as [[n k]|] eqn:Hd; [|by intros [? ?]].
    intros _. exists sg, body. repeat split; [done|].
    apply digitpart_iff. by eexists.
  - intros (sg & d & -> & Hsg & Hd).
    pose proof (split_sign_unsigned sg d Hsg) as Hsnd.
    destruct (split_sign (sg +:+ d)) as [neg body]. cbn in Hsnd.
    rewrite Hsnd.
    + apply digitpart_iff in Hd as [[n k] ->]. by eexists.
    + eapply starts_with_impl; [apply digit_unsigned|].
      by apply digitpart_starts.
Qed.

Lemma floatnumber_iff (s : string) :
  is_Some (floatnumber s) <-> floatnumber_lit s.
Proof.
  unfold floatnumber. split.
  - destruct (cut_at is_exp s) as [[ms es]|] eqn:Hcut.
    + apply cut_at_some in Hcut as (c & Hc & -> & _).
      destruct (mantissa ms) as [[m k]|] eqn:Hm; [|by intros [? ?]].
      destruct (exponent es) as [e|] eqn:He; [|by intros [? ?]].
      intros _.
      assert (is_Some (exponent es)) as (sg & d & -> & Hsg & Hd)%exponent_iff
        by by eexists.
      apply fn_exp; [apply mantissa_iff; by eexists|by constructor].
    + destruct (mantissa s) as [[m k]|] eqn:Hm; [|by intros [? ?]].
      intros _. apply fn_plain, mantissa_iff. by eexists.
  - destruct 1 as [n Hn|n e Hn He].
    + pose proof (number_no_exp n Hn) as Hno.
      apply cut_at_none in Hno as ->.
      apply mantissa_iff in Hn as [[m k] ->]. by eexists.
    + destruct He as [c sg d Hc Hsg Hd].
      rewrite cut_at_app by (by apply number_no_exp || done).
      apply mantissa_iff in Hn as [[m k] ->].
      assert (is_Some (exponent (sg +:+ d))) as [e ->]
        by (apply exponent_iff; eauto).
      by eexists.
Qed.

Lemma number_starts (n : string) :
  number_lit n -> starts_with digit_or_dot n.
Proof.
  assert (forall d, digitpart_lit d -> starts_with digit_or_dot d) as Hd.
  { intros d H. eapply starts_with_impl; [|by apply digitpart_starts].
    intros c Hc. unfold digit_or_dot. by rewrite Hc. }
  destruct 1;
    [auto|apply starts_with_app; auto|reflexivity|apply starts_with_app; auto].
Qed.

Lemma number_ends (n : string) : number_lit n -> ends_with digit_or_dot n.
Proof.
  assert (forall d, digitpart_lit d -> ends_with digit_or_dot d) as Hd.
  { intros d H. eapply ends_with_impl; [|by apply digitpart_ends].
    intros c Hc. unfold digit_or_dot. by rewrite Hc. }
  destruct 1 as [d H|d H|f H|d f H H'].
  - auto.
  - by apply ends_with_app.
  - apply (ends_with_app _ "." f). auto.
  - apply (ends_with_app _ (d +:+ ".") f) in Hd; [|done].
    by rewrite str_app_assoc in Hd.
Qed.

Lemma digit_or_dot_unsigned (c : ascii) :
  digit_or_dot c = true -> unsigned c = true.
Proof.
  intros [Hc|Hc]%orb_true_iff; [by apply digit_unsigned|].
  by destruct (dot_class c Hc) as (_ & ? & _).
Qed.

Lemma floatnumber_starts (x : string) :
  floatnumber_lit x -> starts_with unsigned x.
Proof.
  intros H. eapply starts_with_impl; [apply digit_or_dot_unsigned|].
  destruct H; try apply starts_with_app; by apply number_starts.
Qed.

Lemma floatnumber_ends (x : string) :
  floatnumber_lit x -> ends_with solid x.
Proof.
  destruct 1 as [n Hn|n e Hn He].
  - eapply ends_with_impl; [|by apply number_ends].
    intros c Hc. by apply unsigned_solid, digit_or_dot_unsigned.
  - destruct He as [c sg d Hc Hsg Hd]. apply ends_with_app.
    apply (ends_with_app _ (String c sg) d).
    eapply ends_with_impl; [apply digit_solid|]. by apply digitpart_ends.
Qed.

Lemma all_chars_lower (p : ascii -> bool) (x : string) :
  all_chars p (lower_str x) = all_chars (fun c => p (lower c)) x.
Proof. induction x as [|c x IH]; cbn; [done|]. by rewrite IH. Qed.

Lemma word_starts_ends (x w : string) :
  lower_str x = w -> all_chars (in_range 97 122) w = true -> w <> "" ->
  starts_with unsigned x /\ ends_with solid x.
Proof.
  intros <- Hall Hne. rewrite all_chars_lower in Hall.
  destruct x as [|c x]; [done|]. clear Hne. split.
  - cbn in *. apply andb_true_iff in Hall as [Hc _]. by apply letter_class.
  - revert c Hall. induction x as [|b x IH]; intros c Hall.
    + cbn in *. apply andb_true_iff in Hall as [Hc _].
      by apply unsigned_solid, letter_class.
    + apply andb_true_iff in Hall as [_ Hall]. by apply (IH b).
Qed.

Lemma absfloat_starts_ends (x : string) :
  absfloat_lit x -> starts_with unsigned x /\ ends_with solid x.
Proof.
  destruct 1 as [x H|x H|x H|x H].
  - split; [by apply floatnumber_starts|by apply floatnumber_ends].
  - by eapply word_starts_ends.
  - by eapply word_starts_ends.
  - by eapply word_starts_ends.
Qed.

Theorem float_accepts_numerals (s : string) :
  (exists f, float s = Ok f) <-> float_numeral s.
Proof.
  split.
  - intros [f Hf]. unfold float in Hf.
    destruct (split_sign _) as [neg body] eqn:Hsign.
    apply split_sign_sound in Hsign as (sg & Hsg & Ht).
    destruct (strip_decomp isspace_num s) as (lead & trail & Hl & Htr & Hs).
    rewrite Hs, Ht, str_app_assoc.
    constructor; [done..| |done].
    destruct (String.eqb_spec (lower_str body) "inf"); [by apply af_inf|].
    destruct (String.eqb_spec (lower_str body) "infinity");
      [by apply af_infinity|].
    destruct (String.eqb_spec (lower_str body) "nan"); [by apply af_nan|].
    cbn in Hf. destruct (floatnumber body) as [[m e]|] eqn:Hfn; [|done].
    apply af_number, floatnumber_iff. by eexists.
  - intros [lead sg x trail Hl Hsg Hx Ht]. unfold float.
    destruct (absfloat_starts_ends x Hx) as [Hstart Hend].
    rewrite <- (str_app_assoc sg x trail).
    rewrite strip_solid; [|done..| |].
    + pose proof (split_sign_unsigned sg x Hsg Hstart) as Hsnd.
      destruct (split_sign (sg +:+ x)) as [neg body]. cbn in Hsnd. subst body.
      destruct (String.eqb_spec (lower_str x) "inf"); cbn; [by eexists|].
      destruct (String.eqb_spec (lower_str x) "infinity"); cbn;
        [by eexists|].
      destruct (String.eqb_spec (lower_str x) "nan"); [by eexists|].
      destruct Hx as [x H|x H|x H|x H]; [|done..].
      apply floatnumber_iff in H as [[m e] ->]. by eexists.
    + by apply signed_starts_solid.
    + by apply ends_with_app.
Qed.

End Numerals.

(* ===================================================================== *)
(** * Telemetry: keys, kinds, fallbacks and descriptions *)
(* ===================================================================== *)

Section Telemetry.
Import Py Json StateProtocol Spec.

Lemma dict_get_None {V : Type} (k : string) (d : dict V) :
  dict_get k d = None <-> ~ In k (dict_keys d).
Proof.
  rewrite dict_keys_get. destruct (dict_get k d) as [v|].
  - split; [done|]. intros H. destruct H. by eexists.
  - split; [|done]. by intros _ [? ?].
Qed.

(** The two tables of the protocol describe the same twenty fields. *)
Lemma tables_same_keys : dict_keys state_types = dict_keys state_descriptions.
Proof. reflexivity. Qed.

Lemma tables_twenty_fields : length (dict_keys state_types) = 20%nat.
Proof. reflexivity. Qed.

Lemma typed_value_numeral (k rv : string) (ty : py_type) :
  dict_get k state_types = Some ty -> numeral ty rv -> within_limit ty rv ->
  has_type ty (typed_value k rv).
Proof.
  intros Hty Hnum Hlim. unfold typed_value. rewrite Hty.
  destruct ty; cbn in *.
  - destruct (proj2 (int_accepts_numerals rv) (conj Hnum Hlim)) as [z ->].
    done.
  - apply float_accepts_numerals in Hnum as [f ->]. done.
Qed.

Lemma typed_value_over_limit (k rv : string) (ty : py_type) :
  dict_get k state_types = Some ty -> ~ within_limit ty rv ->
  ty = Tint /\ typed_value k rv = VStr rv.
Proof.
  intros Hty Hlim. unfold typed_value. rewrite Hty.
  destruct ty; cbn in *; [|done]. split; [done|].
  rewrite int_refuses_long_numerals; [done|lia].
Qed.

Lemma typed_value_malformed (k rv : string) (ty : py_type) :
  dict_get k state_types = Some ty -> ~ numeral ty rv ->
  typed_value k rv = VStr rv.
Proof.
  intros Hty Hnum. unfold typed_value. rewrite Hty. destruct ty; cbn in *.
  - destruct (int rv) as [z|e] eqn:E; [|done].
    destruct Hnum. eapply proj1, int_accepts_numerals. by eexists.
  - destruct (float rv) as [f|e] eqn:E; [|done].
    destruct Hnum. apply float_accepts_numerals. by eexists.
Qed.

Lemma typed_value_unknown (k rv : string) :
  dict_get k state_types = None -> typed_value k rv = VStr rv.
Proof. intros Hty. unfold typed_value. by rewrite Hty. Qed.

Lemma parse_NoDup (line : string) (fields : dict Json.value) :
  parse_state_data line = Ok fields -> NoDup (dict_keys fields).
Proof.
  rewrite parse_state_data_fold. intros [= <-].
  apply fold_store_NoDup. constructor.
Qed.

Lemma fill_fields_get (items : dict Json.value) (acc : dict field_entry)
    (k : string) :
  NoDup (dict_keys items) ->
  dict_get k (fill_fields items acc)
  = match dict_get k items with
    | Some v => Some (entry_of k v)
    | None => dict_get k acc
    end.
Proof.
  revert acc. induction items as [|[k0 v0] items IH]; intros acc Hnd; [done|].
  apply NoDup_cons in Hnd as [Hk0 Hnd]. cbn [fill_fields dict_get].
  rewrite IH by done. destruct (String.eqb_spec k0 k) as [->|Hne].
  - assert (dict_get k items = None) as ->.
    { apply dict_get_None. intros H. by apply Hk0, list_elem_of_In. }
    by rewrite dict_get_set_eq.
  - by rewrite dict_get_set_ne.
Qed.

End Telemetry.

(** The worked line of the specification: integer [mid], floating-point
    [bat], the trailing empty segment ignored. *)
Example parse_state_data_example :
  StateProtocol.parse_state_data "mid:-1;x:0;y:0;bat:87;"
  = Py.Ok [("mid", Json.VInt (-1)); ("x", Json.VInt 0); ("y", Json.VInt 0);
           ("bat", Json.VFloat (Py.FDec false 87 0))].
Proof. reflexivity. Qed.

(** C2, as stated, fails: an integer field whose value is a well-formed
    numeral of more digits than [int] converts keeps its text. *)
Lemma integer_over_digit_limit_counterexample :
  ~ (forall line k rv ty,
       Spec.last_field line k rv ->
       Py.dict_get k StateProtocol.state_types = Some ty ->
       StateProtocol.numeral ty rv ->
       exists fields v,
         StateProtocol.parse_state_data line = Py.Ok fields
         /\ Py.dict_get k fields = Some v
         /\ StateProtocol.has_type ty v).
Proof.
  intros H.
  destruct (H Spec.long_line "mid" Spec.long_numeral StateProtocol.Tint)
    as (fields & v & Hparse & Hget & Hty).
  - exists [], Spec.long_line, []. split; [by vm_compute|].
    split; [split; reflexivity|]. intros ? ? [].
  - reflexivity.
  - assert (Grammar.digitpart_lit Spec.long_numeral) as Hd.
    { apply digitpart_iff. vm_compute. by eexists. }
    pose proof (Grammar.int_numeral_intro "" "" Spec.long_numeral ""
                  eq_refl Grammar.sign_none Hd eq_refl) as Hn.
    change ("" +:+ "" +:+ Spec.long_numeral +:+ "")
      with (Spec.long_numeral +:+ "") in Hn.
    by rewrite str_app_nil_r in Hn.
  - vm_compute in Hparse. injection Hparse as <-.
    vm_compute in Hget. injection Hget as <-. exact Hty.
Qed.

(** C2, amended. For every line, [parse_state_data] returns a field map
    without repeated keys whose keys are exactly the keys of the line's
    [key:value] segments (so every key occurs in the raw line), the
    segments being the pieces between semicolons of the line without its
    surrounding white space; a field known to [state_types] whose last
    value in the line is a well-formed numeral of the declared kind,
    within the limit [int] puts on the number of digits, is mapped to a
    value of that kind, and an integer field over that limit keeps its
    text; the kind is integer for [mid], [x], [y], [z] and floating-point
    for the sixteen other known fields. *)
Theorem parse_state_data_keys_and_kinds (line : string) :
  exists fields,
    StateProtocol.parse_state_data line = Py.Ok fields
    /\ (exists lead trail,
          Grammar.all_chars Py.isspace lead = true
          /\ Grammar.all_chars Py.isspace trail = true
          /\ line = lead +:+ Py.join ";" (Spec.segments line) +:+ trail)
    /\ Forall (fun seg => Py.contains ";" seg = false) (Spec.segments line)
    /\ NoDup (Py.dict_keys fields)
    /\ (forall k, In k (Py.dict_keys fields) <-> Spec.key_present line k)
    /\ (forall k, In k (Py.dict_keys fields) -> Spec.substring_of k line)
    /\ (forall k rv ty,
          Spec.last_field line k rv ->
          Py.dict_get k StateProtocol.state_types = Some ty ->
          StateProtocol.numeral ty rv ->
          StateProtocol.within_limit ty rv ->
          exists v, Py.dict_get k fields = Some v
                    /\ StateProtocol.has_type ty v)
    /\ (forall k rv ty,
          Spec.last_field line k rv ->
          Py.dict_get k StateProtocol.state_types = Some ty ->
          ~ StateProtocol.within_limit ty rv ->
          ty = StateProtocol.Tint
          /\ Py.dict_get k fields = Some (Json.VStr rv))
    /\ (forall k, In k ["mid"; "x"; "y"; "z"] ->
          Py.dict_get k StateProtocol.state_types = Some StateProtocol.Tint)
    /\ (forall k,
          In k ["pitch"; "roll"; "yaw"; "vgx"; "vgy"; "vgz"; "templ"; "temph";
                "tof"; "h"; "bat"; "baro"; "time"; "agx"; "agy"; "agz"] ->
          Py.dict_get k StateProtocol.state_types = Some StateProtocol.Tfloat).
Proof.
  eexists. split; [apply parse_state_data_fold|].
  pose proof (parse_state_data_fold line) as Hparse.
  destruct (segments_spec line) as (Hline & _ & Hsemi).
  split; [exact Hline|]. split; [exact Hsemi|].
  split; [by eapply parse_NoDup|].
  split; [intros k; by apply parse_keys|].
  split; [intros k Hk; by apply key_present_substring, (parse_keys _ _ _ Hparse)|].
  split.
  { intros k rv ty Hlast Hty Hnum Hlim.
    destruct (parse_last_field _ _ _ Hlast) as (fields & Hf & Hget).
    rewrite Hparse in Hf. injection Hf as <-.
    eexists. split; [done|]. by apply typed_value_numeral. }
  split.
  { intros k rv ty Hlast Hty Hlim.
    destruct (parse_last_field _ _ _ Hlast) as (fields & Hf & Hget).
    rewrite Hparse in Hf. injection Hf as <-.
    destruct (typed_value_over_limit _ _ _ Hty Hlim) as [-> Hv].
    split; [done|]. by rewrite Hget, Hv. }
  split; intros k Hk; cbn in Hk; intuition (subst; reflexivity).
Qed.

(** C3. When the last value of a known field is a malformed numeral,
    [parse_state_data] still returns a field map (no exception), the
    field holds the original text, and every other field of the line is
    present with the value it would have had anyway. *)
Theorem parse_state_data_malformed_field (line k rv : string)
    (ty : StateProtocol.py_type) :
  Spec.last_field line k rv ->
  Py.dict_get k StateProtocol.state_types = Some ty ->
  ~ StateProtocol.numeral ty rv ->
  exists fields,
    StateProtocol.parse_state_data line = Py.Ok fields
    /\ Py.dict_get k fields = Some (Json.VStr rv)
    /\ (forall k', Spec.key_present line k' -> In k' (Py.dict_keys fields))
    /\ (forall k' rv',
          Spec.last_field line k' rv' ->
          Py.dict_get k' fields = Some (Spec.typed_value k' rv')).
Proof.
  intros Hlast Hty Hbad.
  destruct (parse_last_field _ _ _ Hlast) as (fields & Hparse & Hget).
  exists fields. split; [done|]. split.
  { by rewrite Hget, (typed_value_malformed _ _ _ Hty Hbad). }
  split.
  { intros k' Hk'. by apply (parse_keys _ _ _ Hparse). }
  intros k' rv' Hlast'.
  destruct (parse_last_field _ _ _ Hlast') as (fields' & Hparse' & Hget').
  congruence.
Qed.

Lemma parse_state_data_malformed_field_witness :
  Spec.last_field "bat:abc;mid:4" "bat" "abc"
  /\ Py.dict_get "bat" StateProtocol.state_types = Some StateProtocol.Tfloat
  /\ ~ StateProtocol.numeral StateProtocol.Tfloat "abc"
  /\ exists fields,
       StateProtocol.parse_state_data "bat:abc;mid:4" = Py.Ok fields
       /\ Py.dict_get "bat" fields = Some (Json.VStr "abc")
       /\ (forall k', Spec.key_present "bat:abc;mid:4" k' ->
                      In k' (Py.dict_keys fields))
       /\ (forall k' rv',
             Spec.last_field "bat:abc;mid:4" k' rv' ->
             Py.dict_get k' fields = Some (Spec.typed_value k' rv')).
Proof.
  assert (Spec.last_field "bat:abc;mid:4" "bat" "abc") as Hlast.
  { exists [], "bat:abc", ["mid:4"]. split; [reflexivity|].
    split; [split; reflexivity|].
    intros seg' value' [<-|[]] [Heq _]. discriminate Heq. }
  assert (~ StateProtocol.numeral StateProtocol.Tfloat "abc") as Hbad.
  { intros [f Hf]%float_accepts_numerals. vm_compute in Hf. discriminate Hf. }
  split; [exact Hlast|]. split; [reflexivity|]. split; [exact Hbad|].
  exact (parse_state_data_malformed_field "bat:abc;mid:4" "bat" "abc"
           StateProtocol.Tfloat Hlast eq_refl Hbad).
Defined.

(** C8, as stated, fails: the description given to a field unknown to the
    tables is the literal ["Unknown parameter"], not ["unknown"]. *)
Lemma unknown_description_counterexample :
  ~ (forall line k rv,
       Spec.last_field line k rv ->
       Py.dict_get k StateProtocol.state_types = None ->
       exists fields e,
         StateProtocol.parse_state_data line = Py.Ok fields
         /\ Py.dict_get k
              (Json.envelope_fields
                 (StateProtocol.enhanced_state line fields 0))
            = Some e
         /\ Json.entry_value e = Json.VStr rv
         /\ Json.entry_description e = "unknown").
Proof.
  intros H.
  destruct (H "foo:1" "foo" "1") as (fields & e & Hparse & Hget & _ & Hdesc).
  - exists [], "foo:1", []. split; [reflexivity|].
    split; [split; reflexivity|]. intros ? ? [].
  - reflexivity.
  - vm_compute in Hparse. injection Hparse as <-.
    vm_compute in Hget. injection Hget as <-.
    discriminate Hdesc.
Qed.

(** C8, amended. A field whose key is in neither table keeps the text of
    its value, and the state envelope that is broadcast gives it that
    text as value and the description ["Unknown parameter"]. *)
Theorem unknown_field_passes_through (line k rv : string) (wall_clock : Q) :
  Spec.last_field line k rv ->
  Py.dict_get k StateProtocol.state_types = None ->
  exists fields,
    StateProtocol.parse_state_data line = Py.Ok fields
    /\ Py.dict_get k fields = Some (Json.VStr rv)
    /\ Py.dict_get k
         (Json.envelope_fields
            (StateProtocol.enhanced_state line fields wall_clock))
       = Some {| Json.entry_value := Json.VStr rv;
                 Json.entry_description := "Unknown parameter" |}
    /\ (forall g now self,
          StateProtocol.broadcast_to_websockets g = true ->
          exists self',
            StateProtocol.datagram_received g (Some line) now wall_clock self
            = Py.Ok (self',
                     [Asyncio.Log Asyncio.DEBUG "Tello state received";
                      Asyncio.SpawnBroadcast
                        (StateProtocol.enhanced_state line fields wall_clock)])).
Proof.
  intros Hlast Hty.
  destruct (parse_last_field _ _ _ Hlast) as (fields & Hparse & Hget).
  rewrite (typed_value_unknown _ _ Hty) in Hget.
  exists fields. split; [done|]. split; [done|]. split.
  - cbn [StateProtocol.enhanced_state Json.envelope_fields].
    rewrite fill_fields_get by by eapply parse_NoDup.
    rewrite Hget. unfold Spec.entry_of, Py.dict_get_default.
    assert (Py.dict_get k StateProtocol.state_descriptions = None) as ->; [|done].
    apply dict_get_None. rewrite <- tables_same_keys. by apply dict_get_None.
  - intros g now self Hb. unfold StateProtocol.datagram_received.
    rewrite Hparse, Hb. by eexists.
Qed.

Lemma unknown_field_passes_through_witness :
  Spec.last_field "foo:1;bat:87" "foo" "1"
  /\ Py.dict_get "foo" StateProtocol.state_types = None
  /\ exists fields,
       StateProtocol.parse_state_data "foo:1;bat:87" = Py.Ok fields
       /\ Py.dict_get "foo" fields = Some (Json.VStr "1")
       /\ Py.dict_get "foo"
            (Json.envelope_fields
               (StateProtocol.enhanced_state "foo:1;bat:87" fields 0))
          = Some {| Json.entry_value := Json.VStr "1";
                    Json.entry_description := "Unknown parameter" |}
       /\ (forall g now self,
             StateProtocol.broadcast_to_websockets g = true ->
             exists self',
               StateProtocol.datagram_received g (Some "foo:1;bat:87") now 0 self
               = Py.Ok (self',
                        [Asyncio.Log Asyncio.DEBUG "Tello state received";
                         Asyncio.SpawnBroadcast
                           (StateProtocol.enhanced_state "foo:1;bat:87"
                              fields 0)])).
Proof.
  assert (Spec.last_field "foo:1;bat:87" "foo" "1") as Hlast.
  { exists [], "foo:1", ["bat:87"]. split; [reflexivity|].
    split; [split; reflexivity|].
    intros seg' value' [<-|[]] [Heq _]. discriminate Heq. }
  split; [exact Hlast|]. split; [reflexivity|].
  exact (unknown_field_passes_through "foo:1;bat:87" "foo" "1" 0 Hlast eq_refl).
Defined.

(* ===================================================================== *)
(** * The command channel: queueing, flushing, dropping *)
(* ===================================================================== *)

Section Queue.
Import Py Json Asyncio CommandProtocol Notions.

Lemma and_then_fst (f g : method) (self : TelloProtocol) :
  fst (and_then f g self) = fst (g (fst (f self))).
Proof. unfold and_then. destruct (f self), (g _). done. Qed.

Lemma and_then_snd (f g : method) (self : TelloProtocol) :
  snd (and_then f g self) = snd (f self) ++ snd (g (fst (f self))).
Proof. unfold and_then. destruct (f self) as [s1 e1]. cbn. by destruct (g s1). Qed.


Lemma send_to_tello_taken (m : message) (self : TelloProtocol)
    (t : Asyncio.transport) :
  connected self = true -> transport self = Some t ->
  send_to_tello Taken m self = (self, sent t (tello_addr self) m).
Proof. intros Hc Ht. unfold send_to_tello. by rewrite Hc, Ht. Qed.

Lemma send_to_tello_refused (m : message) (self : TelloProtocol)
    (t : Asyncio.transport) :
  connected self = true -> transport self = Some t ->
  send_to_tello Refused m self
  = (fst (error_received self),
     sent t (tello_addr self) m ++ snd (error_received self)).
Proof.
  intros Hc Ht. unfold send_to_tello. rewrite Hc, Ht. cbn [negb].
  unfold and_then, within_sendto. by destruct (error_received self).
Qed.

Lemma error_received_fields (self : TelloProtocol) :
  connected (fst (error_received self)) = false
  /\ transport (fst (error_received self)) = transport self
  /\ command_queue (fst (error_received self)) = command_queue self
  /\ tello_addr (fst (error_received self)) = tello_addr self
  /\ last_response_time (fst (error_received self)) = last_response_time self
  /\ List.filter is_sendto (snd (error_received self)) = [].
Proof.
  unfold error_received, _schedule_reconnect, and_then. cbn.
  by destruct (reconnect_task self).
Qed.









End Queue.



(** C10. With the connected flag set and no transport, [send_to_tello]
    only logs a warning: nothing is transmitted, the object (its queue
    included) is unchanged, so a later [connection_made] behaves as if
    the command had never been given. *)
Theorem send_without_transport_drops
    (self : CommandProtocol.TelloProtocol) (m : CommandProtocol.message)
    (outcome : Asyncio.sendto_outcome) :
  CommandProtocol.connected self = true ->
  CommandProtocol.transport self = None ->
  CommandProtocol.send_to_tello outcome m self
  = (self, [Asyncio.Log Asyncio.WARNING "Cannot send message: Transport not ready"])
  /\ List.filter Asyncio.is_sendto
       (snd (CommandProtocol.send_to_tello outcome m self)) = []
  /\ CommandProtocol.command_queue
       (fst (CommandProtocol.send_to_tello outcome m self))
     = CommandProtocol.command_queue self
  /\ forall t fuel outcomes probe,
       CommandProtocol.connection_made t fuel outcomes probe
         (fst (CommandProtocol.send_to_tello outcome m self))
       = CommandProtocol.connection_made t fuel outcomes probe self.
Proof.
  intros Hc Ht. unfold CommandProtocol.send_to_tello. rewrite Hc, Ht. cbn.
  done.
Qed.

Lemma send_without_transport_drops_witness :
  CommandProtocol.connected Spec.stalled_protocol = true
  /\ CommandProtocol.transport Spec.stalled_protocol = None
  /\ CommandProtocol.send_to_tello Asyncio.Taken
       (CommandProtocol.Text "takeoff") Spec.stalled_protocol
     = (Spec.stalled_protocol,
        [Asyncio.Log Asyncio.WARNING "Cannot send message: Transport not ready"]).
Proof.
  split; [reflexivity|]. split; [reflexivity|].
  exact (proj1 (send_without_transport_drops Spec.stalled_protocol
                  (CommandProtocol.Text "takeoff") Asyncio.Taken
                  eq_refl eq_refl)).
Defined.

(* ===================================================================== *)
(** * Reconnection episodes *)
(* ===================================================================== *)

Section Backoff.
Import Py Json Asyncio CommandProtocol Spec.

Lemma sleeps_app (a b : list effect) : sleeps (a ++ b) = sleeps a ++ sleeps b.
Proof. apply flat_map_app. Qed.

Lemma sleeps_log (l : level) (text : string) (es : list effect) :
  sleeps (Log l text :: es) = sleeps es.
Proof. reflexivity. Qed.

Lemma sleeps_sleep (d : Q) (es : list effect) :
  sleeps (Sleep d :: es) = d :: sleeps es.
Proof. reflexivity. Qed.

(** The two ways out of the [while] test. *)
Lemma loop_test_attempt (retries : nat) (d : Q) (g : globals)
    (self : TelloProtocol) :
  connected self = false -> (retries < max_retries)%nat ->
  loop_test retries d g self
  = ({| broadcast_to_websockets := broadcast_to_websockets g;
        need_reconnect := true |},
     fst (set_reconnect_task (Running (Sleeping retries d)) self),
     [Log INFO "Reconnection attempt"; Sleep d]).
Proof.
  intros Hc Hr. unfold loop_test. rewrite Hc.
  apply Nat.ltb_lt in Hr as ->. done.
Qed.

Lemma loop_test_exit (retries : nat) (d : Q) (g : globals)
    (self : TelloProtocol) :
  connected self = true \/ (max_retries <= retries)%nat ->
  loop_test retries d g self
  = (g, fst (set_reconnect_task Done self),
     if negb (connected self) then [failed] else []).
Proof.
  intros H. unfold loop_test.
  destruct H as [->|Hr]; [done|].
  apply Nat.ltb_ge in Hr as ->. by rewrite andb_false_r.
Qed.

Lemma episode_done (n k : nat) (others : nat -> bool) (g : globals)
    (self : TelloProtocol) :
  reconnect_task self = Done ->
  exists self',
    episode n k others g self = (g, self', [])
    /\ reconnect_task self' = Done.
Proof.
  revert k self. induction n as [|n IH]; intros k self Hd; cbn.
  - by exists self.
  - unfold _reconnect. cbn. rewrite Hd.
    set (self1 := {| transport := _ |}).
    destruct (IH (S k) self1 eq_refl) as (self' & -> & Hd'). by exists self'.
Qed.

(** Whatever the rest of the program does to [self.connected], the
    timers of an episode are an initial part of the backoff sequence
    and the attempts never exceed [max_retries]. *)
Lemma episode_sleeping (n : nat) :
  forall (k : nat) (others : nat -> bool) (g : globals)
         (self : TelloProtocol) (r : nat),
    (r < max_retries)%nat ->
    reconnect_task self = Running (Sleeping r (delay_before r)) ->
    exists m,
      (S r + m <= max_retries)%nat
      /\ sleeps (snd (episode n k others g self))
         = map delay_before (seq (S r) m).
Proof.
  induction n as [|n IH]; intros k others g self r Hr Htask.
  - exists 0%nat. split; [lia|done].
  - cbn [episode]. unfold _reconnect at 1.
    set (self0 := fst (set_connected (others k) self)).
    assert (reconnect_task self0 = Running (Sleeping r (delay_before r)))
      as -> by done.
    change (Qmin 30 (delay_before r * (3 # 2))) with (delay_before (S r)).
    destruct (connected self0) eqn:Hc.
    + rewrite loop_test_exit by auto.
      destruct (episode_done n (S k) others g
                  (fst (set_reconnect_task Done self0)) eq_refl)
        as (self' & -> & _).
      exists 0%nat. split; [lia|]. by rewrite Hc.
    + destruct (decide (S r < max_retries)%nat) as [Hlt|Hge].
      * rewrite loop_test_attempt by done.
        match goal with
        | |- context [episode n (S k) others ?g1 ?s1] =>
            destruct (IH (S k) others g1 s1 (S r) Hlt eq_refl)
              as (m & Hm & Hs);
            destruct (episode n (S k) others g1 s1) as [[g2 self2] es2]
        end.
        exists (S m). split; [lia|]. cbn [snd] in *.
        rewrite sleeps_app, Hs. done.
      * rewrite loop_test_exit by (right; lia).
        destruct (episode_done n (S k) others g
                    (fst (set_reconnect_task Done self0)) eq_refl)
          as (self' & -> & _).
        exists 0%nat. split; [lia|]. by rewrite Hc.
Qed.

Lemma episode_attempts (n : nat) (others : nat -> bool) (g : globals)
    (self : TelloProtocol) :
  reconnect_task self = Running AtStart ->
  exists attempts,
    (attempts <= max_retries)%nat
    /\ sleeps (snd (episode n 0 others g self))
       = map delay_before (seq 0 attempts).
Proof.
  intros Htask. destruct n as [|n]; [exists 0%nat; split; [lia|done]|].
  cbn [episode]. unfold _reconnect at 1.
  set (self0 := fst (set_connected (others 0%nat) self)).
  assert (reconnect_task self0 = Running AtStart) as -> by done.
  destruct (connected self0) eqn:Hc.
  - rewrite loop_test_exit by auto.
    destruct (episode_done n 1 others g
                (fst (set_reconnect_task Done self0)) eq_refl)
      as (self' & -> & _).
    exists 0%nat. split; [lia|]. by rewrite Hc.
  - rewrite loop_test_attempt by (done || (unfold max_retries; lia)).
    match goal with
    | |- context [episode n 1 others ?g1 ?s1] =>
        destruct (episode_sleeping n 1 others g1 s1 0
                    ltac:(unfold max_retries; lia) eq_refl)
          as (m & Hm & Hs);
        destruct (episode n 1 others g1 s1) as [[g2 self2] es2]
    end.
    exists (S m). split; [lia|]. cbn [snd] in *.
    rewrite !sleeps_app, Hs. done.
Qed.

(** When the channel stays disconnected the episode runs through all
    the attempts, reports the failure and ends. *)
Lemma episode_exhaust_sleeping (n : nat) :
  forall (k : nat) (others : nat -> bool) (g : globals)
         (self : TelloProtocol) (r : nat) g' self' es,
    (forall j, others j = false) ->
    (r < max_retries)%nat ->
    reconnect_task self = Running (Sleeping r (delay_before r)) ->
    (max_retries - r <= n)%nat ->
    episode n k others g self = (g', self', es) ->
    sleeps es = map delay_before (seq (S r) (max_retries - S r))
    /\ reconnect_task self' = Done
    /\ last es = Some failed.
Proof.
  induction n as [|n IH];
    intros k others g self r g' self' es Hall Hr Htask Hn Hep.
  - lia.
  - cbn [episode] in Hep. unfold _reconnect at 1 in Hep.
    set (self0 := fst (set_connected (others k) self)) in Hep.
    assert (reconnect_task self0 = Running (Sleeping r (delay_before r)))
      as Htask0 by done.
    rewrite Htask0 in Hep.
    change (Qmin 30 (delay_before r * (3 # 2)))
      with (delay_before (S r)) in Hep.
    assert (connected self0 = false) as Hc by apply Hall.
    destruct (decide (S r < max_retries)%nat) as [Hlt|Hge].
    + rewrite loop_test_attempt in Hep by done.
      destruct (episode n (S k) others _ _) as [[g2 self2] es2] eqn:E
        in Hep.
      injection Hep as <- <- <-.
      match type of E with
      | episode _ _ _ ?g1 ?s1 = _ =>
          destruct (IH (S k) others g1 s1 (S r) g2 self2 es2 Hall Hlt
                      eq_refl ltac:(lia) E) as (Hs & Hd & Hl)
      end.
      rewrite ?sleeps_app, ?sleeps_log, ?sleeps_sleep, Hs.
      split; [|split; [done|]].
      * replace (max_retries - S r)%nat
          with (S (max_retries - S (S r))) by lia. reflexivity.
      * by rewrite ?last_app, ?last_cons, Hl.
    + rewrite loop_test_exit in Hep by (right; lia).
      destruct (episode_done n (S k) others g
                  (fst (set_reconnect_task Done self0)) eq_refl)
        as (self'' & Hdone & Hd).
      rewrite Hdone, Hc in Hep. injection Hep as <- <- <-.
      replace (max_retries - S r)%nat with 0%nat by lia. done.
Qed.

Lemma episode_exhaust (n : nat) (others : nat -> bool) (g : globals)
    (self : TelloProtocol) g' self' es :
  (forall j, others j = false) ->
  reconnect_task self = Running AtStart ->
  (max_retries < n)%nat ->
  episode n 0 others g self = (g', self', es) ->
  sleeps es = map delay_before (seq 0 max_retries)
  /\ reconnect_task self' = Done
  /\ last es = Some failed.
Proof.
  intros Hall Htask Hn Hep. destruct n as [|n]; [lia|].
  cbn [episode] in Hep. unfold _reconnect at 1 in Hep.
  set (self0 := fst (set_connected (others 0%nat) self)) in Hep.
  assert (reconnect_task self0 = Running AtStart) as Htask0 by done.
  rewrite Htask0 in Hep.
  assert (connected self0 = false) as Hc by apply Hall.
  rewrite loop_test_attempt in Hep by (done || (unfold max_retries; lia)).
  destruct (episode n 1 others _ _) as [[g2 self2] es2] eqn:E in Hep.
  injection Hep as <- <- <-.
  match type of E with
  | episode _ _ _ ?g1 ?s1 = _ =>
      destruct (episode_exhaust_sleeping n 1 others g1 s1 0%nat g2 self2 es2
                  Hall ltac:(unfold max_retries; lia) eq_refl ltac:(lia) E)
        as (Hs & Hd & Hl)
  end.
  rewrite ?sleeps_app, ?sleeps_log, ?sleeps_sleep, Hs.
  split; [reflexivity|]. split; [done|].
  by rewrite ?last_app, ?last_cons, Hl.
Qed.

(** The first five delays grow by half, the others sit at the cap. *)
Lemma delay_before_values :
  Forall2 Qeq (map delay_before (seq 0 max_retries))
    [5; 15 # 2; 45 # 4; 135 # 8; 405 # 16; 30; 30; 30; 30; 30]%Q.
Proof. repeat constructor. Qed.

Lemma delay_before_capped (n : nat) : (delay_before n <= 30)%Q.
Proof. destruct n; [done|]. cbn [delay_before]. apply Q.le_min_l. Qed.

End Backoff.

(** C5. Within one episode, whatever happens to the connected flag in
    between, the timers armed before the attempts are an initial part of
    the sequence that starts at 5 and continues with
    [min(30, previous * 1.5)], and there are at most 10 of them; when the
    channel stays disconnected and the task is resumed until it ends, all
    10 attempts are made, the task is done, its last act is the error
    report, and resuming it again does nothing. *)
Theorem reconnect_backoff (n : nat) (others : nat -> bool)
    (g : CommandProtocol.globals) (self : CommandProtocol.TelloProtocol) :
  CommandProtocol.reconnect_task self
  = CommandProtocol.Running CommandProtocol.AtStart ->
  (exists attempts,
     (attempts <= 10)%nat
     /\ Asyncio.sleeps (snd (CommandProtocol.episode n 0 others g self))
        = map Spec.delay_before (seq 0 attempts))
  /\ ((forall k, others k = false) -> (10 < n)%nat ->
      Asyncio.sleeps (snd (CommandProtocol.episode n 0 others g self))
      = map Spec.delay_before (seq 0 10)
      /\ CommandProtocol.reconnect_task
           (snd (fst (CommandProtocol.episode n 0 others g self)))
         = CommandProtocol.Done
      /\ last (snd (CommandProtocol.episode n 0 others g self))
         = Some Spec.failed
      /\ forall g',
           snd (CommandProtocol._reconnect g'
                  (snd (fst (CommandProtocol.episode n 0 others g self))))
           = [])
  /\ Spec.delay_before 0 = 5%Q
  /\ (forall i,
        Spec.delay_before (S i) = Qmin 30 (Spec.delay_before i * (3 # 2)))
  /\ Forall2 Qeq (map Spec.delay_before (seq 0 10))
       [5; 15 # 2; 45 # 4; 135 # 8; 405 # 16; 30; 30; 30; 30; 30]%Q.
Proof.
  intros Htask. split; [by apply episode_attempts|]. split.
  { intros Hall Hn.
    destruct (CommandProtocol.episode n 0 others g self)
      as [[g1 self1] es] eqn:E.
    destruct (episode_exhaust n others g self g1 self1 es Hall Htask Hn E)
      as (Hs & Hd & Hl).
    cbn [fst snd]. repeat split; [done..|].
    intros g'. unfold CommandProtocol._reconnect. by rewrite Hd. }
  split; [reflexivity|]. split; [reflexivity|]. apply delay_before_values.
Qed.

Lemma reconnect_backoff_witness :
  CommandProtocol.reconnect_task Spec.lost_protocol
  = CommandProtocol.Running CommandProtocol.AtStart
  /\ (forall k : nat, (fun _ : nat => false) k = false)
  /\ (10 < 11)%nat
  /\ Asyncio.sleeps
       (snd (CommandProtocol.episode 11 0 (fun _ => false)
               CommandProtocol.module_init Spec.lost_protocol))
     = map Spec.delay_before (seq 0 10).
Proof.
  split; [reflexivity|]. split; [reflexivity|]. split; [exact (le_n 11)|].
  exact (proj1 (proj1 (proj2
           (reconnect_backoff 11 (fun _ => false) CommandProtocol.module_init
              Spec.lost_protocol eq_refl))
           (fun _ => eq_refl) (le_n 11))).
Defined.

(* ===================================================================== *)
(** * The bridge: health monitor and supervising loop *)
(* ===================================================================== *)

Section BridgeFacts.
Import Py Json Asyncio CommandProtocol Bridge Notions.

Lemma Qgt_bool_true (a b : Q) : Qgt_bool a b = true <-> (b < a)%Q.
Proof.
  unfold Qgt_bool. rewrite negb_true_iff. split.
  - intros H. apply Qnot_le_lt. intros Hle.
    apply Qle_bool_iff in Hle. congruence.
  - intros H. destruct (Qle_bool a b) eqn:E; [|done].
    apply Qle_bool_iff in E. by apply Qlt_not_le in H.
Qed.

Lemma call_effects (ref : nat) (m : method) (w : world)
    (self : TelloProtocol) :
  objects w !! ref = Some self -> snd (call ref m w) = snd (m self).
Proof. intros H. unfold call. rewrite H. by destruct (m self). Qed.

Lemma call_br_globals (ref : nat) (m : method) (w : world) :
  br_globals (fst (call ref m w)) = br_globals w
  /\ main (fst (call ref m w)) = main w.
Proof.
  unfold call. destruct (objects w !! ref) as [self|]; [|done].
  by destruct (m self).
Qed.

Lemma health_flag_quiet (w : world) :
  List.filter is_sendto (snd (health_flag w)) = [].
Proof. unfold health_flag. by destruct (need_reconnect _). Qed.

Lemma health_monitor_effects (now : Q) (o : sendto_outcome) (w : world) :
  snd (_health_monitor now o w)
  = snd (health_check now o w)
    ++ snd (health_flag (fst (health_check now o w)))
    ++ [Sleep check_interval].
Proof.
  unfold _health_monitor. destruct (health_check now o w) as [w1 es1].
  cbn [fst snd]. by destruct (health_flag w1).
Qed.

Lemma health_check_never_received (now : Q) (o : sendto_outcome) (w : world)
    (ref : nat) (self : TelloProtocol) :
  tello_protocol w = Some ref -> objects w !! ref = Some self ->
  last_response_time self = 0%Q ->
  health_check now o w = (w, []).
Proof.
  intros Hp Ho Hl. unfold health_check. rewrite Hp, Ho, Hl.
  by destruct (connected self).
Qed.

Lemma health_check_silent (now : Q) (o : sendto_outcome) (w : world)
    (ref : nat) (self : TelloProtocol) :
  tello_protocol w = Some ref -> objects w !! ref = Some self ->
  connected self = true ->
  (0 < last_response_time self)%Q ->
  (15 < now - last_response_time self)%Q ->
  snd (health_check now o w)
  = Log WARNING "No response from Tello, checking connection..."
      :: snd (send_to_tello o (Text "command") self).
Proof.
  intros Hp Ho Hc Hpos Hsil. unfold health_check. rewrite Hp, Ho, Hc.
  apply Qgt_bool_true in Hpos as ->. apply Qgt_bool_true in Hsil as ->.
  cbn [andb].
  pose proof (call_effects ref (send_to_tello o (Text "command")) w self Ho)
    as Hcall.
  destruct (call ref _ w) as [w' es]. cbn [snd] in *. by rewrite Hcall.
Qed.

Lemma send_to_tello_datagrams (o : sendto_outcome) (m : message)
    (self : TelloProtocol) (t : Asyncio.transport) :
  connected self = true -> transport self = Some t ->
  List.filter is_sendto (snd (send_to_tello o m self))
  = [sendto_of t (tello_addr self) m].
Proof.
  intros Hc Ht. destruct o.
  - by rewrite (send_to_tello_taken _ _ t).
  - rewrite (send_to_tello_refused _ _ t) by done. cbn [snd].
    rewrite List.filter_app.
    by destruct (error_received_fields self) as (_ & _ & _ & _ & _ & ->).
Qed.

End BridgeFacts.

(** C6. A tick of the health monitor ends by arming the 10-unit timer.
    While [last_response_time] still has its initial value 0 the tick
    sends nothing and logs no silence warning, whatever the clock shows.
    When the channel is connected, a datagram has been received (which
    sets [last_response_time] to the clock, a positive instant) and the
    silence exceeds 15, the tick logs the warning and calls
    [send_to_tello("command")] exactly once, which on an open transport
    hands it exactly one probe, whether the transport takes it or not. *)
Theorem health_monitor_tick (w : Bridge.world) (now : Q)
    (outcome : Asyncio.sendto_outcome) (ref : nat)
    (self : CommandProtocol.TelloProtocol) :
  Bridge.tello_protocol w = Some ref ->
  Bridge.objects w !! ref = Some self ->
  last (snd (Bridge._health_monitor now outcome w)) = Some (Asyncio.Sleep 10)
  /\ (CommandProtocol.last_response_time self = 0%Q ->
      snd (Bridge.health_check now outcome w) = []
      /\ List.filter Asyncio.is_sendto
           (snd (Bridge._health_monitor now outcome w)) = [])
  /\ (CommandProtocol.connected self = true ->
      (0 < CommandProtocol.last_response_time self)%Q ->
      (15 < now - CommandProtocol.last_response_time self)%Q ->
      snd (Bridge.health_check now outcome w)
      = Asyncio.Log Asyncio.WARNING
          "No response from Tello, checking connection..."
          :: snd (CommandProtocol.send_to_tello outcome
                    (CommandProtocol.Text "command") self)
      /\ forall t,
           CommandProtocol.transport self = Some t ->
           List.filter Asyncio.is_sendto
             (snd (Bridge._health_monitor now outcome w))
           = [Asyncio.Sendto t (Py.encode_utf8 "command")
                (CommandProtocol.tello_addr self)])
  /\ (forall g decoded t0 p,
        CommandProtocol.last_response_time
          (fst (CommandProtocol.datagram_received g decoded t0 p)) = t0).
Proof.
  intros Hp Ho. rewrite health_monitor_effects. split.
  { by rewrite !app_assoc, last_snoc. }
  split.
  { intros Hl.
    rewrite (health_check_never_received now outcome w ref self) by done.
    split; [done|]. cbn [fst snd app].
    by rewrite List.filter_app, health_flag_quiet. }
  split.
  { intros Hc Hpos Hsil.
    rewrite (health_check_silent now outcome w ref self) by done.
    split; [done|]. intros t Ht.
    rewrite !List.filter_app, health_flag_quiet.
    cbn [List.filter Asyncio.is_sendto].
    by rewrite (send_to_tello_datagrams _ _ _ t). }
  intros g [text|] t0 p; unfold CommandProtocol.datagram_received;
    by rewrite !and_then_fst.
Qed.

Lemma health_monitor_tick_witness :
  Bridge.tello_protocol Spec.heard = Some 0%nat
  /\ Bridge.objects Spec.heard !! 0%nat = Some Spec.heard_protocol
  /\ CommandProtocol.connected Spec.heard_protocol = true
  /\ (0 < CommandProtocol.last_response_time Spec.heard_protocol)%Q
  /\ (15 < 20 - CommandProtocol.last_response_time Spec.heard_protocol)%Q
  /\ CommandProtocol.transport Spec.heard_protocol = Some 0%nat
  /\ List.filter Asyncio.is_sendto
       (snd (Bridge._health_monitor 20 Asyncio.Refused Spec.heard))
     = [Asyncio.Sendto 0%nat (Py.encode_utf8 "command") ("192.168.10.1", 8889)].
Proof.
  repeat (split; [reflexivity|]).
  exact (proj2 (proj1 (proj2 (proj2
           (health_monitor_tick Spec.heard 20 Asyncio.Refused 0%nat
              Spec.heard_protocol eq_refl eq_refl)))
           eq_refl eq_refl eq_refl) 0%nat eq_refl).
Defined.

(* ===================================================================== *)
(** * The reconnect signal and the supervising loop *)
(* ===================================================================== *)

Section Supervision.
Import Py Json Asyncio CommandProtocol Bridge Spec.

Lemma lost_no_rebuild (self : TelloProtocol) :
  existsb rebuilds (snd (connection_lost self)) = false
  /\ existsb rebuilds (snd (error_received self)) = false.
Proof.
  unfold connection_lost, error_received, _schedule_reconnect, and_then.
  cbn. by destruct (reconnect_task self).
Qed.

Lemma send_to_tello_no_rebuild (o : sendto_outcome) (m : message)
    (self : TelloProtocol) :
  existsb rebuilds (snd (send_to_tello o m self)) = false.
Proof.
  unfold send_to_tello. destruct (connected self); cbn [negb]; [|done].
  destruct (transport self) as [t|]; [|done].
  rewrite and_then_snd, existsb_app. cbn [fst snd existsb rebuilds orb].
  destruct o; [done|]. apply lost_no_rebuild.
Qed.

Lemma datagram_received_no_rebuild (g : CommandProtocol.globals) (decoded : option string)
    (now : Q) (self : TelloProtocol) :
  existsb rebuilds (snd (datagram_received g decoded now self)) = false.
Proof.
  unfold datagram_received. destruct decoded; cbn; [|done].
  by destruct (broadcast_to_websockets g).
Qed.

Lemma reconnect_no_rebuild (g : CommandProtocol.globals) (self : TelloProtocol) :
  existsb rebuilds (snd (_reconnect g self)) = false.
Proof.
  unfold _reconnect, loop_test.
  destruct (reconnect_task self) as [|[|r d]|]; cbn; try reflexivity;
    destruct (negb (connected self)); cbn; try reflexivity;
    match goal with
    | |- context [if ?b then _ else _] => destruct b; reflexivity
    end.
Qed.

Lemma call_no_rebuild (ref : nat) (m : method) (w : world) :
  (forall self, existsb rebuilds (snd (m self)) = false) ->
  existsb rebuilds (snd (call ref m w)) = false.
Proof.
  intros Hm. unfold call. destruct (objects w !! ref) as [self|]; [|done].
  specialize (Hm self). by destruct (m self).
Qed.

Lemma call_idle (ref : nat) (m : method) (w : world) :
  idle w -> idle (fst (call ref m w)).
Proof.
  unfold idle. by destruct (call_br_globals ref m w) as [-> ->].
Qed.

(** No event of the loop raises the flag the supervising loop reads. *)
Lemma step_idle (ev : event) (w : world) :
  idle w ->
  idle (fst (step ev w)) /\ existsb rebuilds (snd (step ev w)) = false.
Proof.
  intros Hidle.
  destruct ev as [ref decoded now|ref|ref|ref|now o|endpoint o|m o];
    cbn [step].
  - split; [by apply call_idle|].
    apply call_no_rebuild, datagram_received_no_rebuild.
  - split; [by apply call_idle|].
    apply call_no_rebuild. intros self. apply lost_no_rebuild.
  - split; [by apply call_idle|].
    apply call_no_rebuild. intros self. apply lost_no_rebuild.
  - destruct (objects w !! ref) as [self|]; [|done].
    pose proof (reconnect_no_rebuild (cp_globals w) self) as Hq.
    by destruct (_reconnect (cp_globals w) self) as [[g self'] es].
  - assert (idle (fst (health_check now o w))
            /\ existsb rebuilds (snd (health_check now o w)) = false)
      as [Hi1 Hq1].
    { unfold health_check.
      destruct (tello_protocol w) as [ref|]; [|done].
      destruct (objects w !! ref) as [self|] eqn:Ho; [|done].
      destruct (connected self); [|done].
      destruct (_ && _); [|done].
      pose proof (call_idle ref (send_to_tello o (Text "command")) w Hidle)
        as Hi.
      pose proof (call_no_rebuild ref (send_to_tello o (Text "command")) w
                    (send_to_tello_no_rebuild _ _)) as Hq.
      destruct (call ref _ w) as [w' es]. by cbn [fst snd] in *. }
    unfold _health_monitor. destruct (health_check now o w) as [w1 es1].
    cbn [fst snd] in *. unfold health_flag.
    destruct Hi1 as [Hf Hm]. rewrite Hf. cbn [fst snd app].
    split; [by split|]. by rewrite existsb_app, Hq1.
  - unfold _main_loop. destruct Hidle as [Hf Hm]. by rewrite Hm, Hf.
  - unfold WebSocket.on_message.
    destruct (tello_command_handler w) as [ref|]; cbn [option_map]; [|done].
    pose proof (call_idle ref (send_to_tello o m) w Hidle) as Hi.
    pose proof (call_no_rebuild ref (send_to_tello o m) w
                  (send_to_tello_no_rebuild _ _)) as Hq.
    destruct (call ref _ w) as [w' es]. by cbn [fst snd] in *.
Qed.

Lemma run_idle (evs : list event) (w : world) :
  idle w ->
  idle (fst (run evs w)) /\ existsb rebuilds (snd (run evs w)) = false.
Proof.
  revert w. induction evs as [|ev evs IH]; intros w Hidle; [done|].
  cbn [run]. destruct (step_idle ev w Hidle) as [Hidle1 Hq1].
  destruct (step ev w) as [w1 es1]. cbn [fst snd] in *.
  destruct (IH w1 Hidle1) as [Hidle2 Hq2].
  destruct (run evs w1) as [w2 es2]. cbn [fst snd] in *.
  split; [done|]. by rewrite existsb_app, Hq1, Hq2.
Qed.

Lemma start_idle (t : Asyncio.transport) (probe : sendto_outcome)
    (addr : address) :
  idle (fst (start t probe (imported addr))).
Proof. by destruct probe. Qed.

End Supervision.

(** C1, where the code departs from the claim. [_reconnect] raises
    [need_reconnect] of [command_protocol.py], while [_main_loop] and
    [_health_monitor] read the name that the [from ... import] bound in
    [tello_bridge/__init__.py]. On the sample run the signal is up in the
    first module and the supervising loop only sleeps; and on every run
    from the started bridge the flag read by the loop stays down, the
    loop stays at its top and no transport is closed or endpoint opened:
    the rebuild, the 2-unit settle delay and the probe never happen. *)
Theorem reconnect_signal_never_reaches_main_loop :
  (CommandProtocol.need_reconnect
     (Bridge.cp_globals (fst (Bridge.run Spec.lost_signal_schedule Spec.started)))
   = true
   /\ Bridge.need_reconnect
        (Bridge.br_globals (fst (Bridge.run Spec.lost_signal_schedule Spec.started)))
      = false
   /\ snd (Bridge.run Spec.lost_signal_schedule Spec.started)
      = [Asyncio.Log Asyncio.ERROR "UDP socket error";
         Asyncio.SpawnReconnect;
         Asyncio.Log Asyncio.INFO "Starting reconnection attempts to Tello";
         Asyncio.Log Asyncio.INFO "Reconnection attempt";
         Asyncio.Sleep 5;
         Asyncio.Sleep 1;
         Asyncio.Sleep 10;
         Asyncio.Sleep 1])
  /\ forall (addr : Asyncio.address) (t : Asyncio.transport)
            (probe : Asyncio.sendto_outcome) (evs : list Bridge.event),
       Spec.idle
         (fst (Bridge.run evs
                 (fst (Bridge.start t probe (Bridge.imported addr)))))
       /\ existsb Asyncio.rebuilds
            (snd (Bridge.run evs
                    (fst (Bridge.start t probe (Bridge.imported addr)))))
          = false.
Proof.
  split; [by vm_compute|].
  intros addr t probe evs. apply run_idle, start_idle.
Qed.

(* ===================================================================== *)
(** * The client registry and the broadcast *)
(* ===================================================================== *)

(** C9. Adding the same handle twice and removing it once leaves the
    registry as it was without the handle, and empty when it was empty:
    [add] is idempotent on the membership set. *)
Theorem register_twice_unregister_once (ws : WebSocket.client) :
  WebSocket.remove ws
    (WebSocket.add ws (WebSocket.add ws WebSocket.connected_websockets))
  = Py.Ok ∅
  /\ (forall s : gset WebSocket.client,
        WebSocket.add ws (WebSocket.add ws s) = WebSocket.add ws s)
  /\ (forall s : gset WebSocket.client,
        ws ∉ s ->
        WebSocket.remove ws (WebSocket.add ws (WebSocket.add ws s)) = Py.Ok s).
Proof.
  assert (forall s : gset WebSocket.client,
            WebSocket.add ws (WebSocket.add ws s) = WebSocket.add ws s)
    as Hidem.
  { intros s. unfold WebSocket.add. apply set_eq. intros x.
    rewrite !elem_of_union, !elem_of_singleton. tauto. }
  assert (forall s : gset WebSocket.client,
            ws ∉ s -> WebSocket.remove ws (WebSocket.add ws s) = Py.Ok s)
    as Hremove.
  { intros s Hs. unfold WebSocket.remove, WebSocket.add.
    destruct (decide (ws ∈ {[ws]} ∪ s)) as [_|Hn].
    - f_equal. apply set_eq. intros x.
      rewrite elem_of_difference, elem_of_union, !elem_of_singleton.
      split; [intros [[->|Hx] Hne]; [done|done]|].
      intros Hx. split; [by right|]. by intros ->.
    - destruct Hn. apply elem_of_union. left. by apply elem_of_singleton. }
  split; [|split].
  - rewrite Hidem. apply Hremove. apply not_elem_of_empty.
  - exact Hidem.
  - intros s Hs. rewrite Hidem. by apply Hremove.
Qed.

Section Broadcast.
Import Py Json Asyncio WebSocket.
Context {M : Type}.

Lemma send_coroutine_effects (send : client -> send_outcome) (message m : M)
    (ws ws' : client) :
  In (ws', m) (co_effects (send_coroutine send message ws))
  <-> ws' = ws /\ send ws = Sent /\ m = message.
Proof.
  unfold send_coroutine. destruct (send ws) eqn:E; cbn.
  - split; [by intros [[= <- <-]|[]]|]. intros (-> & _ & ->). by left.
  - split; [done|]. by intros (_ & ? & _).
  - split; [done|]. by intros (_ & ? & _).
Qed.

Lemma send_coroutine_result (send : client -> send_outcome) (message : M)
    (ws : client) :
  co_result (send_coroutine send message ws) = Pending <-> send ws = Hangs.
Proof. unfold send_coroutine. by destruct (send ws). Qed.

(** What the tasks of a gather did is what each awaitable does. *)
Lemma gather_effects_in {E A : Type} (aws : list (coroutine E A)) (x : E) :
  In x (fst (gather_return_exceptions aws))
  <-> exists co, In co aws /\ In x (co_effects co).
Proof. unfold gather_return_exceptions. cbn [fst]. apply in_flat_map. Qed.

Lemma gather_never_raises {E A : Type} (aws : list (coroutine E A))
    (e : exn) :
  snd (gather_return_exceptions aws) <> Raised e.
Proof.
  unfold gather_return_exceptions. cbn [snd]. by destruct (existsb _ _).
Qed.

Lemma gather_pending {E A : Type} (aws : list (coroutine E A)) :
  snd (gather_return_exceptions aws) = Pending
  <-> exists co, In co aws /\ co_result co = Pending.
Proof.
  unfold gather_return_exceptions. cbn [snd].
  destruct (existsb is_pending (map co_result aws)) eqn:Hx.
  - split; [|done]. intros _.
    apply existsb_exists in Hx as (r & Hin & Hr).
    apply in_map_iff in Hin as (co & <- & Hin).
    exists co. split; [done|]. by destruct (co_result co).
  - split; [done|]. intros (co & Hin & Hr).
    assert (existsb is_pending (map co_result aws) = true) as Hx'.
    { apply existsb_exists. exists (co_result co).
      split; [by apply in_map|]. by rewrite Hr. }
    congruence.
Qed.

Lemma gather_returns {E A : Type} (aws : list (coroutine E A)) :
  (forall co, In co aws -> co_result co <> Pending) ->
  exists results, snd (gather_return_exceptions aws) = Returned results.
Proof.
  intros Hall.
  destruct (snd (gather_return_exceptions aws)) as [results|e|] eqn:Hx.
  - by eexists.
  - by destruct (gather_never_raises aws e).
  - apply gather_pending in Hx as (co & Hin & Hr). by destruct (Hall co Hin).
Qed.

Lemma broadcast_frames (s : gset client) (send : client -> send_outcome)
    (message : M) :
  snd (broadcast_to_websockets s send message)
  = if decide (s = ∅) then []
    else fst (gather_return_exceptions
                (map (send_coroutine send message) (elements s))).
Proof.
  unfold broadcast_to_websockets. destruct (decide (s = ∅)); [done|].
  cbv zeta. by destruct (gather_return_exceptions _).
Qed.

Lemma broadcast_ends (s : gset client) (send : client -> send_outcome)
    (message : M) :
  fst (broadcast_to_websockets s send message)
  = if decide (s = ∅) then Returned tt
    else match snd (gather_return_exceptions
                      (map (send_coroutine send message) (elements s))) with
         | Returned _ => Returned tt
         | Raised e => Raised e
         | Pending => Pending
         end.
Proof.
  unfold broadcast_to_websockets. destruct (decide (s = ∅)); [done|].
  cbv zeta. by destruct (gather_return_exceptions _).
Qed.

Lemma broadcast_frames_in (s : gset client) (send : client -> send_outcome)
    (message m : M) (ws : client) :
  In (ws, m) (snd (broadcast_to_websockets s send message))
  <-> ws ∈ s /\ send ws = Sent /\ m = message.
Proof.
  rewrite broadcast_frames. destruct (decide (s = ∅)) as [->|Hne].
  - split; [done|]. intros (Hin & _). set_solver.
  - rewrite gather_effects_in. split.
    + intros (co & Hco & Hin).
      apply in_map_iff in Hco as (ws0 & <- & Hws0).
      apply send_coroutine_effects in Hin as (-> & Hs & ->).
      split; [|done]. by apply elem_of_elements, list_elem_of_In.
    + intros (Hin & Hs & ->).
      exists (send_coroutine send message ws). split.
      * apply in_map. by apply list_elem_of_In, elem_of_elements.
      * by apply send_coroutine_effects.
Qed.

End Broadcast.

(** C7. For every registry and every behaviour of the clients'
    connections, [broadcast_to_websockets] never ends with an exception,
    and every registered client whose own send succeeds is delivered the
    message, whether the sends to the other clients fail or never
    complete; nothing is delivered to anyone else. It returns as soon as
    no send hangs. The datagram handler does not await it: it hands the
    broadcast to the loop as a task and returns. *)
Theorem broadcast_isolates_failures {M : Type} (s : gset WebSocket.client)
    (send : WebSocket.client -> WebSocket.send_outcome) (message : M) :
  (forall e,
     fst (WebSocket.broadcast_to_websockets s send message)
     <> WebSocket.Raised e)
  /\ (forall ws,
        ws ∈ s -> send ws = WebSocket.Sent ->
        In (ws, message) (snd (WebSocket.broadcast_to_websockets s send message)))
  /\ (forall ws m,
        In (ws, m) (snd (WebSocket.broadcast_to_websockets s send message)) ->
        ws ∈ s /\ send ws = WebSocket.Sent /\ m = message)
  /\ ((forall ws, ws ∈ s -> send ws <> WebSocket.Hangs) ->
      fst (WebSocket.broadcast_to_websockets s send message)
      = WebSocket.Returned tt)
  /\ (forall g text now self,
        snd (CommandProtocol.datagram_received g (Some text) now self)
        = Asyncio.Log Asyncio.DEBUG "UDP message received"
            :: (if CommandProtocol.broadcast_to_websockets g
                then [Asyncio.SpawnBroadcast (Json.CommandEnvelope text)]
                else [])).
Proof.
  split; [|split; [|split; [|split]]].
  - intros e. rewrite broadcast_ends. destruct (decide (s = ∅)); [done|].
    pose proof (gather_never_raises
                  (map (WebSocket.send_coroutine send message) (elements s)) e).
    destruct (snd (WebSocket.gather_return_exceptions _)) as [a|e0|];
      [done| |done].
    intros [= ->]. by destruct H.
  - intros ws Hin Hsent. by apply broadcast_frames_in.
  - intros ws m. by intros ?%broadcast_frames_in.
  - intros Hall. rewrite broadcast_ends. destruct (decide (s = ∅)); [done|].
    destruct (gather_returns
                (map (WebSocket.send_coroutine send message) (elements s)))
      as [results ->]; [|done].
    intros co (ws & <- & Hin)%in_map_iff Hp.
    apply send_coroutine_result in Hp.
    by apply (Hall ws); [apply elem_of_elements, list_elem_of_In|].
  - intros g text now self. unfold CommandProtocol.datagram_received.
    by rewrite !and_then_snd.
Qed.

(* ===================================================================== *)
(** * More on the telemetry parser *)
(* ===================================================================== *)

Section Trimming.
Import Py.
Variable sp : ascii -> bool.

Lemma lstrip_blank (t : string) :
  Grammar.all_chars sp t = true -> lstrip_by sp t = "".
Proof.
  induction t as [|c t IH]; cbn; [done|].
  intros [Hc Ht]%andb_true_iff. rewrite Hc. by apply IH.
Qed.

Lemma strip_lstrip_app_blank (x t : string) :
  Grammar.all_chars sp t = true ->
  rstrip_by sp (lstrip_by sp (x +:+ t)) = rstrip_by sp (lstrip_by sp x).
Proof.
  intros Ht. induction x as [|c x IH]; cbn.
  - by rewrite lstrip_blank.
  - destruct (sp c); [done|].
    change (String c (x +:+ t)) with (String c x +:+ t).
    by apply rstrip_app_blank.
Qed.

Lemma strip_app_blank (lead x trail : string) :
  Grammar.all_chars sp lead = true -> Grammar.all_chars sp trail = true ->
  strip_by sp (lead +:+ x +:+ trail) = strip_by sp x.
Proof.
  intros Hl Ht. unfold strip_by.
  rewrite lstrip_app_blank by done. by apply strip_lstrip_app_blank.
Qed.

End Trimming.

Section ParserOrder.
Import Py Json StateProtocol Spec Notions.

Lemma field_of_no_colon (seg : string) :
  contains ":" seg = false -> field_of seg = [].
Proof.
  intros Hc. unfold field_of.
  destruct (cut_at _ seg) as [[k v]|] eqn:Hcut; [|done].
  assert (contains ":" seg = true) by (apply contains_cut; eauto).
  congruence.
Qed.

Lemma fields_of_app (a b : list string) :
  fields_of (a ++ b) = fields_of a ++ fields_of b.
Proof. apply flat_map_app. Qed.

Lemma existsb_keys {V : Type} (k : string) (d : dict V) :
  existsb (String.eqb k) (dict_keys d) = dict_contains k d.
Proof.
  unfold dict_keys, dict_contains.
  induction d as [|[k0 v0] d IH]; cbn; [done|].
  rewrite (String.eqb_sym k k0). by destruct (String.eqb k0 k).
Qed.

Lemma fold_store_key_order (fs : list (string * string))
    (d : dict Json.value) :
  dict_keys (fold_left store fs d)
  = fold_left (fun acc k => if existsb (String.eqb k) acc then acc
                            else acc ++ [k])
              (map fst fs) (dict_keys d).
Proof.
  revert d. induction fs as [|[k v] fs IH]; intros d; [done|].
  cbn [fold_left map fst]. rewrite IH. unfold store at 1. cbn [fst snd].
  by rewrite dict_keys_set, existsb_keys.
Qed.

Lemma dict_set_fresh {V : Type} (k : string) (v : V) (d : dict V) :
  ~ In k (dict_keys d) -> dict_set k v d = d ++ [(k, v)].
Proof.
  unfold dict_keys. induction d as [|[k0 v0] d IH]; cbn; [done|].
  intros Hk. destruct (String.eqb_spec k0 k) as [->|Hne]; [tauto|].
  rewrite IH; [done|tauto].
Qed.

Lemma fold_store_distinct (fs : list (string * string))
    (d : dict Json.value) :
  NoDup (dict_keys d ++ map fst fs) ->
  fold_left store fs d = d ++ map typed fs.
Proof.
  revert d. induction fs as [|[k v] fs IH]; intros d Hnd; cbn [fold_left map].
  - by rewrite app_nil_r.
  - change (store d (k, v)) with (dict_set k (typed_value k v) d).
    assert (~ In k (dict_keys d)) as Hk.
    { apply NoDup_app in Hnd as (_ & Hdis & _). intros Hin.
      apply (Hdis k); [by apply list_elem_of_In|]. left. }
    rewrite dict_set_fresh by done. rewrite IH.
    + by rewrite <- app_assoc.
    + unfold dict_keys in *. rewrite map_app. cbn.
      rewrite <- app_assoc. exact Hnd.
Qed.

Lemma render_field (kv : string * string) :
  plain kv -> is_field (render kv) (fst kv) (snd kv).
Proof. intros (Hk & _). by split. Qed.

Lemma render_no_semicolon (kv : string * string) :
  plain kv -> contains ";" (render kv) = false.
Proof.
  intros (_ & Hk & Hv). unfold render.
  rewrite contains_app, Hk. cbn. exact Hv.
Qed.

Lemma fields_of_render (pairs : list (string * string)) :
  Forall plain pairs -> fields_of (map render pairs) = pairs.
Proof.
  induction 1 as [|[k v] pairs Hkv _ IH]; [done|].
  cbn [map]. change (fields_of (?a :: ?l)) with (field_of a ++ fields_of l).
  by rewrite (is_field_field_of _ _ _ (render_field _ Hkv)), IH.
Qed.

End ParserOrder.

(** X1. White space around the line (the device ends it with a line
    break) never changes what [parse_state_data] returns. *)
Theorem parse_state_data_ignores_surrounding_space (lead line trail : string) :
  Grammar.all_chars Py.isspace lead = true ->
  Grammar.all_chars Py.isspace trail = true ->
  StateProtocol.parse_state_data (lead +:+ line +:+ trail)
  = StateProtocol.parse_state_data line.
Proof.
  intros Hl Ht. unfold StateProtocol.parse_state_data, Py.strip.
  by rewrite strip_app_blank.
Qed.

Lemma parse_state_data_ignores_surrounding_space_witness :
  Grammar.all_chars Py.isspace " " = true
  /\ Grammar.all_chars Py.isspace (String "013" (String "010" "")) = true
  /\ StateProtocol.parse_state_data
       (" " +:+ "mid:-1;bat:87;" +:+ String "013" (String "010" ""))
     = StateProtocol.parse_state_data "mid:-1;bat:87;".
Proof.
  split; [reflexivity|]. split; [reflexivity|].
  exact (parse_state_data_ignores_surrounding_space " " "mid:-1;bat:87;"
           (String "013" (String "010" "")) eq_refl eq_refl).
Defined.

(** X2. A segment without a colon, empty or not, contributes nothing:
    two lines whose segments differ by such a segment parse alike. *)
Theorem parse_state_data_skips_segment_without_colon
    (line line' junk : string) (before after : list string) :
  Spec.segments line = before ++ junk :: after ->
  Py.contains ":" junk = false ->
  Spec.segments line' = before ++ after ->
  StateProtocol.parse_state_data line = StateProtocol.parse_state_data line'.
Proof.
  intros Hs Hj Hs'. rewrite !parse_state_data_fold, Hs, Hs'.
  rewrite !fields_of_app.
  change (Spec.fields_of (junk :: after))
    with (Spec.field_of junk ++ Spec.fields_of after).
  by rewrite field_of_no_colon.
Qed.

Lemma parse_state_data_skips_segment_without_colon_witness :
  Spec.segments "mid:1;noise;;bat:2" = ["mid:1"] ++ "noise" :: [""; "bat:2"]
  /\ Py.contains ":" "noise" = false
  /\ Spec.segments "mid:1;;bat:2" = ["mid:1"] ++ [""; "bat:2"]
  /\ StateProtocol.parse_state_data "mid:1;noise;;bat:2"
     = StateProtocol.parse_state_data "mid:1;;bat:2".
Proof.
  split; [reflexivity|]. split; [reflexivity|]. split; [reflexivity|].
  exact (parse_state_data_skips_segment_without_colon
           "mid:1;noise;;bat:2" "mid:1;;bat:2" "noise" ["mid:1"] [""; "bat:2"]
           eq_refl eq_refl eq_refl).
Defined.

(** X3. The keys of the returned map come in the order in which they
    first occur in the line: a repeated key keeps its first position
    (and, by C2, takes its last value). *)
Theorem parse_state_data_key_order (line : string) :
  exists fields,
    StateProtocol.parse_state_data line = Py.Ok fields
    /\ Py.dict_keys fields
       = Notions.first_occurrences
           (map fst (Spec.fields_of (Spec.segments line))).
Proof.
  eexists. split; [apply parse_state_data_fold|].
  apply fold_store_key_order.
Qed.

(** X4. A line written from fields with pairwise distinct keys (keys free
    of colons and semicolons, values free of semicolons, no white space
    around the line) is parsed into exactly those fields, in the order
    written, each with its converted value. *)
Theorem parse_state_data_reads_back (pairs : list (string * string)) :
  pairs <> [] ->
  Forall Notions.plain pairs ->
  NoDup (map fst pairs) ->
  Py.strip (Py.join ";" (map Notions.render pairs))
  = Py.join ";" (map Notions.render pairs) ->
  StateProtocol.parse_state_data (Py.join ";" (map Notions.render pairs))
  = Py.Ok (map Notions.typed pairs).
Proof.
  intros Hne Hplain Hnd Hstrip.
  rewrite parse_state_data_fold. unfold Spec.segments. rewrite Hstrip.
  rewrite split_join.
  - rewrite fields_of_render by done. f_equal.
    by apply (fold_store_distinct pairs []).
  - by destruct pairs.
  - apply Forall_map. eapply Forall_impl; [exact Hplain|].
    intros kv Hkv. by apply render_no_semicolon.
Qed.

Lemma parse_state_data_reads_back_witness :
  [("mid", "-1"); ("bat", "87"); ("note", "a:b")] <> []
  /\ Forall Notions.plain [("mid", "-1"); ("bat", "87"); ("note", "a:b")]
  /\ NoDup (map fst [("mid", "-1"); ("bat", "87"); ("note", "a:b")])
  /\ StateProtocol.parse_state_data "mid:-1;bat:87;note:a:b"
     = Py.Ok [("mid", Json.VInt (-1));
              ("bat", Json.VFloat (Py.FDec false 87 0));
              ("note", Json.VStr "a:b")].
Proof.
  assert (Forall Notions.plain [("mid", "-1"); ("bat", "87"); ("note", "a:b")])
    as Hplain by (repeat constructor).
  assert (NoDup (map fst [("mid", "-1"); ("bat", "87"); ("note", "a:b")]))
    as Hnd.
  { repeat constructor; cbn; intros H;
      repeat (apply elem_of_cons in H as [H|H]; [discriminate H|]);
      by apply elem_of_nil in H. }
  split; [discriminate|]. split; [exact Hplain|]. split; [exact Hnd|].
  exact (parse_state_data_reads_back
           [("mid", "-1"); ("bat", "87"); ("note", "a:b")]
           ltac:(discriminate) Hplain Hnd eq_refl).
Defined.

(* ===================================================================== *)
(** * The state channel's datagram handler *)
(* ===================================================================== *)

Section StateEnvelope.
Import Py Json StateProtocol Spec Notions.

Lemma fill_fields_app (items : dict Json.value) (acc : dict field_entry) :
  NoDup (dict_keys acc ++ dict_keys items) ->
  fill_fields items acc
  = acc ++ map (fun kv => (fst kv, entry_of (fst kv) (snd kv))) items.
Proof.
  revert acc. induction items as [|[k v] items IH]; intros acc Hnd;
    cbn [fill_fields map].
  - by rewrite app_nil_r.
  - assert (~ In k (dict_keys acc)) as Hk.
    { apply NoDup_app in Hnd as (_ & Hdis & _). intros Hin.
      apply (Hdis k); [by apply list_elem_of_In|]. left. }
    rewrite dict_set_fresh by done. rewrite IH.
    + by rewrite <- app_assoc.
    + unfold dict_keys in *. rewrite map_app. cbn.
      rewrite <- app_assoc. exact Hnd.
Qed.

Lemma known_description (k d : string) :
  dict_get k state_descriptions = Some d -> d <> "Unknown parameter".
Proof.
  unfold state_descriptions. cbn [dict_get].
  repeat (destruct (String.eqb _ k); [intros [= <-]; discriminate|]).
  discriminate.
Qed.

Lemma fallback_description (k : string) :
  dict_get_default k "Unknown parameter" state_descriptions
  = "Unknown parameter"
  <-> dict_get k state_types = None.
Proof.
  unfold dict_get_default. split.
  - destruct (dict_get k state_descriptions) as [d|] eqn:Hd.
    + intros ->. by destruct (known_description _ _ Hd).
    + intros _. apply dict_get_None. rewrite tables_same_keys.
      by apply dict_get_None.
  - intros Hty. assert (dict_get k state_descriptions = None) as ->; [|done].
    apply dict_get_None. rewrite <- tables_same_keys. by apply dict_get_None.
Qed.

End StateEnvelope.

(** X5. The state channel's handler never raises, whatever the payload.
    It always records the instant of reception and touches nothing else
    of the object. A payload that is not text is not broadcast. For a
    text payload (with a broadcast function bound) it hands the loop one
    envelope whose [fields] has the keys of [parsed] in the same order,
    each entry carrying the parsed value, and whose description is the
    fallback exactly for the keys outside the twenty known fields. *)
Theorem state_datagram_received (g : StateProtocol.globals)
    (decoded : option string) (now wall_clock : Q)
    (self : StateProtocol.TelloStateProtocol) :
  exists self' es,
    StateProtocol.datagram_received g decoded now wall_clock self
    = Py.Ok (self', es)
    /\ StateProtocol.last_response_time self' = now
    /\ StateProtocol.transport self' = StateProtocol.transport self
    /\ StateProtocol.connected self' = StateProtocol.connected self
    /\ (decoded = None -> List.filter Notions.is_spawn_broadcast es = [])
    /\ (StateProtocol.broadcast_to_websockets g = false ->
        List.filter Notions.is_spawn_broadcast es = [])
    /\ (forall message,
          decoded = Some message ->
          StateProtocol.broadcast_to_websockets g = true ->
          exists parsed fields,
            StateProtocol.parse_state_data message = Py.Ok parsed
            /\ List.filter Notions.is_spawn_broadcast es
               = [Asyncio.SpawnBroadcast
                    (Json.StateEnvelope message parsed wall_clock fields)]
            /\ fields
               = map (fun kv => (fst kv, Spec.entry_of (fst kv) (snd kv)))
                     parsed
            /\ forall k e,
                 Py.dict_get k fields = Some e ->
                 Py.dict_get k parsed = Some (Json.entry_value e)
                 /\ (Json.entry_description e = "Unknown parameter"
                     <-> Py.dict_get k StateProtocol.state_types = None)).
Proof.
  unfold StateProtocol.datagram_received.
  destruct decoded as [message|]; cbn.
  - pose proof (parse_state_data_fold message) as Hparse.
    rewrite Hparse. cbn.
    set (parsed := fold_left _ _ _) in *.
    eexists _, _. split; [reflexivity|]. cbn.
    split; [done|]. split; [done|]. split; [done|]. split; [done|].
    split; [by intros ->|].
    intros m [= <-] Hb. rewrite Hb.
    exists parsed, (StateProtocol.fill_fields parsed []).
    split; [done|]. split; [reflexivity|].
    assert (NoDup (Py.dict_keys parsed)) as Hnd by by eapply parse_NoDup.
    split; [by apply (fill_fields_app parsed [])|].
    intros k e He. rewrite fill_fields_get in He by done.
    destruct (Py.dict_get k parsed) as [v|]; [|done].
    injection He as <-. split; [done|]. apply fallback_description.
  - eexists _, _. split; [reflexivity|]. cbn.
    repeat split; try done.
Qed.

(* ===================================================================== *)
(** * More on the command channel *)
(* ===================================================================== *)

Section Losses.
Import Py Json Asyncio CommandProtocol Spec Notions.

Lemma on_loss_fields (l : loss) (self : TelloProtocol) :
  connected (fst (on_loss l self)) = false
  /\ transport (fst (on_loss l self)) = transport self
  /\ command_queue (fst (on_loss l self)) = command_queue self
  /\ last_response_time (fst (on_loss l self)) = last_response_time self
  /\ reconnect_task (fst (on_loss l self))
     = match reconnect_task self with
       | Running pc => Running pc
       | _ => Running AtStart
       end
  /\ List.filter is_spawn_reconnect (snd (on_loss l self))
     = match reconnect_task self with
       | Running _ => []
       | _ => [SpawnReconnect]
       end.
Proof.
  destruct l; unfold on_loss, connection_lost, error_received,
    _schedule_reconnect, and_then; cbn;
    destruct (reconnect_task self); done.
Qed.

Lemma on_losses_running (ls : list loss) (self : TelloProtocol)
    (pc : reconnect_pc) :
  reconnect_task self = Running pc ->
  reconnect_task (fst (on_losses ls self)) = Running pc
  /\ List.filter is_spawn_reconnect (snd (on_losses ls self)) = []
  /\ transport (fst (on_losses ls self)) = transport self
  /\ command_queue (fst (on_losses ls self)) = command_queue self.
Proof.
  revert self. induction ls as [|l ls IH]; intros self Htask; [done|].
  cbn [on_losses]. rewrite and_then_fst, and_then_snd.
  destruct (on_loss_fields l self) as (_ & Ht & Hq & _ & Hr & Hs).
  rewrite Htask in Hr, Hs.
  destruct (IH _ Hr) as (Hr' & Hs' & Ht' & Hq').
  rewrite List.filter_app, Hs, Hs', Hr', Ht', Hq', Ht, Hq. done.
Qed.

Lemma on_losses_disconnected (ls : list loss) (self : TelloProtocol) :
  connected self = false -> connected (fst (on_losses ls self)) = false.
Proof.
  revert self. induction ls as [|l ls IH]; intros self Hc; [done|].
  cbn [on_losses]. rewrite and_then_fst. apply IH, on_loss_fields.
Qed.

End Losses.

(** X6. However many times the transport reports a loss or an error,
    at most one reconnection task is started: none while one is running,
    exactly one otherwise. Every report leaves the object disconnected
    and leaves its transport attribute and its queue as they were. *)
Theorem one_reconnect_task_at_a_time (l : Notions.loss)
    (ls : list Notions.loss) (self : CommandProtocol.TelloProtocol) :
  let after := fst (Notions.on_losses (l :: ls) self) in
  let spawned :=
    List.filter Notions.is_spawn_reconnect
      (snd (Notions.on_losses (l :: ls) self)) in
  CommandProtocol.connected after = false
  /\ CommandProtocol.transport after = CommandProtocol.transport self
  /\ CommandProtocol.command_queue after = CommandProtocol.command_queue self
  /\ match CommandProtocol.reconnect_task self with
     | CommandProtocol.Running pc =>
         spawned = []
         /\ CommandProtocol.reconnect_task after = CommandProtocol.Running pc
     | _ =>
         spawned = [Asyncio.SpawnReconnect]
         /\ CommandProtocol.reconnect_task after
            = CommandProtocol.Running CommandProtocol.AtStart
     end.
Proof.
  cbn zeta. cbn [Notions.on_losses]. rewrite and_then_fst, and_then_snd.
  destruct (on_loss_fields l self) as (Hc & Ht & Hq & _ & Hr & Hs).
  set (self1 := fst (Notions.on_loss l self)) in *.
  assert (exists pc, CommandProtocol.reconnect_task self1
                     = CommandProtocol.Running pc) as [pc Hpc].
  { rewrite Hr. destruct (CommandProtocol.reconnect_task self); eauto. }
  destruct (on_losses_running ls self1 pc Hpc) as (Hr' & Hs' & Ht' & Hq').
  rewrite List.filter_app, Hs, Hs', Hr', Ht', Hq', Ht, Hq, app_nil_r.
  split; [by apply on_losses_disconnected|].
  split; [done|]. split; [done|].
  rewrite Hpc in Hr. destruct (CommandProtocol.reconnect_task self);
    split; congruence.
Qed.

Section Recovery.
Import Py Json Asyncio CommandProtocol Spec Notions.

Lemma failed_not_in_attempt (d : Q) (es : list effect) :
  ~ In failed es ->
  ~ In failed (Log INFO "Reconnection attempt" :: Sleep d :: es).
Proof. intros Hes [H|[H|H]]; [discriminate H|discriminate H|done]. Qed.

(** From a sleeping task: the attempts go on while the channel is seen
    disconnected and stop, without a failure report, at the first
    resumption that sees it connected. *)
Lemma episode_recover_sleeping (n : nat) :
  forall (others : nat -> bool) (g : CommandProtocol.globals)
         (self : TelloProtocol) (r k0 : nat) g' self' es,
    reconnect_task self = Running (Sleeping r (delay_before r)) ->
    (r < k0)%nat -> (k0 <= max_retries)%nat ->
    (forall j, (S r <= j)%nat -> (j < k0)%nat -> others j = false) ->
    others k0 = true ->
    (k0 - r <= n)%nat ->
    CommandProtocol.need_reconnect g = true ->
    episode n (S r) others g self = (g', self', es) ->
    sleeps es = map delay_before (seq (S r) (k0 - S r))
    /\ reconnect_task self' = Done
    /\ ~ In failed es
    /\ CommandProtocol.need_reconnect g' = true.
Proof.
  induction n as [|n IH];
    intros others g self r k0 g' self' es Htask Hr Hk0 Hfalse Htrue Hn Hg Hep.
  - lia.
  - cbn [episode] in Hep. unfold _reconnect at 1 in Hep.
    set (self0 := fst (set_connected (others (S r)) self)) in Hep.
    assert (reconnect_task self0 = Running (Sleeping r (delay_before r)))
      as Htask0 by done.
    rewrite Htask0 in Hep.
    change (Qmin 30 (delay_before r * (3 # 2)))
      with (delay_before (S r)) in Hep.
    destruct (decide (S r = k0)) as [<-|Hne].
    + assert (connected self0 = true) as Hc by exact Htrue.
      rewrite loop_test_exit in Hep by auto.
      destruct (episode_done n (S (S r)) others g
                  (fst (set_reconnect_task Done self0)) eq_refl)
        as (self'' & Hdone & Hd).
      rewrite Hdone, Hc in Hep. injection Hep as <- <- <-.
      replace (S r - S r)%nat with 0%nat by lia.
      split; [done|]. split; [done|]. split; [by intros []|done].
    + assert (connected self0 = false) as Hc by (apply Hfalse; lia).
      rewrite loop_test_attempt in Hep by (done || lia).
      destruct (episode n (S (S r)) others _ _) as [[g2 self2] es2] eqn:E
        in Hep.
      injection Hep as <- <- <-.
      match type of E with
      | episode _ _ _ ?g1 ?s1 = _ =>
          destruct (IH others g1 s1 (S r) k0 g2 self2 es2 eq_refl
                      ltac:(lia) Hk0
                      ltac:(intros; apply Hfalse; lia) Htrue
                      ltac:(lia) eq_refl E) as (Hs & Hd & Hf & Hg')
      end.
      rewrite ?sleeps_app, ?sleeps_log, ?sleeps_sleep, Hs.
      split; [|split; [done|split; [|done]]].
      * replace (k0 - S r)%nat with (S (k0 - S (S r))) by lia. reflexivity.
      * by apply failed_not_in_attempt.
Qed.

End Recovery.

(** X7. When the channel is first seen connected at the [k0]-th
    resumption of the task ([k0] at most 10), exactly [k0] attempts have
    been made, with the first [k0] delays of the backoff sequence; the
    task then ends without the failure report. Each attempt raised the
    module's [need_reconnect] and nothing in the task lowers it; with
    [k0 = 0] the task ends at once and leaves the module's variables
    alone. *)
Theorem reconnect_stops_when_connected (n k0 : nat) (others : nat -> bool)
    (g g' : CommandProtocol.globals)
    (self self' : CommandProtocol.TelloProtocol) (es : list Asyncio.effect) :
  CommandProtocol.reconnect_task self
  = CommandProtocol.Running CommandProtocol.AtStart ->
  (forall j, (j < k0)%nat -> others j = false) ->
  others k0 = true ->
  (k0 <= 10)%nat ->
  (k0 < n)%nat ->
  CommandProtocol.episode n 0 others g self = (g', self', es) ->
  Asyncio.sleeps es = map Spec.delay_before (seq 0 k0)
  /\ CommandProtocol.reconnect_task self' = CommandProtocol.Done
  /\ ~ In Spec.failed es
  /\ ((0 < k0)%nat -> CommandProtocol.need_reconnect g' = true)
  /\ (k0 = 0%nat -> g' = g).
Proof.
  intros Htask Hfalse Htrue Hk0 Hn Hep. destruct n as [|n]; [lia|].
  cbn [CommandProtocol.episode] in Hep.
  unfold CommandProtocol._reconnect at 1 in Hep.
  set (self0 := fst (CommandProtocol.set_connected (others 0%nat) self)) in Hep.
  assert (CommandProtocol.reconnect_task self0
          = CommandProtocol.Running CommandProtocol.AtStart)
    as Htask0 by done.
  rewrite Htask0 in Hep.
  destruct (decide (k0 = 0%nat)) as [->|Hne].
  - assert (CommandProtocol.connected self0 = true) as Hc by exact Htrue.
    rewrite loop_test_exit in Hep by auto.
    destruct (episode_done n 1 others g
                (fst (CommandProtocol.set_reconnect_task
                        CommandProtocol.Done self0)) eq_refl)
      as (self'' & Hdone & Hd).
    rewrite Hdone, Hc in Hep. injection Hep as <- <- <-.
    split; [done|]. split; [done|]. split.
    { intros [H|[]]. discriminate H. }
    split; [lia|done].
  - assert (CommandProtocol.connected self0 = false) as Hc
      by (apply Hfalse; lia).
    rewrite loop_test_attempt in Hep
      by (done || (unfold CommandProtocol.max_retries; lia)).
    destruct (CommandProtocol.episode n 1 others _ _)
      as [[g2 self2] es2] eqn:E in Hep.
    injection Hep as <- <- <-.
    match type of E with
    | CommandProtocol.episode _ _ _ ?g1 ?s1 = _ =>
        destruct (episode_recover_sleeping n others g1 s1 0%nat k0
                    g2 self2 es2 eq_refl ltac:(lia) Hk0
                    ltac:(intros; apply Hfalse; lia) Htrue
                    ltac:(lia) eq_refl E) as (Hs & Hd & Hf & Hg')
    end.
    rewrite ?sleeps_app, ?sleeps_log, ?sleeps_sleep, Hs.
    split; [|split; [done|split; [|split; [done|lia]]]].
    + replace k0 with (S (k0 - 1)) at 2 by lia. reflexivity.
    + intros [H|Hin]; [discriminate H|].
      exact (failed_not_in_attempt 5%Q es2 Hf Hin).
Qed.

Lemma reconnect_stops_when_connected_witness :
  CommandProtocol.reconnect_task Spec.lost_protocol
  = CommandProtocol.Running CommandProtocol.AtStart
  /\ (2 <= 10)%nat /\ (2 < 4)%nat
  /\ Asyncio.sleeps
       (snd (CommandProtocol.episode 4 0 (fun j => Nat.leb 2 j)
               CommandProtocol.module_init Spec.lost_protocol))
     = map Spec.delay_before (seq 0 2).
Proof.
  split; [reflexivity|]. split; [repeat constructor|].
  split; [repeat constructor|].
  refine (proj1 (reconnect_stops_when_connected 4 2 (fun j => Nat.leb 2 j)
                   CommandProtocol.module_init _ Spec.lost_protocol _ _
                   eq_refl _ eq_refl _ _ _)).
  - intros [|[|j]] Hj; [reflexivity|reflexivity|].
    exfalso. apply (Nat.nle_succ_0 j). do 2 apply le_S_n. exact Hj.
  - repeat constructor.
  - repeat constructor.
  - reflexivity.
Defined.

(* ===================================================================== *)
(** * After a transport error *)
(* ===================================================================== *)

Section Stranded.
Import Py Json Asyncio CommandProtocol Bridge Spec Notions.

Lemma call_stranded (ref : nat) (m : method) (w : world)
    (q q' : list message) :
  stranded w q -> quiet m q q' -> (ref <> 0%nat -> q' = q) ->
  stranded (fst (call ref m w)) q'
  /\ List.filter is_sendto (snd (call ref m w)) = [].
Proof.
  intros (Hidle & Hp & Hh & self & Ho & Hc & Hq) Hm Href.
  unfold call. rewrite Ho. destruct ref as [|ref]; cbn.
  - destruct (Hm self Hc Hq) as (Hc' & Hq' & Hs').
    destruct (m self) as [self' es]. cbn in *.
    split; [|done]. split; [done|]. split; [done|]. split; [done|].
    by exists self'.
  - rewrite (Href ltac:(done)).
    split; [|done]. split; [done|]. split; [done|]. split; [done|].
    by exists self.
Qed.

Lemma quiet_datagram_received (g : CommandProtocol.globals)
    (decoded : option string) (now : Q) (q : list message) :
  quiet (datagram_received g decoded now) q q.
Proof.
  intros self Hc Hq. unfold datagram_received.
  destruct decoded; rewrite !and_then_fst, !and_then_snd; cbn;
    [|done]. by destruct (CommandProtocol.broadcast_to_websockets g).
Qed.

Lemma quiet_loss (l : loss) (q : list message) : quiet (on_loss l) q q.
Proof.
  intros self Hc Hq.
  destruct (on_loss_fields l self) as (Hc' & _ & Hq' & _).
  split; [done|]. split; [congruence|].
  destruct l; unfold on_loss, connection_lost, error_received,
    _schedule_reconnect, and_then; cbn;
    by destruct (reconnect_task self).
Qed.

Lemma quiet_send_to_tello (o : sendto_outcome) (m : message)
    (q : list message) :
  quiet (send_to_tello o m) q (q ++ [m]).
Proof.
  intros self Hc Hq. unfold send_to_tello. rewrite Hc. cbn. by rewrite Hq.
Qed.

Lemma reconnect_quiet (g : CommandProtocol.globals) (self : TelloProtocol) :
  connected (snd (fst (_reconnect g self))) = connected self
  /\ command_queue (snd (fst (_reconnect g self))) = command_queue self
  /\ List.filter is_sendto (snd (_reconnect g self)) = [].
Proof.
  unfold _reconnect, loop_test.
  destruct (reconnect_task self) as [|[|r d]|]; cbn; try done;
    destruct (negb (connected self)); cbn; try done;
    match goal with
    | |- context [if ?b then _ else _] => by destruct b
    end.
Qed.

Lemma step_stranded (ev : event) (w : world) (q : list message) :
  stranded w q ->
  stranded (fst (step ev w)) (q ++ client_messages [ev])
  /\ List.filter is_sendto (snd (step ev w)) = [].
Proof.
  intros Hw.
  destruct ev as [ref decoded now|ref|ref|ref|now o|endpoint o|m o];
    cbn [step client_messages flat_map app]; rewrite ?app_nil_r.
  - by apply (call_stranded _ _ _ q q); [|apply quiet_datagram_received|].
  - by apply (call_stranded _ _ _ q q); [|apply (quiet_loss Errored)|].
  - by apply (call_stranded _ _ _ q q); [|apply (quiet_loss Lost)|].
  - destruct Hw as (Hidle & Hp & Hh & self & Ho & Hc & Hq).
    rewrite Ho. destruct ref as [|ref]; cbn.
    + destruct (reconnect_quiet (cp_globals w) self) as (Hc' & Hq' & Hs').
      destruct (_reconnect (cp_globals w) self) as [[g self'] es].
      cbn in *. split; [|done].
      split; [done|]. split; [done|]. split; [done|].
      exists self'. split; [done|]. split; congruence.
    + split; [|done]. split; [done|]. split; [done|]. split; [done|].
      by exists self.
  - destruct Hw as (Hidle & Hp & Hh & self & Ho & Hc & Hq).
    unfold _health_monitor, health_check, health_flag.
    rewrite Hp, Ho. cbn. rewrite Hc.
    destruct Hidle as [Hf Hm]. rewrite Hf. cbn.
    split; [|done]. split; [by split|]. split; [done|]. split; [done|].
    by exists self.
  - destruct Hw as ([Hf Hm] & Hp & Hh & self & Ho & Hc & Hq).
    unfold _main_loop. rewrite Hm, Hf. cbn.
    split; [|done]. split; [by split|]. split; [done|]. split; [done|].
    by exists self.
  - destruct (Hw) as (_ & _ & Hh & _).
    unfold WebSocket.on_message. rewrite Hh. cbn [option_map].
    destruct (call_stranded 0 (send_to_tello o m) w q (q ++ [m]) Hw
                (quiet_send_to_tello o m q) ltac:(done)) as [Hw' Hs'].
    destruct (call 0 _ w) as [w' es]. by cbn [fst snd] in *.
Qed.

Lemma client_messages_cons (ev : event) (evs : list event) :
  client_messages (ev :: evs) = client_messages [ev] ++ client_messages evs.
Proof. unfold client_messages. cbn. by rewrite app_nil_r. Qed.

Lemma run_stranded (evs : list event) (w : world) (q : list message) :
  stranded w q ->
  stranded (fst (run evs w)) (q ++ client_messages evs)
  /\ List.filter is_sendto (snd (run evs w)) = [].
Proof.
  revert w q. induction evs as [|ev evs IH]; intros w q Hw.
  - cbn. by rewrite app_nil_r.
  - cbn [run]. destruct (step_stranded ev w q Hw) as [Hw1 Hs1].
    destruct (step ev w) as [w1 es1]. cbn [fst snd] in *.
    destruct (IH w1 _ Hw1) as [Hw2 Hs2].
    destruct (run evs w1) as [w2 es2]. cbn [fst snd] in *.
    rewrite client_messages_cons, app_assoc. split; [done|].
    by rewrite List.filter_app, Hs1, Hs2.
Qed.

End Stranded.

(** X8. Once the command transport has reported an error, nothing is
    transmitted to the device any more, on any run of the bridge: the
    protocol object stays disconnected (no datagram, health tick or
    reconnection attempt reconnects it, and the supervising loop never
    rebuilds it), and the clients' commands pile up in its queue, in the
    order sent. *)
Theorem nothing_sent_after_transport_error (addr : Asyncio.address)
    (t : Asyncio.transport) (probe : Asyncio.sendto_outcome)
    (evs : list Bridge.event) :
  let errored :=
    fst (Bridge.step (Bridge.ErrorReceived 0)
           (fst (Bridge.start t probe (Bridge.imported addr)))) in
  List.filter Asyncio.is_sendto (snd (Bridge.run evs errored)) = []
  /\ exists self,
       Bridge.objects (fst (Bridge.run evs errored)) = [self]
       /\ CommandProtocol.connected self = false
       /\ CommandProtocol.command_queue self = Notions.client_messages evs.
Proof.
  intros errored.
  assert (Notions.stranded errored []) as Hw.
  { unfold errored. destruct probe.
    - split; [done|]. split; [done|]. split; [done|]. by eexists.
    - split; [done|]. split; [done|]. split; [done|]. by eexists. }
  destruct (run_stranded evs errored [] Hw) as [(_ & _ & _ & Hself) Hs].
  split; [exact Hs|exact Hself].
Qed.

(* ===================================================================== *)
(** * More on the health monitor and the supervising loop *)
(* ===================================================================== *)

Section Frames.
Import Py Json Asyncio CommandProtocol Bridge Spec Notions.

Lemma Qgt_bool_false (a b : Q) : Qgt_bool a b = false <-> (a <= b)%Q.
Proof.
  unfold Qgt_bool. rewrite negb_false_iff. apply Qle_bool_iff.
Qed.

Lemma send_to_tello_connected (o : sendto_outcome) (m : message)
    (self : TelloProtocol) :
  connected self = true ->
  fst (send_to_tello o m self)
  = match o, transport self with
    | Refused, Some _ => fst (error_received self)
    | _, _ => self
    end.
Proof.
  intros Hc. destruct (transport self) as [t|] eqn:Ht.
  - destruct o.
    + by rewrite (send_to_tello_taken _ _ t).
    + by rewrite (send_to_tello_refused _ _ t).
  - unfold send_to_tello. rewrite Hc, Ht. by destruct o.
Qed.

Lemma call_frame (ref : nat) (m : method) (w : world) :
  cp_globals (fst (call ref m w)) = cp_globals w
  /\ br_globals (fst (call ref m w)) = br_globals w
  /\ tello_protocol (fst (call ref m w)) = tello_protocol w
  /\ cmd_transport (fst (call ref m w)) = cmd_transport w
  /\ tello_command_handler (fst (call ref m w)) = tello_command_handler w
  /\ socket_addr (fst (call ref m w)) = socket_addr w
  /\ main (fst (call ref m w)) = main w.
Proof.
  unfold call. destruct (objects w !! ref) as [self|]; [|done].
  by destruct (m self).
Qed.

Lemma call_objects (ref : nat) (m : method) (w : world) (self : TelloProtocol) :
  objects w !! ref = Some self ->
  objects (fst (call ref m w)) = <[ref := fst (m self)]> (objects w)
  /\ snd (call ref m w) = snd (m self).
Proof.
  intros Ho. unfold call. rewrite Ho. by destruct (m self).
Qed.

(** The silence check leaves everything but the probed object alone. *)
Lemma health_check_frame (now : Q) (o : sendto_outcome) (w : world) :
  cp_globals (fst (health_check now o w)) = cp_globals w
  /\ br_globals (fst (health_check now o w)) = br_globals w
  /\ tello_protocol (fst (health_check now o w)) = tello_protocol w
  /\ cmd_transport (fst (health_check now o w)) = cmd_transport w
  /\ tello_command_handler (fst (health_check now o w))
     = tello_command_handler w
  /\ main (fst (health_check now o w)) = main w
  /\ existsb rebuilds (snd (health_check now o w)) = false.
Proof.
  unfold health_check.
  destruct (tello_protocol w) as [ref|] eqn:Hp; [|done].
  destruct (objects w !! ref) as [self|] eqn:Ho; [|done].
  destruct (connected self) eqn:Hc; [|done].
  destruct (_ && _); [|done].
  pose proof (call_frame ref (send_to_tello o (Text "command")) w)
    as (H1 & H2 & H3 & H4 & H5 & _ & H7).
  pose proof (call_no_rebuild ref (send_to_tello o (Text "command")) w
                (send_to_tello_no_rebuild _ _)) as Hq.
  destruct (call ref _ w) as [w' es]. cbn [fst snd] in *.
  rewrite H1, H2, H3, H4, H5, H7, Hp. repeat split; try done.
Qed.

(** The object it probes, when it probes. *)
Lemma health_check_objects (now : Q) (o : sendto_outcome) (w : world)
    (ref : nat) (self : TelloProtocol) :
  tello_protocol w = Some ref -> objects w !! ref = Some self ->
  connected self = true ->
  (0 < last_response_time self)%Q ->
  (15 < now - last_response_time self)%Q ->
  objects (fst (health_check now o w))
  = <[ref := fst (send_to_tello o (Text "command") self)]> (objects w).
Proof.
  intros Hp Ho Hc Hpos Hsil. unfold health_check. rewrite Hp, Ho, Hc.
  apply Qgt_bool_true in Hpos as ->. apply Qgt_bool_true in Hsil as ->.
  cbn [andb].
  destruct (call_objects ref (send_to_tello o (Text "command")) w self Ho)
    as [Hobj _].
  by destruct (call ref _ w) as [w' es].
Qed.

Lemma health_monitor_world (now : Q) (o : sendto_outcome) (w : world) :
  fst (_health_monitor now o w)
  = fst (health_flag (fst (health_check now o w))).
Proof.
  unfold _health_monitor. destruct (health_check now o w) as [w1 es1].
  cbn [fst]. by destruct (health_flag w1).
Qed.

Lemma health_flag_objects (w : world) :
  objects (fst (health_flag w)) = objects w
  /\ cp_globals (fst (health_flag w)) = cp_globals w.
Proof. unfold health_flag. by destruct (need_reconnect _). Qed.

End Frames.

(** X9. A tick of the health monitor never changes the variables of
    [command_protocol.py]. It sends nothing, and changes no protocol
    object, when the bridge has no protocol object, when the object is
    disconnected, when no datagram was ever timed, or when the silence
    is at most 15 (the bound itself included). When it does probe, only
    the probed object can change, and it changes only if the transport
    refuses the probe: [error_received] then runs inside the send and
    leaves the object disconnected, with a reconnection task started
    unless one was running. *)
Theorem health_monitor_sends_nothing_unless_silent (w : Bridge.world)
    (now : Q) (outcome : Asyncio.sendto_outcome) :
  Bridge.cp_globals (fst (Bridge._health_monitor now outcome w))
  = Bridge.cp_globals w
  /\ (Bridge.tello_protocol w = None ->
      List.filter Asyncio.is_sendto
        (snd (Bridge._health_monitor now outcome w)) = []
      /\ Bridge.objects (fst (Bridge._health_monitor now outcome w))
         = Bridge.objects w)
  /\ (forall ref self,
        Bridge.tello_protocol w = Some ref ->
        Bridge.objects w !! ref = Some self ->
        CommandProtocol.connected self = false
        \/ (CommandProtocol.last_response_time self <= 0)%Q
        \/ (now - CommandProtocol.last_response_time self <= 15)%Q ->
        snd (Bridge.health_check now outcome w) = []
        /\ List.filter Asyncio.is_sendto
             (snd (Bridge._health_monitor now outcome w)) = []
        /\ Bridge.objects (fst (Bridge._health_monitor now outcome w))
           = Bridge.objects w)
  /\ (forall ref self,
        Bridge.tello_protocol w = Some ref ->
        Bridge.objects w !! ref = Some self ->
        CommandProtocol.connected self = true ->
        (0 < CommandProtocol.last_response_time self)%Q ->
        (15 < now - CommandProtocol.last_response_time self)%Q ->
        exists self',
          Bridge.objects (fst (Bridge._health_monitor now outcome w))
          = <[ref := self']> (Bridge.objects w)
          /\ self' = match outcome, CommandProtocol.transport self with
                     | Asyncio.Refused, Some _ =>
                         fst (CommandProtocol.error_received self)
                     | _, _ => self
                     end
          /\ CommandProtocol.command_queue self'
             = CommandProtocol.command_queue self
          /\ (self' <> self ->
              CommandProtocol.connected self' = false
              /\ exists pc,
                   CommandProtocol.reconnect_task self'
                   = CommandProtocol.Running pc)).
Proof.
  rewrite health_monitor_world, health_monitor_effects.
  destruct (health_check_frame now outcome w) as (H1 & _).
  destruct (health_flag_objects (fst (Bridge.health_check now outcome w)))
    as [Hfo Hfg].
  rewrite Hfo, Hfg. split; [done|]. split.
  { intros Hp. rewrite !List.filter_app, health_flag_quiet.
    unfold Bridge.health_check. by rewrite Hp. }
  split.
  { intros ref self Hp Ho Hcase.
    assert (Bridge.health_check now outcome w = (w, [])) as Hnone.
    { unfold Bridge.health_check. rewrite Hp, Ho.
      destruct (CommandProtocol.connected self) eqn:Hc; [|done].
      destruct Hcase as [Hcase|[Hcase|Hcase]]; [done| |].
      - apply Qgt_bool_false in Hcase. by rewrite Hcase.
      - apply Qgt_bool_false in Hcase. by rewrite Hcase, andb_false_r. }
    rewrite Hnone. split; [done|]. split; [|done].
    by rewrite !List.filter_app, health_flag_quiet. }
  intros ref self Hp Ho Hc Hpos Hsil.
  rewrite (health_check_objects now outcome w ref self) by done.
  rewrite send_to_tello_connected by done.
  eexists. split; [reflexivity|]. split; [reflexivity|].
  destruct (on_loss_fields Notions.Errored self)
    as (Hc' & _ & Hq' & _ & Hr' & _).
  cbn [Notions.on_loss] in *.
  destruct outcome, (CommandProtocol.transport self); try done.
  split; [done|]. intros _. split; [done|].
  rewrite Hr'. destruct (CommandProtocol.reconnect_task self); by eexists.
Qed.

Section Rebuild.
Import Py Json Asyncio CommandProtocol Bridge Spec Notions.

Lemma call_last (l : list TelloProtocol) (self : TelloProtocol) (m : method)
    (w : world) :
  objects w = l ++ [self] ->
  call (length l) m w
  = (set_objects (l ++ [fst (m self)]) w, snd (m self)).
Proof.
  intros Ho. unfold call. rewrite Ho.
  rewrite list_lookup_middle by done.
  destruct (m self) as [self' es]. cbn [fst snd]. f_equal. f_equal.
  rewrite insert_app_r_alt by done. by rewrite Nat.sub_diag.
Qed.

(** [connection_made] on an object just built returns, whatever the
    fuel: there is nothing to flush. *)
Lemma connection_made_new (t : Asyncio.transport) (fuel : nat)
    (os : nat -> sendto_outcome) (probe : sendto_outcome) (addr : address)
    (g : CommandProtocol.globals) :
  connection_made t fuel os probe (snd (init addr true g))
  = Some (fst (send_to_tello probe (Text "command") (new_object t addr)),
          Log INFO "UDP socket ready, sending to Tello"
            :: snd (send_to_tello probe (Text "command") (new_object t addr))).
Proof. by destruct probe. Qed.

(** What [_create_udp_socket] leaves behind: a new object at the end of
    the store, on the new transport, and the bridge referring to it. *)
Lemma create_udp_socket_spec (t : Asyncio.transport) (probe : sendto_outcome)
    (w : world) :
  _create_udp_socket t probe w
  = (set_endpoint t (length (objects w))
       (set_objects
          (objects w
             ++ [fst (send_to_tello probe (Text "command")
                        (new_object t (socket_addr w)))])
          (set_cp_globals (fst (init (socket_addr w) true (cp_globals w))) w)),
     CreateEndpoint t
       :: Log INFO "UDP socket ready, sending to Tello"
       :: snd (send_to_tello probe (Text "command")
                 (new_object t (socket_addr w)))).
Proof.
  unfold _create_udp_socket.
  change (init (socket_addr w) true (cp_globals w))
    with (fst (init (socket_addr w) true (cp_globals w)),
          snd (init (socket_addr w) true (cp_globals w))).
  cbv iota beta. by rewrite connection_made_new.
Qed.

End Rebuild.

(** X10. What the supervising loop does at its top, were the flag it
    reads ever up. It first closes the old transport, if any. If the new
    endpoint cannot be opened (the operating system decides: a fixed
    local port still held by the socket being closed is refused), the
    loop logs the error and ends for good, the flag still up, nothing
    opened and nothing sent. If the endpoint opens, a new protocol
    object is appended on the new transport with an empty queue, the
    bridge refers to it, the flag is lowered and the probe ["command"]
    is handed to the transport once before the 2-unit delay; the object
    is connected unless the transport refused that probe, in which case
    it is disconnected with a reconnection task started. After the
    delay the next resumption sends the probe again, or queues it when
    the object is disconnected, and sleeps 1. The WebSocket handler
    still refers to the object it was given at start-up. *)
Theorem main_loop_rebuild (w : Bridge.world) (t : Asyncio.transport)
    (e : Py.exn) (o o' : Asyncio.sendto_outcome)
    (endpoint' : Py.result Asyncio.transport) :
  Bridge.need_reconnect (Bridge.br_globals w) = true ->
  Bridge.main w = Bridge.LoopTop ->
  let closing :=
    match Bridge.cmd_transport w with
    | Some t0 => [Asyncio.Close t0]
    | None => []
    end in
  let failed := Bridge._main_loop (Py.Raise e) o w in
  let first := Bridge._main_loop (Py.Ok t) o w in
  let second := Bridge._main_loop endpoint' o' (fst first) in
  let probe :=
    Asyncio.Sendto t (Py.encode_utf8 "command") (Bridge.socket_addr w) in
  failed
  = (Bridge.set_main Bridge.Stopped w,
     Asyncio.Log Asyncio.INFO "Recreating UDP socket connection"
       :: closing ++ [Asyncio.Log Asyncio.ERROR "Error in main loop"])
  /\ Bridge._main_loop endpoint' o' (fst failed) = (fst failed, [])
  /\ Bridge.need_reconnect (Bridge.br_globals (fst first)) = false
  /\ Bridge.main (fst first) = Bridge.Settling
  /\ Bridge.cmd_transport (fst first) = Some t
  /\ Bridge.tello_protocol (fst first) = Some (length (Bridge.objects w))
  /\ Bridge.tello_command_handler (fst first) = Bridge.tello_command_handler w
  /\ (exists new,
        Bridge.objects (fst first) = Bridge.objects w ++ [new]
        /\ CommandProtocol.transport new = Some t
        /\ CommandProtocol.command_queue new = []
        /\ CommandProtocol.connected new
           = match o with Asyncio.Taken => true | Asyncio.Refused => false end
        /\ CommandProtocol.reconnect_task new
           = match o with
             | Asyncio.Taken => CommandProtocol.NoTask
             | Asyncio.Refused =>
                 CommandProtocol.Running CommandProtocol.AtStart
             end)
  /\ List.filter Asyncio.rebuilds (snd first)
     = closing ++ [Asyncio.CreateEndpoint t]
  /\ List.filter Asyncio.is_sendto (snd first) = [probe]
  /\ last (snd first) = Some (Asyncio.Sleep 2)
  /\ List.filter Asyncio.is_sendto (snd second)
     = match o with Asyncio.Taken => [probe] | Asyncio.Refused => [] end
  /\ last (snd second) = Some (Asyncio.Sleep 1)
  /\ Bridge.main (fst second) = Bridge.LoopTop
  /\ (exists new',
        Bridge.objects (fst second) = Bridge.objects w ++ [new']
        /\ CommandProtocol.command_queue new'
           = match o with
             | Asyncio.Taken => []
             | Asyncio.Refused => [CommandProtocol.Text "command"]
             end).
Proof.
  intros Hf Hm closing failed first second probe.
  assert (failed
          = (Bridge.set_main Bridge.Stopped w,
             Asyncio.Log Asyncio.INFO "Recreating UDP socket connection"
               :: closing ++ [Asyncio.Log Asyncio.ERROR "Error in main loop"]))
    as Hfailed.
  { unfold failed, Bridge._main_loop. by rewrite Hm, Hf. }
  split; [exact Hfailed|]. split; [by rewrite Hfailed|].
  assert (first
          = (Bridge.set_main Bridge.Settling
               (Bridge.set_br_need_reconnect false
                  (fst (Bridge._create_udp_socket t o w))),
             Asyncio.Log Asyncio.INFO "Recreating UDP socket connection"
               :: closing
               ++ snd (Bridge._create_udp_socket t o w) ++ [Asyncio.Sleep 2]))
    as Hfirst.
  { unfold first, Bridge._main_loop. rewrite Hm, Hf.
    by destruct (Bridge._create_udp_socket t o w). }
  rewrite create_udp_socket_spec in Hfirst. cbn [fst snd] in Hfirst.
  set (new := fst (CommandProtocol.send_to_tello o
                     (CommandProtocol.Text "command")
                     (Notions.new_object t (Bridge.socket_addr w)))) in *.
  assert (second
          = (Bridge.set_main Bridge.LoopTop
               (fst (Bridge.call (length (Bridge.objects w))
                       (CommandProtocol.send_to_tello o'
                          (CommandProtocol.Text "command")) (fst first))),
             snd (Bridge.call (length (Bridge.objects w))
                    (CommandProtocol.send_to_tello o'
                       (CommandProtocol.Text "command")) (fst first))
               ++ [Asyncio.Sleep 1]))
    as Hsecond.
  { unfold second. rewrite Hfirst. unfold Bridge._main_loop. cbn.
    by destruct (Bridge.call _ _ _). }
  rewrite (call_last (Bridge.objects w) new) in Hsecond
    by by rewrite Hfirst.
  rewrite Hsecond, Hfirst. cbn [fst snd].
  split; [done|]. split; [done|]. split; [done|]. split; [done|].
  split; [done|]. split.
  { exists new. split; [done|]. unfold new. by destruct o. }
  split.
  { cbn. rewrite List.filter_app. cbn. unfold closing.
    destruct (Bridge.cmd_transport w), o; done. }
  split.
  { cbn. rewrite List.filter_app. cbn. unfold closing.
    destruct (Bridge.cmd_transport w), o; done. }
  split.
  { rewrite last_cons, !last_app. done. }
  split.
  { rewrite List.filter_app, app_nil_r. unfold new.
    destruct o, o'; done. }
  split.
  { by rewrite last_app. }
  split; [done|].
  eexists. split; [reflexivity|]. unfold new. by destruct o, o'.
Qed.

Lemma main_loop_rebuild_witness :
  Bridge.need_reconnect (Bridge.br_globals Notions.flagged) = true
  /\ Bridge.main Notions.flagged = Bridge.LoopTop
  /\ Bridge._main_loop (Py.Raise Py.OSError) Asyncio.Taken Notions.flagged
     = (Bridge.set_main Bridge.Stopped Notions.flagged,
        [Asyncio.Log Asyncio.INFO "Recreating UDP socket connection";
         Asyncio.Close 0%nat;
         Asyncio.Log Asyncio.ERROR "Error in main loop"])
  /\ List.filter Asyncio.rebuilds
       (snd (Bridge._main_loop (Py.Ok 1%nat) Asyncio.Taken Notions.flagged))
     = [Asyncio.Close 0%nat; Asyncio.CreateEndpoint 1%nat]
  /\ Bridge.tello_command_handler
       (fst (Bridge._main_loop (Py.Ok 1%nat) Asyncio.Taken Notions.flagged))
     = Some 0%nat
  /\ Bridge.tello_protocol
       (fst (Bridge._main_loop (Py.Ok 1%nat) Asyncio.Taken Notions.flagged))
     = Some 1%nat.
Proof.
  split; [reflexivity|]. split; [reflexivity|].
  pose proof (main_loop_rebuild Notions.flagged 1%nat Py.OSError
                Asyncio.Taken Asyncio.Taken (Py.Ok 2%nat)
                eq_refl eq_refl) as H.
  cbv zeta in H.
  destruct H as (Hfail & _ & _ & _ & _ & Hp & Hh & _ & Hr & _).
  split; [exact Hfail|]. split; [exact Hr|]. split; [exact Hh|exact Hp].
Defined.

(** X11. Were the flag read by the two loops up, a tick of the health
    monitor would lower it without closing or opening anything, and the
    supervising loop resumed afterwards would only sleep: whichever of
    the two loops runs first takes the signal. *)
Theorem health_monitor_takes_the_signal (w : Bridge.world) (now : Q)
    (outcome outcome' : Asyncio.sendto_outcome)
    (endpoint : Py.result Asyncio.transport) :
  Bridge.need_reconnect (Bridge.br_globals w) = true ->
  Bridge.main w = Bridge.LoopTop ->
  let ticked := fst (Bridge._health_monitor now outcome w) in
  Bridge.need_reconnect (Bridge.br_globals ticked) = false
  /\ existsb Asyncio.rebuilds (snd (Bridge._health_monitor now outcome w))
     = false
  /\ In (Asyncio.Log Asyncio.INFO "Reconnection request detected")
        (snd (Bridge._health_monitor now outcome w))
  /\ Bridge.cmd_transport ticked = Bridge.cmd_transport w
  /\ Bridge.tello_protocol ticked = Bridge.tello_protocol w
  /\ Bridge._main_loop endpoint outcome' ticked
     = (ticked, [Asyncio.Sleep 1]).
Proof.
  intros Hf Hm ticked. unfold ticked.
  rewrite health_monitor_world, health_monitor_effects.
  destruct (health_check_frame now outcome w)
    as (_ & Hb & Hp & Hc & _ & Hmain & Hq).
  set (w1 := fst (Bridge.health_check now outcome w)) in *.
  unfold Bridge.health_flag. rewrite Hb, Hf. cbn [fst snd].
  split; [done|]. split.
  { by rewrite existsb_app, Hq. }
  split.
  { apply in_or_app. right. by left. }
  split; [done|]. split; [done|].
  unfold Bridge._main_loop. cbn. by rewrite Hmain, Hm.
Qed.

Lemma health_monitor_takes_the_signal_witness :
  Bridge.need_reconnect (Bridge.br_globals Notions.flagged) = true
  /\ Bridge.main Notions.flagged = Bridge.LoopTop
  /\ Bridge._main_loop (Py.Ok 1%nat) Asyncio.Taken
       (fst (Bridge._health_monitor 30 Asyncio.Refused Notions.flagged))
     = (fst (Bridge._health_monitor 30 Asyncio.Refused Notions.flagged),
        [Asyncio.Sleep 1]).
Proof.
  split; [reflexivity|]. split; [reflexivity|].
  exact (proj2 (proj2 (proj2 (proj2 (proj2
           (health_monitor_takes_the_signal Notions.flagged 30
              Asyncio.Refused Asyncio.Taken (Py.Ok 1%nat)
              eq_refl eq_refl)))))).
Defined.

(* ===================================================================== *)
(** * More on the registry, the broadcast and the sessions *)
(* ===================================================================== *)

Section Deliveries.
Import Py Json Asyncio WebSocket.
Context {M : Type}.

Lemma gather_targets (send : client -> send_outcome) (message : M)
    (targets : list client) :
  map fst (fst (gather_return_exceptions
                  (map (send_coroutine send message) targets)))
  = List.filter (fun ws => match send ws with Sent => true | _ => false end)
                targets.
Proof.
  unfold gather_return_exceptions. cbn [fst].
  induction targets as [|ws targets IH]; [done|].
  cbn [map flat_map List.filter]. rewrite map_app, IH.
  unfold send_coroutine. by destruct (send ws).
Qed.

End Deliveries.

(** X12. A broadcast delivers at most one copy to each client: the
    clients reached are pairwise distinct and no more than the
    registered ones. As nothing bounds the time of a send, the broadcast
    stays pending exactly when the send to some registered client never
    completes; the other clients are served all the same (C7). *)
Theorem broadcast_once_per_client {M : Type} (s : gset WebSocket.client)
    (send : WebSocket.client -> WebSocket.send_outcome) (message : M) :
  NoDup (map fst (snd (WebSocket.broadcast_to_websockets s send message)))
  /\ (length (snd (WebSocket.broadcast_to_websockets s send message))
      <= size s)%nat
  /\ (fst (WebSocket.broadcast_to_websockets s send message)
      = WebSocket.Pending
      <-> exists ws, ws ∈ s /\ send ws = WebSocket.Hangs).
Proof.
  rewrite broadcast_frames, broadcast_ends.
  destruct (decide (s = ∅)) as [->|Hne].
  - split; [constructor|]. split; [cbn; lia|].
    split; [done|]. intros (ws & Hin & _). set_solver.
  - split; [|split].
    + rewrite gather_targets.
      apply NoDup_ListNoDup, List.NoDup_filter, NoDup_ListNoDup.
      apply NoDup_elements.
    + rewrite <- (length_map fst), gather_targets.
      etrans; [apply List.filter_length_le|]. done.
    + pose proof (gather_pending
                    (map (WebSocket.send_coroutine send message)
                         (elements s))) as Hp.
      assert ((exists co,
                 In co (map (WebSocket.send_coroutine send message)
                            (elements s))
                 /\ WebSocket.co_result co = WebSocket.Pending)
              <-> exists ws, ws ∈ s /\ send ws = WebSocket.Hangs) as Hco.
      { split.
        - intros (co & (ws & <- & Hin)%in_map_iff & Hr).
          exists ws. split; [by apply elem_of_elements, list_elem_of_In|].
          by apply send_coroutine_result in Hr.
        - intros (ws & Hin & Hh).
          exists (WebSocket.send_coroutine send message ws). split.
          + apply in_map. by apply list_elem_of_In, elem_of_elements.
          + by apply send_coroutine_result. }
      rewrite <- Hco, <- Hp.
      by destruct (snd (WebSocket.gather_return_exceptions _)).
Qed.

Section Sessions.
Import Py Json Asyncio WebSocket Session.

Lemma add_comm (a b : client) (s : gset client) :
  add a (add b s) = add b (add a s).
Proof.
  unfold add. apply set_eq. intros x.
  rewrite !elem_of_union, !elem_of_singleton. tauto.
Qed.

Lemma remove_add_other (a b : client) (s : gset client) :
  a <> b ->
  remove a (add b s)
  = match remove a s with
    | Ok s' => Ok (add b s')
    | Raise e => Raise e
    end.
Proof.
  intros Hne. unfold remove, add.
  destruct (decide (a ∈ s)) as [Hin|Hnin].
  - destruct (decide (a ∈ {[b]} ∪ s)) as [_|Hn].
    + f_equal. apply set_eq. intros x.
      rewrite !elem_of_difference, !elem_of_union, !elem_of_difference,
        !elem_of_singleton.
      split; [intros [[->|Hx] Hxa]; [by left|by right]|].
      intros [->|[Hx Hxa]]; [split; [by left|congruence]|].
      split; [by right|done].
    + destruct Hn. apply elem_of_union. by right.
  - destruct (decide (a ∈ {[b]} ∪ s)) as [Hin|_]; [|done].
    apply elem_of_union in Hin as [Hin%elem_of_singleton|Hin]; done.
Qed.

Lemma remove_add_same (ws : client) (s : gset client) :
  ws ∉ s -> remove ws (add ws s) = Ok s.
Proof.
  intros Hs. unfold remove, add.
  destruct (decide (ws ∈ {[ws]} ∪ s)) as [_|Hn].
  - f_equal. apply set_eq. intros x.
    rewrite elem_of_difference, elem_of_union, !elem_of_singleton.
    split; [intros [[->|Hx] Hne]; [done|done]|].
    intros Hx. split; [by right|]. by intros ->.
  - destruct Hn. apply elem_of_union. left. by apply elem_of_singleton.
Qed.

Lemma remove_absent (ws : client) (s : gset client) :
  ws ∉ s -> remove ws s = Raise KeyError.
Proof. intros Hs. unfold remove. by destruct (decide (ws ∈ s)). Qed.

(** The sessions of the other clients go the same way with or without
    [ws] in the registry. *)
Lemma apply_ops_add (ws : client) (ops : list registry_op) (s : gset client) :
  Forall (fun op => handle_of op <> ws) ops ->
  apply_ops ops (add ws s)
  = match apply_ops ops s with
    | Ok s' => Ok (add ws s')
    | Raise e => Raise e
    end.
Proof.
  intros Hops. revert s.
  induction Hops as [|op ops Hop _ IH]; intros s; [done|].
  cbn [apply_ops]. destruct op as [w|w]; cbn [apply_op handle_of] in *.
  - rewrite add_comm. apply IH.
  - rewrite remove_add_other by done.
    destruct (remove w s) as [s'|e]; [apply IH|done].
Qed.

Lemma apply_ops_absent (ws : client) (ops : list registry_op)
    (s s' : gset client) :
  Forall (fun op => handle_of op <> ws) ops ->
  ws ∉ s -> apply_ops ops s = Ok s' -> ws ∉ s'.
Proof.
  intros Hops. revert s.
  induction Hops as [|op ops Hop _ IH]; intros s Hs; cbn [apply_ops].
  - by intros [= <-].
  - destruct op as [w|w]; cbn [apply_op handle_of] in *.
    + apply IH. unfold add. intros [Hin%elem_of_singleton|Hin]%elem_of_union;
        [congruence|done].
    + unfold remove. destruct (decide (w ∈ s)); [|done].
      apply IH. intros [Hin _]%elem_of_difference. done.
Qed.

Lemma apply_ops_app (a b : list registry_op) (s : gset client) :
  apply_ops (a ++ b) s
  = match apply_ops a s with
    | Ok s' => apply_ops b s'
    | Raise e => Raise e
    end.
Proof.
  revert s. induction a as [|op a IH]; intros s; [done|].
  cbn [app apply_ops]. destruct (apply_op op s); [apply IH|done].
Qed.

End Sessions.

(** X13. A session of [handle_websocket] registers its handle on entry
    and removes exactly that handle on exit. Whatever entries and exits
    of other clients happen in between, the client is registered during
    its session (so broadcasts reach it), its exit does not fail, and
    the registry ends as if the session had never taken place. An exit
    for a handle that is not registered raises [KeyError]. *)
Theorem session_leaves_no_trace (ws : WebSocket.client)
    (ops : list Session.registry_op) (s : gset WebSocket.client) :
  ws ∉ s ->
  Forall (fun op => Session.handle_of op <> ws) ops ->
  Session.apply_ops (Session.Enter ws :: (ops ++ [Session.Leave ws])) s
  = Session.apply_ops ops s
  /\ (forall during,
        Session.apply_ops (Session.Enter ws :: ops) s = Py.Ok during ->
        ws ∈ during)
  /\ Session.apply_op (Session.Leave ws) s = Py.Raise Py.KeyError.
Proof.
  intros Hs Hops. cbn [Session.apply_ops Session.apply_op].
  rewrite apply_ops_app, apply_ops_add by done.
  split; [|split].
  - destruct (Session.apply_ops ops s) as [s'|e] eqn:E; [|done].
    cbn [Session.apply_ops Session.apply_op].
    rewrite remove_add_same; [done|]. by eapply apply_ops_absent.
  - intros during. destruct (Session.apply_ops ops s) as [s'|e]; [|done].
    intros [= <-]. unfold WebSocket.add. apply elem_of_union. left.
    by apply elem_of_singleton.
  - by apply remove_absent.
Qed.

Lemma session_leaves_no_trace_witness :
  ((7%nat : WebSocket.client)
   ∉ (WebSocket.add 3%nat ∅ : gset WebSocket.client))
  /\ Forall (fun op => Session.handle_of op <> 7%nat)
       [Session.Enter 5%nat; Session.Leave 3%nat]
  /\ Session.apply_ops
       (Session.Enter 7%nat
          :: ([Session.Enter 5%nat; Session.Leave 3%nat]
              ++ [Session.Leave 7%nat]))
       (WebSocket.add 3%nat ∅)
     = Session.apply_ops [Session.Enter 5%nat; Session.Leave 3%nat]
         (WebSocket.add 3%nat ∅).
Proof.
  assert ((7%nat : WebSocket.client)
          ∉ (WebSocket.add 3%nat ∅ : gset WebSocket.client)) as Hs.
  { vm_compute. intros H. discriminate H. }
  assert (Forall (fun op => Session.handle_of op <> 7%nat)
            [Session.Enter 5%nat; Session.Leave 3%nat]) as Hops.
  { repeat constructor; discriminate. }
  split; [exact Hs|]. split; [exact Hops|].
  exact (proj1 (session_leaves_no_trace 7%nat
                  [Session.Enter 5%nat; Session.Leave 3%nat]
                  (WebSocket.add 3%nat ∅) Hs Hops)).
Defined.

Section Forwarding.
Import Py Json Asyncio CommandProtocol Bridge Session Notions.

Lemma send_to_tello_no_arrival_record (o : sendto_outcome) (m : message)
    (self : TelloProtocol) :
  List.filter (fun e => negb (is_arrival_record e))
              (snd (send_to_tello o m self))
  = snd (send_to_tello o m self)
  /\ List.filter is_arrival_record (snd (send_to_tello o m self)) = [].
Proof.
  unfold send_to_tello. destruct (connected self); cbn [negb]; [|done].
  destruct (transport self) as [t|]; [|done].
  destruct o; [done|].
  unfold and_then, within_sendto, error_received, _schedule_reconnect,
    and_then. cbn.
  by destruct (reconnect_task self).
Qed.

Lemma forward_bound (arrivals : list (message * sendto_outcome)) :
  forall (w : world) (ref : nat) (self : TelloProtocol),
    objects w !! ref = Some self ->
    objects (fst (forward (bound_handler ref) arrivals w))
    = <[ref := fst (send_each arrivals self)]> (objects w)
    /\ List.filter (fun e => negb (is_arrival_record e))
         (snd (forward (bound_handler ref) arrivals w))
       = snd (send_each arrivals self)
    /\ List.filter is_arrival_record
         (snd (forward (bound_handler ref) arrivals w))
       = map (fun _ => arrival_record) arrivals.
Proof.
  induction arrivals as [|[m o] rest IH]; intros w ref self Ho.
  - cbn. split; [|done]. symmetry. by apply list_insert_id.
  - cbn [forward WebSocket.on_message bound_handler fst snd].
    destruct (call_objects ref (send_to_tello o m) w self Ho) as [Hobj Hes].
    destruct (call ref (send_to_tello o m) w) as [w1 es1]. cbn [fst snd] in *.
    assert (objects w1 !! ref = Some (fst (send_to_tello o m self))) as Ho1.
    { rewrite Hobj. apply list_lookup_insert_eq. by eapply lookup_lt_Some. }
    destruct (IH w1 ref _ Ho1) as (Hobj2 & Hes2 & Hrec2).
    fold (bound_handler ref).
    destruct (forward (bound_handler ref) rest w1) as [w2 es2].
    cbn [fst snd send_each map] in *.
    destruct (send_to_tello_no_arrival_record o m self) as [Hkeep Hnone].
    rewrite and_then_fst, and_then_snd, Hobj2, Hobj.
    rewrite list_insert_insert_eq. split; [done|].
    cbn [List.filter is_arrival_record negb String.eqb Ascii.eqb Bool.eqb
         app].
    rewrite !List.filter_app, Hes2, Hrec2, Hes, Hkeep, Hnone. done.
Qed.

End Forwarding.

(** X14. During a session every message of the client is logged and
    passed to the bound [send_to_tello], unchanged and in the order
    received: the protocol object ends as after the same calls made
    directly, the effects are those of these calls with the record of
    each arrival in between, and there is one such record per message.
    With no handler bound each message is logged and discarded with a
    warning, and the bridge is unchanged. *)
Theorem session_forwards_in_order
    (arrivals : list (CommandProtocol.message * Asyncio.sendto_outcome))
    (w : Bridge.world) (ref : nat) (self : CommandProtocol.TelloProtocol) :
  Bridge.objects w !! ref = Some self ->
  Bridge.objects
    (fst (Session.forward (Notions.bound_handler ref) arrivals w))
  = <[ref := fst (Notions.send_each arrivals self)]> (Bridge.objects w)
  /\ List.filter (fun e => negb (Notions.is_arrival_record e))
       (snd (Session.forward (Notions.bound_handler ref) arrivals w))
     = snd (Notions.send_each arrivals self)
  /\ List.filter Notions.is_arrival_record
       (snd (Session.forward (Notions.bound_handler ref) arrivals w))
     = map (fun _ => Notions.arrival_record) arrivals
  /\ Session.forward None arrivals w
     = (w,
        flat_map
          (fun _ =>
             [Notions.arrival_record;
              Asyncio.Log Asyncio.WARNING
                "Tello command handler not ready, message discarded"])
          arrivals).
Proof.
  intros Ho.
  destruct (forward_bound arrivals w ref self Ho) as (H1 & H2 & H3).
  split; [exact H1|]. split; [exact H2|]. split; [exact H3|].
  clear. induction arrivals as [|a rest IH]; [done|].
  cbn [Session.forward WebSocket.on_message]. by rewrite IH.
Qed.

Lemma session_forwards_in_order_witness :
  Bridge.objects Spec.started !! 0%nat
  = Some (Notions.new_object 0%nat ("192.168.10.1", 8889))
  /\ CommandProtocol.command_queue
       (fst (Notions.send_each
               [(CommandProtocol.Text "takeoff", Asyncio.Refused);
                (CommandProtocol.Text "land", Asyncio.Taken)]
               (Notions.new_object 0%nat ("192.168.10.1", 8889))))
     = [CommandProtocol.Text "land"]
  /\ List.filter (fun e => negb (Notions.is_arrival_record e))
       (snd (Session.forward (Notions.bound_handler 0)
               [(CommandProtocol.Text "takeoff", Asyncio.Refused);
                (CommandProtocol.Text "land", Asyncio.Taken)]
               Spec.started))
     = snd (Notions.send_each
              [(CommandProtocol.Text "takeoff", Asyncio.Refused);
               (CommandProtocol.Text "land", Asyncio.Taken)]
              (Notions.new_object 0%nat ("192.168.10.1", 8889))).
Proof.
  split; [reflexivity|]. split; [reflexivity|].
  exact (proj1 (proj2
           (session_forwards_in_order
              [(CommandProtocol.Text "takeoff", Asyncio.Refused);
               (CommandProtocol.Text "land", Asyncio.Taken)]
              Spec.started 0%nat
              (Notions.new_object 0%nat ("192.168.10.1", 8889))
              eq_refl))).
Defined.

Section Teardown.
Import Py Json Asyncio CommandProtocol Bridge Spec Lifecycle.

Lemma opened_app (a b : list action) : opened (a ++ b) = opened a ++ opened b.
Proof. apply flat_map_app. Qed.

Lemma closed_app (a b : list action) : closed (a ++ b) = closed a ++ closed b.
Proof. apply flat_map_app. Qed.

Lemma served_app (a b : list action) : served (a ++ b) = served a ++ served b.
Proof. apply flat_map_app. Qed.

Lemma servers_closed_app (a b : list action) :
  servers_closed (a ++ b) = servers_closed a ++ servers_closed b.
Proof. apply flat_map_app. Qed.

Lemma cancellations_app (a b : list action) :
  cancellations (a ++ b) = (cancellations a + cancellations b)%nat.
Proof.
  unfold cancellations. by rewrite List.filter_app, length_app.
Qed.

Lemma effects_hold_nothing (es : list effect) :
  existsb rebuilds es = false ->
  opened (map Do es) = [] /\ closed (map Do es) = []
  /\ served (map Do es) = [] /\ servers_closed (map Do es) = []
  /\ cancellations (map Do es) = 0%nat.
Proof.
  induction es as [|e es IH]; [done|]. cbn [existsb].
  intros [He Hes]%orb_false_iff. destruct (IH Hes) as (H1 & H2 & H3 & H4 & H5).
  change (map Do (e :: es)) with ([Do e] ++ map Do es).
  rewrite opened_app, closed_app, served_app, servers_closed_app,
    cancellations_app, H1, H2, H3, H4, H5.
  by destruct e.
Qed.

Lemma step_cmd_transport (ev : event) (w : Bridge.world) :
  idle w -> cmd_transport (fst (step ev w)) = cmd_transport w.
Proof.
  intros Hidle.
  destruct ev as [ref decoded now|ref|ref|ref|now o|endpoint o|m o];
    cbn [step].
  - apply call_frame.
  - apply call_frame.
  - apply call_frame.
  - destruct (objects w !! ref) as [self|]; [|done].
    by destruct (_reconnect (cp_globals w) self) as [[g self'] es].
  - rewrite health_monitor_world. unfold health_flag.
    destruct (need_reconnect _); apply health_check_frame.
  - unfold _main_loop. destruct Hidle as [Hf Hm]. by rewrite Hm, Hf.
  - unfold WebSocket.on_message.
    destruct (tello_command_handler w) as [ref|]; cbn [option_map]; [|done].
    pose proof (call_frame ref (send_to_tello o m) w) as (_ & _ & _ & H & _).
    by destruct (call ref _ w).
Qed.

Lemma run_cmd_transport (evs : list event) (w : Bridge.world) :
  idle w -> cmd_transport (fst (run evs w)) = cmd_transport w.
Proof.
  revert w. induction evs as [|ev evs IH]; intros w Hidle; [done|].
  cbn [run]. destruct (step_idle ev w Hidle) as [Hidle1 _].
  pose proof (step_cmd_transport ev w Hidle) as Ht.
  destruct (step ev w) as [w1 es1]. cbn [fst snd] in *.
  pose proof (IH w1 Hidle1) as Ht2.
  destruct (run evs w1) as [w2 es2]. cbn [fst snd] in *. congruence.
Qed.

Lemma running_holding (evs : list event) (b : TelloBridge)
    (acts : list action) :
  holding b acts ->
  holding (fst (running evs b)) (acts ++ snd (running evs b))
  /\ cmd_transport (world (fst (running evs b))) = cmd_transport (world b)
  /\ state_transport (fst (running evs b)) = state_transport b
  /\ websocket_server (fst (running evs b)) = websocket_server b.
Proof.
  intros (Hidle & Hh & Ho & Hs & Hc & Hsc & Hn). unfold running.
  destruct (run_idle evs (world b) Hidle) as [Hidle' Hq].
  pose proof (run_cmd_transport evs (world b) Hidle) as Ht.
  destruct (run evs (world b)) as [w es]. cbn [fst snd] in *.
  destruct (effects_hold_nothing es Hq) as (H1 & H2 & H3 & H4 & H5).
  split; [|by rewrite <- Ht]. unfold holding. cbn [world state_transport
    websocket_server health_task set_world].
  rewrite opened_app, closed_app, served_app, servers_closed_app,
    cancellations_app, H1, H2, H3, H4, H5, Ht, Ho, Hs, Hc, Hsc, Hn.
  by rewrite !app_nil_r.
Qed.

Lemma create_udp_socket_holding (t : Asyncio.transport)
    (probe : sendto_outcome) (w : Bridge.world) :
  idle w ->
  idle (fst (_create_udp_socket t probe w))
  /\ cmd_transport (fst (_create_udp_socket t probe w)) = Some t
  /\ exists es, snd (_create_udp_socket t probe w) = CreateEndpoint t :: es
                /\ existsb rebuilds es = false.
Proof.
  intros Hidle. rewrite create_udp_socket_spec. cbn [fst snd].
  split; [exact Hidle|]. split; [done|].
  eexists. split; [reflexivity|]. cbn [existsb rebuilds orb].
  apply send_to_tello_no_rebuild.
Qed.

Lemma start_holding (env : environment) (addr : address) :
  holding (fst (fst (start env (init addr))))
          (snd (fst (start env (init addr)))).
Proof.
  assert (holding (set_health_task (init addr)) (banner ++ [CreateHealthTask]))
    as H0 by done.
  unfold start.
  destruct (running_holding (during_cmd env) _ _ H0)
    as (H1 & Hct1 & Hs1 & Hv1).
  destruct (running (during_cmd env) (set_health_task (init addr)))
    as [b1 acts1]. cbn [fst snd] in *.
  destruct (cmd_endpoint env) as [t|e]; [|exact H1].
  destruct H1 as (Hidle1 & Hh1 & Ho1 & Hsv1 & Hc1 & Hsc1 & Hn1).
  destruct (create_udp_socket_holding t (cmd_probe env) (world b1) Hidle1)
    as (Hidle2 & Ht2 & es & Hes & Hq).
  destruct (_create_udp_socket t (cmd_probe env) (world b1)) as [w2 es2].
  cbn [fst snd] in *. subst es2.
  destruct (effects_hold_nothing es Hq) as (E1 & E2 & E3 & E4 & E5).
  cbn in Hct1, Hs1, Hv1.
  assert (holding (set_world w2 b1)
            (((banner ++ [CreateHealthTask]) ++ acts1)
               ++ map Do (CreateEndpoint t :: es))) as H2.
  { unfold holding. cbn [world state_transport websocket_server health_task
      set_world].
    change (map Do (CreateEndpoint t :: es))
      with ([Do (CreateEndpoint t)] ++ map Do es).
    rewrite !opened_app, !closed_app, !served_app, !servers_closed_app,
      !cancellations_app in *.
    rewrite E1, E2, E3, E4, E5, Ht2, Hs1.
    rewrite Hct1, Hs1 in Ho1. rewrite Hv1 in Hsv1.
    rewrite Ho1, Hsv1, Hc1, Hsc1, Hn1, Hv1. done. }
  destruct (running_holding (during_state env) _ _ H2)
    as (H3 & Hct3 & Hs3 & Hv3).
  destruct (running (during_state env) (set_world w2 b1)) as [b3 acts3].
  cbn [fst snd] in *.
  destruct (state_endpoint env) as [t'|e]; [|exact H3].
  cbn in Hct3, Hs3, Hv3.
  assert (holding (set_state_transport t' b3)
            (((((banner ++ [CreateHealthTask]) ++ acts1)
                 ++ map Do (CreateEndpoint t :: es)) ++ acts3)
               ++ [Do (CreateEndpoint t');
                   Do (Log INFO "UDP state server ready on port 8890")]))
    as H4.
  { destruct H3 as (Hidle3 & Hh3 & Ho3 & Hsv3 & Hc3 & Hsc3 & Hn3).
    unfold holding. cbn [world state_transport websocket_server health_task
      set_state_transport].
    rewrite opened_app, closed_app, served_app, servers_closed_app,
      cancellations_app, Ho3, Hsv3, Hc3, Hsc3, Hn3, Hs3, Hs1.
    cbn. by rewrite !app_nil_r. }
  destruct (running_holding (during_serve env) _ _ H4)
    as (H5 & Hct5 & Hs5 & Hv5).
  destruct (running (during_serve env) (set_state_transport t' b3))
    as [b4 acts4].
  cbn [fst snd] in *.
  destruct (serve env) as [srv|e]; [|exact H5].
  cbn in Hct5, Hs5, Hv5.
  destruct H5 as (Hidle5 & Hh5 & Ho5 & Hsv5 & Hc5 & Hsc5 & Hn5).
  cbn [fst snd]. unfold holding.
  cbn [world state_transport websocket_server health_task
    set_websocket_server set_world].
  rewrite opened_app, closed_app, served_app, servers_closed_app,
    cancellations_app, Ho5, Hsv5, Hc5, Hsc5, Hn5, Hv5, Hv3, Hv1.
  cbn. by rewrite !app_nil_r.
Qed.

Lemma stop_releases (b : TelloBridge) (acts : list action)
    (level : Asyncio.level) (report : string) :
  holding b acts ->
  let all := acts ++ [Do (Log level report)] ++ stop b in
  closed all = opened all
  /\ servers_closed all = served all
  /\ cancellations all = 1%nat
  /\ exists before servers transports,
       all = before ++ CancelHealthTask :: servers ++ transports
       /\ closed before = [] /\ servers_closed before = []
       /\ closed servers = [] /\ servers_closed transports = []
       /\ opened (servers ++ transports) = []
       /\ served (servers ++ transports) = [].
Proof.
  intros (Hidle & Hh & Ho & Hs & Hc & Hsc & Hn) all. subst all.
  unfold stop. rewrite Hh.
  rewrite !opened_app, !closed_app, !served_app, !servers_closed_app,
    !cancellations_app, Ho, Hs, Hc, Hsc, Hn.
  split; [|split; [|split]].
  - by destruct (websocket_server b), (cmd_transport (world b)),
      (state_transport b).
  - by destruct (websocket_server b), (cmd_transport (world b)),
      (state_transport b).
  - by destruct (websocket_server b), (cmd_transport (world b)),
      (state_transport b).
  - exists (acts ++ [Do (Log level report);
                     Do (Log INFO "Stopping Tello Bridge...")]),
      (match websocket_server b with
       | Some srv => [ServerClose srv; ServerWaitClosed srv]
       | None => []
       end),
      (match cmd_transport (world b) with
       | Some t => [Do (Close t)]
       | None => []
       end
       ++ match state_transport b with
          | Some t => [Do (Close t)]
          | None => []
          end
       ++ [Do (Log INFO "Bridge stopped")]).
    rewrite !opened_app, !closed_app, !served_app, !servers_closed_app, Hc, Hsc.
    split; [by rewrite <- !app_assoc|].
    by destruct (websocket_server b), (cmd_transport (world b)),
      (state_transport b).
Qed.

End Teardown.

(** X15. Whatever happens while the bridge starts and runs (either
    endpoint or the server failing to open, datagrams, errors and health
    checks in between, any run of the loop before the interrupt), [main]
    ends by closing exactly the transports that were opened, in the order
    they were opened, and exactly the server that was started; the health
    task is cancelled once, before anything is closed, the server is
    closed before the transports, and nothing is opened any more. *)
Theorem main_releases_what_it_acquired (addr : Asyncio.address)
    (env : Lifecycle.environment) (evs : list Bridge.event) :
  Lifecycle.closed (Lifecycle.main addr env evs)
  = Lifecycle.opened (Lifecycle.main addr env evs)
  /\ Lifecycle.servers_closed (Lifecycle.main addr env evs)
     = Lifecycle.served (Lifecycle.main addr env evs)
  /\ Lifecycle.cancellations (Lifecycle.main addr env evs) = 1%nat
  /\ exists before servers transports,
       Lifecycle.main addr env evs
       = before ++ Lifecycle.CancelHealthTask :: servers ++ transports
       /\ Lifecycle.closed before = []
       /\ Lifecycle.servers_closed before = []
       /\ Lifecycle.closed servers = []
       /\ Lifecycle.servers_closed transports = []
       /\ Lifecycle.opened (servers ++ transports) = []
       /\ Lifecycle.served (servers ++ transports) = [].
Proof.
  pose proof (start_holding env addr) as H. unfold Lifecycle.main.
  destruct (Lifecycle.start env (Lifecycle.init addr)) as [[b1 acts1] raised].
  cbn [fst snd] in H. destruct raised as [e|].
  - exact (stop_releases b1 acts1 _ _ H).
  - destruct (running_holding evs b1 acts1 H) as [H2 _].
    destruct (Lifecycle.running evs b1) as [b2 acts2]. cbn [fst snd] in H2.
    exact (stop_releases b2 (acts1 ++ acts2) _ _ H2).
Qed.
